(** * bip_utils: BIP44 level state machine, mnemonic words lists, SCALE integers

    A shallow embedding of

    - [bip_utils/bip/bip44_base/bip44_base.py]           (module [Bip44])
    - [bip_utils/utils/mnemonic/mnemonic_utils.py]       (module [Mnemonic])
    - [bip_utils/substrate/scale/substrate_scale_enc_uint.py] (module [Scale])

    Python exceptions are values of [PyExc]; a call returns a [Result].
    [Bip44Base] instances live in a store, so that "a new object" and
    "the parent is untouched" are statements about that store. *)

From Stdlib Require Import ZArith List String Bool Lia.
From Stdlib Require Import Strings.Byte.
From stdpp Require Import base option list gmap strings.
Import ListNotations.
Local Open Scope Z_scope.

(** ** Python exceptions and results *)

Inductive PyExc : Type :=
| TypeError
| ValueError
| IndexError
| OverflowError
| SystemError        (* dereference of a reference that was never allocated *)
| Bip44DepthError
| Bip32KeyError
| FileNotFoundError  (* an OSError: [open] on a path that is not there *)
| UnicodeDecodeError (* a ValueError: a file that is not UTF-8 *).

(** [except ValueError] catches the class and its subclasses. *)
Definition isinstance_ValueError (e : PyExc) : bool :=
  match e with
  | ValueError | UnicodeDecodeError => true
  | _ => false
  end.

Inductive Result (A : Type) : Type :=
| Ok (a : A)
| Raise (e : PyExc).
Arguments Ok {A} a.
Arguments Raise {A} e.

Definition is_ok {A} (r : Result A) : bool :=
  match r with Ok _ => true | Raise _ => false end.

(** ** Bytes and integers *)

Definition byte_of_Z (z : Z) : Byte.byte :=
  match Byte.of_N (Z.to_N (z mod 256)) with
  | Some b => b
  | None => Byte.x00
  end.

Definition Z_of_byte (b : Byte.byte) : Z := Z.of_N (Byte.to_N b).

(** [n] bytes of [z], least significant first. *)
Fixpoint le_bytes (n : nat) (z : Z) : list Byte.byte :=
  match n with
  | O => []
  | S n' => byte_of_Z z :: le_bytes n' (z / 256)
  end.

(** The integer a little-endian byte string stands for. *)
Fixpoint le_decode (bs : list Byte.byte) : Z :=
  match bs with
  | [] => 0
  | b :: bs' => Z_of_byte b + 256 * le_decode bs'
  end.

Definition be_bytes (n : nat) (z : Z) : list Byte.byte := rev (le_bytes n z).
Definition be_decode (bs : list Byte.byte) : Z := le_decode (rev bs).

(** ** The Bip32 interface used by [Bip44Base]

    [bip_utils.bip.bip32] is not part of the sources at hand: the class
    [Bip32Base] is taken as an interface, with one field per method that
    [bip44_base.py] calls. A Bip32 object is an immutable value. *)

Module Bip32.

Class Bip32Base : Type := {
  bip32 : Type;
  Bip32PublicKey : Type;
  Bip32PrivateKey : Type;
  (* Depth().ToInt() *)
  Depth : bip32 -> Z;
  IsPublicOnly : bip32 -> bool;
  IsPrivateUnhardenedDerivationSupported : bip32 -> bool;
  ChildKey : bip32 -> Z -> Result bip32;
  PublicKey : bip32 -> Bip32PublicKey;
  PrivateKey : bip32 -> Result Bip32PrivateKey;
}.

(** Modelled from the spec: [Bip32Utils.HardenIndex] is not among the
    sources at hand; the spec has the top bit of the 32-bit child index
    as the hardened flag. *)
Definition HardenIndex (index : Z) : Z := Z.lor index (Z.shiftl 1 31).

(** Modelled from the spec: hardened is read from the top bit of the
    32-bit child index. *)
Definition IsHardenedIndex (index : Z) : bool := Z.testbit index 31.

(** Modelled from the spec: one element of a derivation path, an
    {index, hardened} pair. *)
Record PathElem : Type := { elem_index : Z; elem_hardened : bool }.

Definition PathElem_ToInt (e : PathElem) : Z :=
  if elem_hardened e then HardenIndex (elem_index e) else elem_index e.

End Bip32.

(** ** Coin configuration *)

(** [BipCoinConf] (bip_utils.bip.conf.common) is not among the sources at
    hand; the record has the constructor arguments that [Bip84Conf]
    passes and that [Bip44Base] reads back through [CoinIndex()] and
    [DefaultPath()]. *)
Record BipCoinConf : Type := {
  coin_names : string * string;
  coin_idx : Z;
  is_testnet : bool;
  def_path : list Bip32.PathElem;
}.

Definition CoinIndex (c : BipCoinConf) : Z := coin_idx c.
Definition DefaultPath (c : BipCoinConf) : list Bip32.PathElem := def_path c.

(** Modelled from the spec: the two default path constants of
    bip_utils.bip.conf.common are not among the sources at hand; account,
    change and address index, all hardened or only the account. *)
Definition HARDENED_DEF_PATH : list Bip32.PathElem :=
  [ {| Bip32.elem_index := 0; Bip32.elem_hardened := true |};
    {| Bip32.elem_index := 0; Bip32.elem_hardened := true |};
    {| Bip32.elem_index := 0; Bip32.elem_hardened := true |} ].

Definition NOT_HARDENED_DEF_PATH : list Bip32.PathElem :=
  [ {| Bip32.elem_index := 0; Bip32.elem_hardened := true |};
    {| Bip32.elem_index := 0; Bip32.elem_hardened := false |};
    {| Bip32.elem_index := 0; Bip32.elem_hardened := false |} ].

Module Bip84Conf.

Definition BitcoinMainNet : BipCoinConf :=
  {| coin_names := ("Bitcoin"%string, "BTC"%string);
     coin_idx := 0;
     is_testnet := false;
     def_path := NOT_HARDENED_DEF_PATH |}.

Definition BitcoinTestNet : BipCoinConf :=
  {| coin_names := ("Bitcoin TestNet"%string, "BTC"%string);
     coin_idx := 1;
     is_testnet := true;
     def_path := NOT_HARDENED_DEF_PATH |}.

Definition LitecoinMainNet : BipCoinConf :=
  {| coin_names := ("Litecoin"%string, "LTC"%string);
     coin_idx := 2;
     is_testnet := false;
     def_path := NOT_HARDENED_DEF_PATH |}.

Definition LitecoinTestNet : BipCoinConf :=
  {| coin_names := ("Litecoin TestNet"%string, "LTC"%string);
     coin_idx := 1;
     is_testnet := true;
     def_path := NOT_HARDENED_DEF_PATH |}.

End Bip84Conf.

(** ** bip44_base.py *)

Inductive Bip44Changes : Type := CHAIN_EXT | CHAIN_INT.

Inductive Bip44Levels : Type :=
  MASTER | PURPOSE | COIN | ACCOUNT | CHANGE | ADDRESS_INDEX.

(** The value of an IntEnum member. *)
Definition Bip44Changes_int (c : Bip44Changes) : Z :=
  match c with CHAIN_EXT => 0 | CHAIN_INT => 1 end.

Definition Bip44Levels_int (l : Bip44Levels) : Z :=
  match l with
  | MASTER => 0 | PURPOSE => 1 | COIN => 2
  | ACCOUNT => 3 | CHANGE => 4 | ADDRESS_INDEX => 5
  end.

(** What a caller can pass where an enumerative is expected. *)
Inductive PyVal : Type :=
| PyNone
| PyInt (z : Z)
| PyStr (s : string)
| PyLevel (l : Bip44Levels)
| PyChange (c : Bip44Changes).

(** [isinstance(v, Bip44Levels)], with the member when it holds. *)
Definition as_Bip44Levels (v : PyVal) : option Bip44Levels :=
  match v with PyLevel l => Some l | _ => None end.

(** [isinstance(v, Bip44Changes)], with the member when it holds. *)
Definition as_Bip44Changes (v : PyVal) : option Bip44Changes :=
  match v with PyChange c => Some c | _ => None end.

Module Bip44.
Section WithBip32.

Context {B : Bip32.Bip32Base}.

(** A [Bip44Base] instance: its two attributes. *)
Record Bip44Obj : Type := {
  m_bip32 : Bip32.bip32;
  m_coin_conf : BipCoinConf;
}.

Record Bip44PublicKey : Type := {
  pub_key : Bip32.Bip32PublicKey;
  pub_coin_conf : BipCoinConf;
}.

Record Bip44PrivateKey : Type := {
  priv_key : Bip32.Bip32PrivateKey;
  priv_coin_conf : BipCoinConf;
}.

(** One call of [ChildKey] on a Bip32 object. *)
Record DeriveCall : Type := {
  call_parent : Bip32.bip32;
  call_index : Z;
}.

(** References to [Bip44Base] instances. *)
Definition ref : Type := nat.

(** The interpreter state the class can see: the instances allocated so
    far, the calls made to the derivation engine, and the two
    [lru_cache] tables (most recent entry first). *)
Record State : Type := {
  heap : list Bip44Obj;
  trace : list DeriveCall;
  pub_cache : list (ref * Bip44PublicKey);
  priv_cache : list (ref * Bip44PrivateKey);
}.

Definition init_state : State :=
  {| heap := []; trace := []; pub_cache := []; priv_cache := [] |}.

Definition M (A : Type) : Type := State -> Result A * State.

Definition ret {A} (a : A) : M A := fun s => (Ok a, s).
Definition raise {A} (e : PyExc) : M A := fun s => (Raise e, s).
Definition bind {A C} (m : M A) (k : A -> M C) : M C :=
  fun s =>
    match m s with
    | (Ok a, s') => k a s'
    | (Raise e, s') => (Raise e, s')
    end.

Notation "x <~ m ;; k" := (bind m (fun x => k))
  (at level 100, m at next level, right associativity).

(** Attribute access through a reference. *)
Definition deref (r : ref) : M Bip44Obj :=
  fun s =>
    match heap s !! r with
    | Some o => (Ok o, s)
    | None => (Raise SystemError, s)
    end.

(** The state once [o] has been allocated at the next free reference. *)
Definition allocated (s : State) (o : Bip44Obj) : State :=
  {| heap := heap s ++ [o]; trace := trace s;
     pub_cache := pub_cache s; priv_cache := priv_cache s |}.

(** The state once a call of [ChildKey] has been recorded. *)
Definition logged (s : State) (bip32_obj : Bip32.bip32) (index : Z) : State :=
  {| heap := heap s;
     trace := trace s ++ [ {| call_parent := bip32_obj; call_index := index |} ];
     pub_cache := pub_cache s; priv_cache := priv_cache s |}.

(** Object creation: the new instance gets the next free reference. *)
Definition alloc (o : Bip44Obj) : M ref :=
  fun s => (Ok (length (heap s)), allocated s o).

(** [bip32_obj.ChildKey(index)], recorded in the trace. *)
Definition ChildKey (bip32_obj : Bip32.bip32) (index : Z) : M Bip32.bip32 :=
  fun s => (Bip32.ChildKey bip32_obj index, logged s bip32_obj index).

(** Modelled from the spec: [Bip32Base.DerivePath] is not among the
    sources at hand; the path elements are applied one child derivation
    at a time, left to right, and the first failure ends the walk. *)
Fixpoint DerivePath (bip32_obj : Bip32.bip32) (path : list Bip32.PathElem)
  : M Bip32.bip32 :=
  match path with
  | [] => ret bip32_obj
  | e :: path' =>
      child <~ ChildKey bip32_obj (Bip32.PathElem_ToInt e) ;;
      DerivePath child path'
  end.

(** [cls(bip32_obj, coin_conf)]: [__init__] on a new instance. *)
Definition __init__ (bip32_obj : Bip32.bip32) (coin_conf : BipCoinConf) : M ref :=
  let depth := Bip32.Depth bip32_obj in
  _ <~ (if Bip32.IsPublicOnly bip32_obj then
          if (depth <? Bip44Levels_int ACCOUNT) || (depth >? Bip44Levels_int ADDRESS_INDEX)
          then raise Bip44DepthError
          else ret tt
        else
          if (depth <? 0) || (depth >? Bip44Levels_int ADDRESS_INDEX)
          then raise Bip44DepthError
          else ret tt) ;;
  alloc {| m_bip32 := bip32_obj; m_coin_conf := coin_conf |}.

(** [functools.lru_cache()] around a method of one argument, [self]:
    at most 128 entries, least recently used entry dropped first. *)
Definition lru_maxsize : nat := 128.

Fixpoint cache_lookup {V} (r : ref) (c : list (ref * V)) : option V :=
  match c with
  | [] => None
  | (r', v) :: c' => if Nat.eqb r r' then Some v else cache_lookup r c'
  end.

Fixpoint cache_remove {V} (r : ref) (c : list (ref * V)) : list (ref * V) :=
  match c with
  | [] => []
  | (r', v) :: c' => if Nat.eqb r r' then c' else (r', v) :: cache_remove r c'
  end.

Definition lru_cache {V} (get : State -> list (ref * V))
    (set : list (ref * V) -> State -> State)
    (f : ref -> M V) (self : ref) : M V :=
  fun s =>
    match cache_lookup self (get s) with
    | Some v => (Ok v, set ((self, v) :: cache_remove self (get s)) s)
    | None =>
        match f self s with
        | (Ok v, s') => (Ok v, set (firstn lru_maxsize ((self, v) :: get s')) s')
        | (Raise e, s') => (Raise e, s')
        end
    end.

Definition set_pub_cache (c : list (ref * Bip44PublicKey)) (s : State) : State :=
  {| heap := heap s; trace := trace s; pub_cache := c; priv_cache := priv_cache s |}.

Definition set_priv_cache (c : list (ref * Bip44PrivateKey)) (s : State) : State :=
  {| heap := heap s; trace := trace s; pub_cache := pub_cache s; priv_cache := c |}.

Definition PublicKey : ref -> M Bip44PublicKey :=
  lru_cache pub_cache set_pub_cache
    (fun self =>
       o <~ deref self ;;
       ret {| pub_key := Bip32.PublicKey (m_bip32 o);
              pub_coin_conf := m_coin_conf o |}).

Definition PrivateKey : ref -> M Bip44PrivateKey :=
  lru_cache priv_cache set_priv_cache
    (fun self =>
       o <~ deref self ;;
       match Bip32.PrivateKey (m_bip32 o) with
       | Ok k => ret {| priv_key := k; priv_coin_conf := m_coin_conf o |}
       | Raise e => raise e
       end).

Definition CoinConf (self : ref) : M BipCoinConf :=
  o <~ deref self ;; ret (m_coin_conf o).

Definition IsPublicOnly (self : ref) : M bool :=
  o <~ deref self ;; ret (Bip32.IsPublicOnly (m_bip32 o)).

Definition IsLevel (self : ref) (level : PyVal) : M bool :=
  match as_Bip44Levels level with
  | None => raise TypeError
  | Some lv =>
      o <~ deref self ;;
      ret (Bip32.Depth (m_bip32 o) =? Bip44Levels_int lv)
  end.

Definition _PurposeGeneric (bip_obj : ref) (purpose : Z) : M ref :=
  at_level <~ IsLevel bip_obj (PyLevel MASTER) ;;
  if negb at_level then raise Bip44DepthError
  else
    o <~ deref bip_obj ;;
    child <~ ChildKey (m_bip32 o) purpose ;;
    __init__ child (m_coin_conf o).

Definition _CoinGeneric (bip_obj : ref) : M ref :=
  at_level <~ IsLevel bip_obj (PyLevel PURPOSE) ;;
  if negb at_level then raise Bip44DepthError
  else
    o <~ deref bip_obj ;;
    let coin_idx := CoinIndex (m_coin_conf o) in
    child <~ ChildKey (m_bip32 o) (Bip32.HardenIndex coin_idx) ;;
    __init__ child (m_coin_conf o).

Definition _AccountGeneric (bip_obj : ref) (acc_idx : Z) : M ref :=
  at_level <~ IsLevel bip_obj (PyLevel COIN) ;;
  if negb at_level then raise Bip44DepthError
  else
    o <~ deref bip_obj ;;
    child <~ ChildKey (m_bip32 o) (Bip32.HardenIndex acc_idx) ;;
    __init__ child (m_coin_conf o).

Definition _ChangeGeneric (bip_obj : ref) (change_type : PyVal) : M ref :=
  match as_Bip44Changes change_type with
  | None => raise TypeError
  | Some ct =>
      at_level <~ IsLevel bip_obj (PyLevel ACCOUNT) ;;
      if negb at_level then raise Bip44DepthError
      else
        o <~ deref bip_obj ;;
        let change_idx :=
          if negb (Bip32.IsPrivateUnhardenedDerivationSupported (m_bip32 o))
          then Bip32.HardenIndex (Bip44Changes_int ct)
          else Bip44Changes_int ct in
        child <~ ChildKey (m_bip32 o) change_idx ;;
        __init__ child (m_coin_conf o)
  end.

Definition _AddressIndexGeneric (bip_obj : ref) (addr_idx : Z) : M ref :=
  at_level <~ IsLevel bip_obj (PyLevel CHANGE) ;;
  if negb at_level then raise Bip44DepthError
  else
    o <~ deref bip_obj ;;
    let addr_idx :=
      if negb (Bip32.IsPrivateUnhardenedDerivationSupported (m_bip32 o))
      then Bip32.HardenIndex addr_idx
      else addr_idx in
    child <~ ChildKey (m_bip32 o) addr_idx ;;
    __init__ child (m_coin_conf o).

Definition _DeriveDefaultPathGeneric (bip_obj : ref) (purpose : Z) : M ref :=
  at_level <~ IsLevel bip_obj (PyLevel MASTER) ;;
  if negb at_level then raise Bip44DepthError
  else
    bip_obj <~ _PurposeGeneric bip_obj purpose ;;
    bip_obj <~ _CoinGeneric bip_obj ;;
    o <~ deref bip_obj ;;
    derived <~ DerivePath (m_bip32 o) (DefaultPath (m_coin_conf o)) ;;
    __init__ derived (m_coin_conf o).

(** The derivation operations of the interface, with their arguments. *)
Inductive DeriveOp : Type :=
| OpPurpose (purpose : Z)
| OpCoin
| OpAccount (acc_idx : Z)
| OpChange (change_type : PyVal)
| OpAddressIndex (addr_idx : Z)
| OpDeriveDefaultPath (purpose : Z).

Definition run_op (op : DeriveOp) (self : ref) : M ref :=
  match op with
  | OpPurpose purpose => _PurposeGeneric self purpose
  | OpCoin => _CoinGeneric self
  | OpAccount acc_idx => _AccountGeneric self acc_idx
  | OpChange change_type => _ChangeGeneric self change_type
  | OpAddressIndex addr_idx => _AddressIndexGeneric self addr_idx
  | OpDeriveDefaultPath purpose => _DeriveDefaultPathGeneric self purpose
  end.

(** *** Vocabulary of the statements *)

(** The depth check of [__init__], as a boolean. *)
Definition depth_admissible (bip32_obj : Bip32.bip32) : bool :=
  if Bip32.IsPublicOnly bip32_obj
  then (Bip44Levels_int ACCOUNT <=? Bip32.Depth bip32_obj)
       && (Bip32.Depth bip32_obj <=? Bip44Levels_int ADDRESS_INDEX)
  else (0 <=? Bip32.Depth bip32_obj)
       && (Bip32.Depth bip32_obj <=? Bip44Levels_int ADDRESS_INDEX).

(** Every instance of the store went through [__init__]. *)
Definition heap_wf (s : State) : Prop :=
  forall (r : ref) (o : Bip44Obj),
    heap s !! r = Some o -> depth_admissible (m_bip32 o) = true.

(** The level an operation starts from: the "From" column of the
    transition table. *)
Definition required_level (op : DeriveOp) : Bip44Levels :=
  match op with
  | OpPurpose _ => MASTER
  | OpCoin => PURPOSE
  | OpAccount _ => COIN
  | OpChange _ => ACCOUNT
  | OpAddressIndex _ => CHANGE
  | OpDeriveDefaultPath _ => MASTER
  end.

(** The five operations that derive one child. *)
Definition single_step (op : DeriveOp) : bool :=
  match op with OpDeriveDefaultPath _ => false | _ => true end.

(** The common shape of the five single steps: the level guard, one
    recorded child derivation, the construction of the new instance. *)
Definition step (s : State) (o : Bip44Obj) (lvl : Bip44Levels) (index : Z)
  : Result ref * State :=
  if Bip32.Depth (m_bip32 o) =? Bip44Levels_int lvl then
    match Bip32.ChildKey (m_bip32 o) index with
    | Ok child => __init__ child (m_coin_conf o) (logged s (m_bip32 o) index)
    | Raise e => (Raise e, logged s (m_bip32 o) index)
    end
  else (Raise Bip44DepthError, s).

(** The child index the change and address steps pass on. *)
Definition change_index (o : Bip44Obj) (ct : Bip44Changes) : Z :=
  if Bip32.IsPrivateUnhardenedDerivationSupported (m_bip32 o)
  then Bip44Changes_int ct
  else Bip32.HardenIndex (Bip44Changes_int ct).

Definition address_index (o : Bip44Obj) (addr_idx : Z) : Z :=
  if Bip32.IsPrivateUnhardenedDerivationSupported (m_bip32 o)
  then addr_idx
  else Bip32.HardenIndex addr_idx.

(** The child index of a single step on instance [o]. *)
Definition op_index (op : DeriveOp) (o : Bip44Obj) : Z :=
  match op with
  | OpPurpose purpose => purpose
  | OpCoin => Bip32.HardenIndex (CoinIndex (m_coin_conf o))
  | OpAccount acc_idx => Bip32.HardenIndex acc_idx
  | OpChange (PyChange ct) => change_index o ct
  | OpChange _ => 0
  | OpAddressIndex addr_idx => address_index o addr_idx
  | OpDeriveDefaultPath purpose => purpose
  end.

(** The enumerative argument of an operation has the right type. *)
Definition well_typed (op : DeriveOp) : bool :=
  match op with
  | OpChange (PyChange _) => true
  | OpChange _ => false
  | _ => true
  end.

(** A state grown by new instances and new recorded calls, and a result
    read relative to the first free reference of a state. *)
Definition extends (s : State) (objs : list Bip44Obj) (calls : list DeriveCall)
  : State :=
  {| heap := heap s ++ objs; trace := trace s ++ calls;
     pub_cache := pub_cache s; priv_cache := priv_cache s |}.

Definition at_offset (s : State) (res : Result nat) : Result ref :=
  match res with
  | Ok k => Ok (length (heap s) + k)%nat
  | Raise e => Raise e
  end.

(** The calls recorded between two states. *)
Definition new_calls (s s' : State) : list DeriveCall :=
  skipn (length (trace s)) (trace s').

(** The calls whose parent is at ACCOUNT level: the change steps. *)
Definition change_step_calls (calls : list DeriveCall) : list DeriveCall :=
  List.filter (fun c => Bip32.Depth (call_parent c) =? Bip44Levels_int ACCOUNT) calls.

(** The path-template layer in the spec's words: the child derivations
    for a sequence of indices, left to right, up to and including the
    first that fails; the outcome and the calls made. *)
Fixpoint derive_seq (bip32_obj : Bip32.bip32) (indices : list Z)
  : Result Bip32.bip32 * list DeriveCall :=
  match indices with
  | [] => (Ok bip32_obj, [])
  | index :: indices' =>
      let call := {| call_parent := bip32_obj; call_index := index |} in
      match Bip32.ChildKey bip32_obj index with
      | Ok child =>
          let (r, calls) := derive_seq child indices' in (r, call :: calls)
      | Raise e => (Raise e, [call])
      end
  end.

(** The indices [_DeriveDefaultPathGeneric] walks for an instance. *)
Definition default_path_indices (o : Bip44Obj) (purpose : Z) : list Z :=
  purpose :: Bip32.HardenIndex (CoinIndex (m_coin_conf o))
    :: map Bip32.PathElem_ToInt (DefaultPath (m_coin_conf o)).

(** What the two methods compute when nothing is memoized. *)
Definition public_key_of (o : Bip44Obj) : Bip44PublicKey :=
  {| pub_key := Bip32.PublicKey (m_bip32 o); pub_coin_conf := m_coin_conf o |}.

Definition private_key_of (o : Bip44Obj) : Result Bip44PrivateKey :=
  match Bip32.PrivateKey (m_bip32 o) with
  | Ok k => Ok {| priv_key := k; priv_coin_conf := m_coin_conf o |}
  | Raise e => Raise e
  end.

(** Every memoized entry is what the method computes on its instance. *)
Definition cache_consistent (s : State) : Prop :=
  (forall r v, cache_lookup r (pub_cache s) = Some v ->
     exists o, heap s !! r = Some o /\ v = public_key_of o)
  /\ (forall r v, cache_lookup r (priv_cache s) = Some v ->
     exists o, heap s !! r = Some o /\ private_key_of o = Ok v).

(** Modelled from the spec: what the derivation engine promises of a
    child key: its depth is the parent depth plus one, and it has a
    private key exactly when its parent has one. *)
Record Bip32Laws : Prop := {
  ChildKey_depth : forall b index child,
    Bip32.ChildKey b index = Ok child -> Bip32.Depth child = Bip32.Depth b + 1;
  ChildKey_public_only : forall b index child,
    Bip32.ChildKey b index = Ok child ->
    Bip32.IsPublicOnly child = Bip32.IsPublicOnly b;
}.

(** *** Paths made of single operations *)

(** The operations applied one after the other, each to the instance
    the one before returned, as in
    [ctx.Purpose().Coin().Account(0).Change(c).AddressIndex(i)]; an
    exception ends the path. *)
Fixpoint run_ops (ops : list DeriveOp) (self : ref) : M ref :=
  match ops with
  | [] => ret self
  | op :: ops' => r <~ run_op op self ;; run_ops ops' r
  end.

(** The operations are well-typed single steps for the levels [d],
    [d + 1], ... in this order. *)
Fixpoint steps_from (d : Z) (ops : list DeriveOp) : bool :=
  match ops with
  | [] => true
  | op :: ops' =>
      single_step op && well_typed op
      && (Bip44Levels_int (required_level op) =? d)
      && steps_from (d + 1) ops'
  end.

(** The capability flag belongs to the curve: a child has the flag of
    its parent. *)
Definition flag_inherited : Prop :=
  forall b index child,
    Bip32.ChildKey b index = Ok child ->
    Bip32.IsPrivateUnhardenedDerivationSupported child
    = Bip32.IsPrivateUnhardenedDerivationSupported b.

(** The default path that stands for account [acc_idx], change
    [change_type] and address [addr_idx] on the curve of [o]. *)
Definition matching_default_path (o : Bip44Obj) (acc_idx : Z)
    (change_type : Bip44Changes) (addr_idx : Z) : list Bip32.PathElem :=
  let hardened := negb (Bip32.IsPrivateUnhardenedDerivationSupported (m_bip32 o)) in
  [ {| Bip32.elem_index := acc_idx; Bip32.elem_hardened := true |};
    {| Bip32.elem_index := Bip44Changes_int change_type;
       Bip32.elem_hardened := hardened |};
    {| Bip32.elem_index := addr_idx; Bip32.elem_hardened := hardened |} ].

End WithBip32.
End Bip44.

(** ** The derivation engine *)

Module HD.

(** Modelled from the spec: the elliptic-curve key primitives are an
    external capability; a curve supplies the group operations, the
    serialisation, the two hash functions and the capability flag. *)
Record Curve : Type := {
  Point : Type;
  curve_order : Z;
  generator_mul : Z -> Point;
  point_add : Point -> Point -> Point;
  point_is_valid : Point -> bool;
  serialize_compressed : Point -> list Byte.byte;
  hmac_sha512 : list Byte.byte -> list Byte.byte -> list Byte.byte;
  key_hash : list Byte.byte -> list Byte.byte;
  SupportsUnhardenedPrivateDerivation : bool;
}.

(** Modelled from the spec: the ExtendedKey of the data model; the
    bip_utils.bip.bip32 classes are not among the sources at hand. A key
    without private scalar is public-only. *)
Record ExtendedKey (C : Curve) : Type := {
  private_scalar : option Z;
  public_point : Point C;
  chain_code : list Byte.byte;
  depth : Z;
  parent_fingerprint : list Byte.byte;
  child_index : Z;
  version_bytes : list Byte.byte * list Byte.byte;
}.
Arguments private_scalar {C} _.
Arguments public_point {C} _.
Arguments chain_code {C} _.
Arguments depth {C} _.
Arguments parent_fingerprint {C} _.
Arguments child_index {C} _.
Arguments version_bytes {C} _.

Definition is_public_only {C} (k : ExtendedKey C) : bool :=
  match private_scalar k with Some _ => false | None => true end.

(** Modelled from the spec: child key derivation (Bip32Base.ChildKey is
    not among the sources at hand). Hardened is index >= 2^31 and needs
    the private key; the HMAC-SHA512 of the data under the parent chain
    code is split into I_L and I_R; a curve without unhardened private
    derivation refuses an unhardened index on a private key; the new
    depth is the parent depth plus one. Every failure is the engine's key
    error. *)
Definition Derive {C : Curve} (k : ExtendedKey C) (index : Z)
  : Result (ExtendedKey C) :=
  let hardened := 2 ^ 31 <=? index in
  let fingerprint :=
    firstn 4 (key_hash C (serialize_compressed C (public_point k))) in
  match private_scalar k with
  | None =>
      if hardened then Raise Bip32KeyError
      else
        let data := serialize_compressed C (public_point k) ++ be_bytes 4 index in
        let I := hmac_sha512 C (chain_code k) data in
        let I_L := be_decode (firstn 32 I) in
        let I_R := skipn 32 I in
        let child := point_add C (public_point k) (generator_mul C I_L) in
        if point_is_valid C child then
          Ok {| private_scalar := None;
                public_point := child;
                chain_code := I_R;
                depth := depth k + 1;
                parent_fingerprint := fingerprint;
                child_index := index;
                version_bytes := version_bytes k |}
        else Raise Bip32KeyError
  | Some parent_scalar =>
      if negb hardened && negb (SupportsUnhardenedPrivateDerivation C)
      then Raise Bip32KeyError
      else
        let data :=
          if hardened
          then Byte.x00 :: be_bytes 32 parent_scalar ++ be_bytes 4 index
          else serialize_compressed C (public_point k) ++ be_bytes 4 index in
        let I := hmac_sha512 C (chain_code k) data in
        let I_L := be_decode (firstn 32 I) in
        let I_R := skipn 32 I in
        let child := (I_L + parent_scalar) mod curve_order C in
        if (child =? 0) || (curve_order C <=? child) then Raise Bip32KeyError
        else
          Ok {| private_scalar := Some child;
                public_point := generator_mul C child;
                chain_code := I_R;
                depth := depth k + 1;
                parent_fingerprint := fingerprint;
                child_index := index;
                version_bytes := version_bytes k |}
  end.

(** The engine as an implementation of the Bip32 interface. *)
Definition engine (C : Curve) : Bip32.Bip32Base :=
  {| Bip32.bip32 := ExtendedKey C;
     Bip32.Bip32PublicKey := Point C;
     Bip32.Bip32PrivateKey := Z;
     Bip32.Depth := depth;
     Bip32.IsPublicOnly := is_public_only;
     Bip32.IsPrivateUnhardenedDerivationSupported :=
       fun _ => SupportsUnhardenedPrivateDerivation C;
     Bip32.ChildKey := Derive;
     Bip32.PublicKey := public_point;
     Bip32.PrivateKey := fun k =>
       match private_scalar k with
       | Some p => Ok p
       | None => Raise Bip32KeyError
       end |}.

(** A small additive group, integers modulo a prime with generator 1, and
    a keyed mixing function in place of the hash: enough to run the
    engine on concrete keys. *)
Definition small_order : Z := 1009.

Definition small_hmac (key msg : list Byte.byte) : list Byte.byte :=
  let seed := fold_right (fun b acc => Z_of_byte b + 31 * acc) 7 (key ++ msg) in
  map (fun i => byte_of_Z (seed * (Z.of_nat i + 1) + Z.of_nat i)) (seq 0 64).

Definition small_curve (unhardened : bool) : Curve :=
  {| Point := Z;
     curve_order := small_order;
     generator_mul := fun k => k mod small_order;
     point_add := fun p q => (p + q) mod small_order;
     point_is_valid := fun p => negb (p =? 0);
     serialize_compressed := fun p => be_bytes 33 p;
     hmac_sha512 := small_hmac;
     key_hash := fun bs => small_hmac [] bs;
     SupportsUnhardenedPrivateDerivation := unhardened |}.

Definition small_key (unhardened : bool) (scalar : option Z) (d : Z)
  : ExtendedKey (small_curve unhardened) :=
  {| private_scalar := scalar;
     public_point := (5 : Point (small_curve unhardened));
     chain_code := be_bytes 32 1;
     depth := d;
     parent_fingerprint := be_bytes 4 0;
     child_index := 0;
     version_bytes := (be_bytes 4 0, be_bytes 4 0) |}.

End HD.

(** ** mnemonic_utils.py *)

Module Mnemonic.

(** [l[i]] on a Python list: a negative index counts from the end. *)
Definition list_getitem {A} (l : list A) (i : Z) : Result A :=
  let n := Z.of_nat (length l) in
  let j := if i <? 0 then i + n else i in
  if (j <? 0) || (n <=? j) then Raise IndexError
  else match l !! Z.to_nat j with
       | Some x => Ok x
       | None => Raise IndexError
       end.

Record MnemonicWordsList : Type := {
  m_idx_to_words : list string;
  m_words_to_idx : gmap string Z;
}.

(** [{words_list[i]: i for i in range(len(words_list))}] *)
Definition words_to_idx (words_list : list string) : gmap string Z :=
  foldl (fun d i =>
           match words_list !! i with
           | Some w => <[w := Z.of_nat i]> d
           | None => d
           end)
        ∅ (seq 0 (length words_list)).

Definition MnemonicWordsList_init (words_list : list string) : MnemonicWordsList :=
  {| m_idx_to_words := words_list;
     m_words_to_idx := words_to_idx words_list |}.

Definition GetWordIdx (self : MnemonicWordsList) (word : string) : Result Z :=
  match m_words_to_idx self !! word with
  | Some i => Ok i
  | None => Raise ValueError
  end.

Definition GetWordAtIdx (self : MnemonicWordsList) (word_idx : Z) : Result string :=
  list_getitem (m_idx_to_words self) word_idx.

(** [Mnemonic] (bip_utils.utils.mnemonic.mnemonic) is not among the
    sources at hand; the finder only calls [ToList()]. *)
Record Mnemonic : Type := { m_mnemonic_list : list string }.

Definition ToList (m : Mnemonic) : list string := m_mnemonic_list m.

Section Finder.

(** The members of a [MnemonicLanguages] enumerative. *)
Variable Lang : Type.

(** [MnemonicWordsListGetterBase]: [GetByLanguage] is abstract. An
    implementation hands out what [_LoadWordsList] gives it: an instance
    that the [MnemonicWordsList] constructor built from the words read
    for the language, or an exception, of any type: the [ValueError] of a
    words list that is not valid, the [TypeError] of a language that is
    not of its enumerative, what [open] raises on the file. A getter is
    given by what it reads per language: the words, or the exception. *)
Record MnemonicWordsListGetterBase : Type := {
  words_for : Lang -> Result (list string);
}.

Definition GetByLanguage (getter : MnemonicWordsListGetterBase) (lang : Lang)
  : Result MnemonicWordsList :=
  match words_for getter lang with
  | Ok words_list => Ok (MnemonicWordsList_init words_list)
  | Raise e => Raise e
  end.

(** The inner loop: [for word in mnemonic.ToList(): words_list.GetWordIdx(word)] *)
Fixpoint lookup_all (words_list : MnemonicWordsList) (words : list string)
  : Result unit :=
  match words with
  | [] => Ok tt
  | word :: words' =>
      match GetWordIdx words_list word with
      | Ok _ => lookup_all words_list words'
      | Raise e => Raise e
      end
  end.

(** The body of the [try] for one language. *)
Definition try_language (mnemonic : Mnemonic) (getter : MnemonicWordsListGetterBase)
    (lang : Lang) : Result (MnemonicWordsList * Lang) :=
  match GetByLanguage getter lang with
  | Raise e => Raise e
  | Ok words_list =>
      match lookup_all words_list (ToList mnemonic) with
      | Ok _ => Ok (words_list, lang)
      | Raise e => Raise e
      end
  end.

Fixpoint _FindLanguageGeneric (mnemonic : Mnemonic) (langs_enum : list Lang)
    (words_list_getter_cls : MnemonicWordsListGetterBase)
  : Result (MnemonicWordsList * Lang) :=
  match langs_enum with
  | [] => Raise ValueError
  | lang :: langs' =>
      match try_language mnemonic words_list_getter_cls lang with
      | Ok found => Ok found
      | Raise e =>
          if isinstance_ValueError e
          then _FindLanguageGeneric mnemonic langs' words_list_getter_cls
          else Raise e
      end
  end.

End Finder.

Arguments words_for {Lang} _ _.
Arguments GetByLanguage {Lang} _ _.
Arguments Build_MnemonicWordsListGetterBase {Lang} _.
Arguments _FindLanguageGeneric {Lang} _ _ _.
Arguments try_language {Lang} _ _ _.

(** *** Vocabulary of the statements *)

(** The words list holds every word of the mnemonic. *)
Definition contains_all (mnemonic : Mnemonic) (words_list : list string) : Prop :=
  forall word, word ∈ ToList mnemonic -> word ∈ words_list.

(** The getter has a words list for the language and that list holds
    every word of the mnemonic. *)
Definition suits {Lang} (getter : MnemonicWordsListGetterBase Lang)
    (mnemonic : Mnemonic) (lang : Lang) : Prop :=
  exists words_list,
    words_for getter lang = Ok words_list /\ contains_all mnemonic words_list.

(** The language is one that the loop passes over: getting its words
    list raises a [ValueError], or the list lacks a word of the
    mnemonic. *)
Definition passed_over {Lang} (getter : MnemonicWordsListGetterBase Lang)
    (mnemonic : Mnemonic) (lang : Lang) : Prop :=
  (exists e, words_for getter lang = Raise e /\ isinstance_ValueError e = true)
  \/ (exists words_list,
        words_for getter lang = Ok words_list
        /\ ~ contains_all mnemonic words_list).

(** Getting the words list of the language raises [e], which is not a
    [ValueError]. *)
Definition breaks {Lang} (getter : MnemonicWordsListGetterBase Lang)
    (lang : Lang) (e : PyExc) : Prop :=
  words_for getter lang = Raise e /\ isinstance_ValueError e = false.

(** *** Loading words lists *)

(** What [open(file_path, "r", encoding="utf-8")] followed by
    [readlines()] gives for a path: the lines of the file, or the
    exception raised, such as [FileNotFoundError] for a path that is not
    there and [UnicodeDecodeError] for a file that is not UTF-8. *)
Definition FileSystem : Type := string -> Result (list string).

Section Loading.

(** Python's [str.strip]. *)
Variable strip : string -> string.

(** [MnemonicWordsListFileReader.LoadFile] *)
Definition LoadFile (fs : FileSystem) (file_path : string) (words_num : Z)
  : Result MnemonicWordsList :=
  match fs file_path with
  | Raise e => Raise e
  | Ok lines =>
      let words_list :=
        map strip
          (List.filter (fun word => negb (String.eqb (strip word) "")) lines) in
      if negb (Z.of_nat (length words_list) =? words_num)
      then Raise ValueError
      else Ok (MnemonicWordsList_init words_list)
  end.

Context {Lang : Type} `{Countable Lang}.

(** [MnemonicWordsListGetterBase._LoadWordsList], on the dictionary
    [m_words_lists] of the getter. *)
Definition _LoadWordsList (fs : FileSystem)
    (m_words_lists : gmap Lang MnemonicWordsList)
    (lang : Lang) (file_name : string) (words_num : Z)
  : Result MnemonicWordsList * gmap Lang MnemonicWordsList :=
  match m_words_lists !! lang with
  | Some words_list => (Ok words_list, m_words_lists)
  | None =>
      match LoadFile fs file_name words_num with
      | Ok words_list => (Ok words_list, <[lang := words_list]> m_words_lists)
      | Raise e => (Raise e, m_words_lists)
      end
  end.

(** A getter whose [GetByLanguage] loads the file of the language with
    [_LoadWordsList]: what it reads for a language are the words of the
    file when the file is a valid list, and the exception of [LoadFile]
    when it is not. *)
Definition file_getter (fs : FileSystem) (file_of : Lang -> string)
    (words_num : Z) : MnemonicWordsListGetterBase Lang :=
  Build_MnemonicWordsListGetterBase
    (fun lang =>
       match LoadFile fs (file_of lang) words_num with
       | Ok words_list => Ok (m_idx_to_words words_list)
       | Raise e => Raise e
       end).

(** Every list of the dictionary is the one its file gives. *)
Definition loaded_from (fs : FileSystem) (file_of : Lang -> string)
    (words_num : Z) (m_words_lists : gmap Lang MnemonicWordsList) : Prop :=
  forall lang words_list,
    m_words_lists !! lang = Some words_list ->
    LoadFile fs (file_of lang) words_num = Ok words_list.

End Loading.

(** A strip for plain spaces, tabs and line ends, to run the loader on. *)
Definition is_blank (c : Ascii.ascii) : bool :=
  let n := Ascii.nat_of_ascii c in
  (n =? 32)%nat || (n =? 9)%nat || (n =? 10)%nat || (n =? 13)%nat.

Fixpoint strip_left (w : string) : string :=
  match w with
  | String c w' => if is_blank c then strip_left w' else w
  | EmptyString => EmptyString
  end.

Definition sample_strip (w : string) : string :=
  String.rev (strip_left (String.rev (strip_left w))).

Definition sample_fs : FileSystem :=
  fun path =>
    if String.eqb path "english.txt"
    then Ok [ "abandon" ++ String (Ascii.ascii_of_nat 10) "";
              "  ability " ++ String (Ascii.ascii_of_nat 10) "";
              String (Ascii.ascii_of_nat 10) "";
              "able" ]%string
    else Raise FileNotFoundError.

(** Three short lists, two with a shared word and one that is not
    valid, to run the finder on. *)
Inductive SampleLanguages : Type := ENGLISH | FRENCH | ITALIAN.

Definition sample_getter : MnemonicWordsListGetterBase SampleLanguages :=
  Build_MnemonicWordsListGetterBase
    (fun lang =>
       match lang with
       | ENGLISH => Ok ["abandon"; "ability"; "fatigue"]%string
       | FRENCH => Ok ["abaisser"; "fatigue"; "gazelle"]%string
       | ITALIAN => Raise ValueError
       end).

(** The same lists when the file of the third one is not there. *)
Definition missing_file_getter : MnemonicWordsListGetterBase SampleLanguages :=
  Build_MnemonicWordsListGetterBase
    (fun lang =>
       match lang with
       | ITALIAN => Raise FileNotFoundError
       | _ => words_for sample_getter lang
       end).

End Mnemonic.

(** ** substrate_scale_enc_uint.py *)

Module Scale.

Inductive Endianness : Type := little | big.

(** Modelled from the spec: [IntegerUtils.ToBytes] (bip_utils.utils.misc)
    is not among the sources at hand; called with a byte count of at
    least one it is Python's [int.to_bytes]: the unsigned encoding on
    [bytes_num] bytes, and an [OverflowError] when the integer does not
    fit. *)
Definition IntegerUtils_ToBytes (data_int : Z) (bytes_num : Z)
    (endianness : Endianness) : Result (list Byte.byte) :=
  if (data_int <? 0) || (2 ^ (8 * bytes_num) <=? data_int)
  then Raise OverflowError
  else Ok (match endianness with
           | little => le_bytes (Z.to_nat bytes_num) data_int
           | big => be_bytes (Z.to_nat bytes_num) data_int
           end).

Record SubstrateScaleUIntEncoder : Type := {
  m_bytes_num : Z;
  m_max_val : Z;
}.

(** [2 << k] raises [ValueError] on a negative shift count. *)
Definition SubstrateScaleUIntEncoder_init (bytes_num : Z)
  : Result SubstrateScaleUIntEncoder :=
  if bytes_num * 8 <? 0 then Raise ValueError
  else Ok {| m_bytes_num := bytes_num;
             m_max_val := Z.shiftl 2 (bytes_num * 8) - 1 |}.

Definition Encode (self : SubstrateScaleUIntEncoder) (value : Z)
  : Result (list Byte.byte) :=
  if (value <? 0) || (value >? m_max_val self) then Raise ValueError
  else IntegerUtils_ToBytes value (m_bytes_num self) little.

Definition SubstrateScaleU8Encoder := SubstrateScaleUIntEncoder_init 1.
Definition SubstrateScaleU16Encoder := SubstrateScaleUIntEncoder_init 2.
Definition SubstrateScaleU32Encoder := SubstrateScaleUIntEncoder_init 4.
Definition SubstrateScaleU64Encoder := SubstrateScaleUIntEncoder_init 8.
Definition SubstrateScaleU128Encoder := SubstrateScaleUIntEncoder_init 16.
Definition SubstrateScaleU256Encoder := SubstrateScaleUIntEncoder_init 32.

End Scale.

(** ** Concrete instances to run the model on *)

Module Samples.

(** An engine with unhardened private derivation, as for secp256k1, and
    one without, as for SLIP-0010 ed25519. *)
Definition with_unhardened : Bip32.Bip32Base := HD.engine (HD.small_curve true).
Definition hardened_only : Bip32.Bip32Base := HD.engine (HD.small_curve false).

Definition purpose84 : Z := Bip32.HardenIndex 84.

(** The state after one instance has been constructed from [key]. *)
Definition constructed {B : Bip32.Bip32Base} (key : Bip32.bip32)
    (coin_conf : BipCoinConf) : Bip44.State :=
  snd (Bip44.__init__ key coin_conf Bip44.init_state).

(** The instance constructed from [key]. *)
Definition object {B : Bip32.Bip32Base} (key : Bip32.bip32)
    (coin_conf : BipCoinConf) : Bip44.Bip44Obj :=
  {| Bip44.m_bip32 := key; Bip44.m_coin_conf := coin_conf |}.

(** Coin configurations like that of Bitcoin, with a default path of the
    account alone and one of four elements. *)
Definition account_path_conf : BipCoinConf :=
  {| coin_names := ("Bitcoin"%string, "BTC"%string);
     coin_idx := 0;
     is_testnet := false;
     def_path := [ {| Bip32.elem_index := 0; Bip32.elem_hardened := true |} ] |}.

Definition long_path_conf : BipCoinConf :=
  {| coin_names := ("Bitcoin"%string, "BTC"%string);
     coin_idx := 0;
     is_testnet := false;
     def_path := NOT_HARDENED_DEF_PATH
                 ++ [ {| Bip32.elem_index := 0; Bip32.elem_hardened := false |} ] |}.

(** A private master key, and private and public-only keys at a depth. *)
Definition master (unhardened : bool) :=
  HD.small_key unhardened (Some 5) 0.
Definition private_at (unhardened : bool) (d : Z) :=
  HD.small_key unhardened (Some 5) d.
Definition public_at (unhardened : bool) (d : Z) :=
  HD.small_key unhardened None d.

End Samples.

(** * Facts about bip44_base.py *)

Module Bip44Facts.
Import Bip44.

Section WithBip32.

Context {B : Bip32.Bip32Base}.

(** ** The store *)

Lemma extends_nil (s : State) : extends s [] [] = s.
Proof. destruct s; unfold extends; simpl. by rewrite !app_nil_r. Qed.

Lemma extends_extends (s : State) objs1 calls1 objs2 calls2 :
  extends (extends s objs1 calls1) objs2 calls2
  = extends s (objs1 ++ objs2) (calls1 ++ calls2).
Proof. unfold extends; simpl. by rewrite !app_assoc. Qed.

Lemma allocated_extends (s : State) o : allocated s o = extends s [o] [].
Proof. unfold allocated, extends. by rewrite app_nil_r. Qed.

Lemma logged_extends (s : State) b index :
  logged s b index
  = extends s [] [ {| call_parent := b; call_index := index |} ].
Proof. unfold logged, extends. by rewrite app_nil_r. Qed.

Lemma extends_lookup_old (s : State) objs calls (r : ref) (o : Bip44Obj) :
  heap s !! r = Some o -> heap (extends s objs calls) !! r = Some o.
Proof. intros H. simpl. by apply lookup_app_l_Some. Qed.

Lemma extends_lookup_new (s : State) objs calls (k : nat) :
  heap (extends s objs calls) !! (length (heap s) + k)%nat = objs !! k.
Proof. simpl. by rewrite lookup_app_r, Nat.add_comm, Nat.add_sub by lia. Qed.

Lemma fresh_ref_unused (s : State) (k : nat) :
  heap s !! (length (heap s) + k)%nat = None.
Proof. apply lookup_ge_None. lia. Qed.

(** ** The constructor and the level test *)

Lemma depth_admissible_public (b : Bip32.bip32) :
  Bip32.IsPublicOnly b = true ->
  depth_admissible b = true <-> 3 <= Bip32.Depth b <= 5.
Proof. unfold depth_admissible. intros ->. simpl. lia. Qed.

Lemma depth_admissible_private (b : Bip32.bip32) :
  Bip32.IsPublicOnly b = false ->
  depth_admissible b = true <-> 0 <= Bip32.Depth b <= 5.
Proof. unfold depth_admissible. intros ->. simpl. lia. Qed.

Lemma init_eq (b : Bip32.bip32) (c : BipCoinConf) (s : State) :
  __init__ b c s
  = if depth_admissible b
    then (Ok (length (heap s)), allocated s {| m_bip32 := b; m_coin_conf := c |})
    else (Raise Bip44DepthError, s).
Proof.
  unfold __init__, depth_admissible, bind, raise, ret, alloc. simpl.
  destruct (Bip32.IsPublicOnly b).
  - destruct (Z.ltb_spec (Bip32.Depth b) 3), (Z.gtb_spec (Bip32.Depth b) 5),
      (Z.leb_spec 3 (Bip32.Depth b)), (Z.leb_spec (Bip32.Depth b) 5);
      simpl; try reflexivity; lia.
  - destruct (Z.ltb_spec (Bip32.Depth b) 0), (Z.gtb_spec (Bip32.Depth b) 5),
      (Z.leb_spec 0 (Bip32.Depth b)), (Z.leb_spec (Bip32.Depth b) 5);
      simpl; try reflexivity; lia.
Qed.

Lemma deref_at (s : State) (self : ref) (o : Bip44Obj) :
  heap s !! self = Some o -> deref self s = (Ok o, s).
Proof. intros H. unfold deref. by rewrite H. Qed.

Lemma IsLevel_at (s : State) (self : ref) (o : Bip44Obj) (lv : Bip44Levels) :
  heap s !! self = Some o ->
  IsLevel self (PyLevel lv) s
  = (Ok (Bip32.Depth (m_bip32 o) =? Bip44Levels_int lv), s).
Proof. intros H. unfold IsLevel, bind. simpl. by rewrite (deref_at _ _ _ H). Qed.

(** ** The five single steps have one shape *)

Ltac step_shape H :=
  unfold step, bind, ChildKey; rewrite (IsLevel_at _ _ _ _ H);
  match goal with
  | |- context [Bip32.Depth ?b =? ?l] => destruct (Bip32.Depth b =? l)
  end; simpl; [ rewrite (deref_at _ _ _ H) | reflexivity ].

Lemma PurposeGeneric_step s self o purpose :
  heap s !! self = Some o ->
  _PurposeGeneric self purpose s = step s o MASTER purpose.
Proof.
  intros H. unfold _PurposeGeneric. step_shape H.
  by destruct (Bip32.ChildKey (m_bip32 o) purpose).
Qed.

Lemma CoinGeneric_step s self o :
  heap s !! self = Some o ->
  _CoinGeneric self s
  = step s o PURPOSE (Bip32.HardenIndex (CoinIndex (m_coin_conf o))).
Proof.
  intros H. unfold _CoinGeneric. step_shape H.
  by destruct (Bip32.ChildKey (m_bip32 o) _).
Qed.

Lemma AccountGeneric_step s self o acc_idx :
  heap s !! self = Some o ->
  _AccountGeneric self acc_idx s = step s o COIN (Bip32.HardenIndex acc_idx).
Proof.
  intros H. unfold _AccountGeneric. step_shape H.
  by destruct (Bip32.ChildKey (m_bip32 o) _).
Qed.

Lemma ChangeGeneric_step s self o ct :
  heap s !! self = Some o ->
  _ChangeGeneric self (PyChange ct) s = step s o ACCOUNT (change_index o ct).
Proof.
  intros H. unfold _ChangeGeneric, change_index. simpl. step_shape H.
  destruct (Bip32.IsPrivateUnhardenedDerivationSupported (m_bip32 o)); simpl;
    by destruct (Bip32.ChildKey (m_bip32 o) _).
Qed.

Lemma AddressIndexGeneric_step s self o addr_idx :
  heap s !! self = Some o ->
  _AddressIndexGeneric self addr_idx s
  = step s o CHANGE (address_index o addr_idx).
Proof.
  intros H. unfold _AddressIndexGeneric, address_index. step_shape H.
  destruct (Bip32.IsPrivateUnhardenedDerivationSupported (m_bip32 o)); simpl;
    by destruct (Bip32.ChildKey (m_bip32 o) _).
Qed.

Lemma ChangeGeneric_ill_typed s self v :
  as_Bip44Changes v = None ->
  _ChangeGeneric self v s = (Raise TypeError, s).
Proof. intros H. unfold _ChangeGeneric. by rewrite H. Qed.

Lemma run_op_step s self o op :
  heap s !! self = Some o -> single_step op = true -> well_typed op = true ->
  run_op op self s = step s o (required_level op) (op_index op o).
Proof.
  intros H Hs Hw. destruct op as [p| |a|v|a|p]; simpl in *; try discriminate.
  - by apply PurposeGeneric_step.
  - by apply CoinGeneric_step.
  - by apply AccountGeneric_step.
  - destruct v; try discriminate. by apply ChangeGeneric_step.
  - by apply AddressIndexGeneric_step.
Qed.

(** The three ways a single step can end. *)
Lemma step_cases (o : Bip44Obj) (lvl : Bip44Levels) (index : Z) :
  let call := {| call_parent := m_bip32 o; call_index := index |} in
  (Bip32.Depth (m_bip32 o) <> Bip44Levels_int lvl
   /\ forall s, step s o lvl index = (Raise Bip44DepthError, s))
  \/ (Bip32.Depth (m_bip32 o) = Bip44Levels_int lvl
      /\ exists e,
           (Bip32.ChildKey (m_bip32 o) index = Raise e
            \/ exists child, Bip32.ChildKey (m_bip32 o) index = Ok child
                 /\ depth_admissible child = false /\ e = Bip44DepthError)
           /\ forall s, step s o lvl index = (Raise e, extends s [] [call]))
  \/ (Bip32.Depth (m_bip32 o) = Bip44Levels_int lvl
      /\ exists child,
           Bip32.ChildKey (m_bip32 o) index = Ok child
           /\ depth_admissible child = true
           /\ forall s, step s o lvl index
                = (Ok (length (heap s)),
                   extends s [ {| m_bip32 := child; m_coin_conf := m_coin_conf o |} ]
                     [call])).
Proof.
  intros call. unfold step.
  destruct (Z.eqb_spec (Bip32.Depth (m_bip32 o)) (Bip44Levels_int lvl)) as [Hd|Hd].
  - right. destruct (Bip32.ChildKey (m_bip32 o) index) as [child|e] eqn:Hck.
    + destruct (depth_admissible child) eqn:Hadm.
      * right. split; [done|]. exists child. repeat split; try done.
        intros s. rewrite init_eq, Hadm, allocated_extends, logged_extends.
        rewrite extends_extends. simpl. by rewrite app_nil_r.
      * left. split; [done|]. exists Bip44DepthError. split.
        -- right. by exists child.
        -- intros s. by rewrite init_eq, Hadm, logged_extends.
    + left. split; [done|]. exists e. split; [by left|].
      intros s. by rewrite logged_extends.
  - left. split; [done|]. done.
Qed.

(** ** Path walks *)

Lemma DerivePath_eq (path : list Bip32.PathElem) (b : Bip32.bip32) (s : State) :
  DerivePath b path s
  = (fst (derive_seq b (map Bip32.PathElem_ToInt path)),
     extends s [] (snd (derive_seq b (map Bip32.PathElem_ToInt path)))).
Proof.
  revert b s. induction path as [|e path IH]; intros b s; simpl.
  - unfold ret. by rewrite extends_nil.
  - unfold bind, ChildKey.
    destruct (Bip32.ChildKey b (Bip32.PathElem_ToInt e)) as [child|err].
    + rewrite IH, logged_extends, extends_extends.
      by destruct (derive_seq child (map Bip32.PathElem_ToInt path)).
    + by rewrite logged_extends.
Qed.

Lemma derive_seq_calls_prefix (indices : list Z) (b : Bip32.bip32) :
  map call_index (snd (derive_seq b indices)) `prefix_of` indices.
Proof.
  revert b. induction indices as [|i indices IH]; intros b; simpl.
  - done.
  - destruct (Bip32.ChildKey b i) as [child|err]; simpl.
    + specialize (IH child). destruct (derive_seq child indices); simpl in *.
      by apply prefix_cons.
    + apply prefix_cons, prefix_nil.
Qed.

Lemma derive_seq_calls_ok (indices : list Z) (b derived : Bip32.bip32) :
  fst (derive_seq b indices) = Ok derived ->
  map call_index (snd (derive_seq b indices)) = indices.
Proof.
  revert b. induction indices as [|i indices IH]; intros b; simpl.
  - done.
  - destruct (Bip32.ChildKey b i) as [child|err]; simpl; [|done].
    specialize (IH child). destruct (derive_seq child indices); simpl in *.
    intros H. by rewrite IH.
Qed.

(** On failure the last recorded call is the one that failed, and every
    earlier one had succeeded: the error is that of the first failure. *)
Lemma derive_seq_first_failure (indices : list Z) (b : Bip32.bip32) (e : PyExc) :
  fst (derive_seq b indices) = Raise e ->
  exists calls last,
    snd (derive_seq b indices) = calls ++ [last]
    /\ Bip32.ChildKey (call_parent last) (call_index last) = Raise e
    /\ Forall (fun c => is_ok (Bip32.ChildKey (call_parent c) (call_index c)) = true)
         calls.
Proof.
  revert b. induction indices as [|i indices IH]; intros b; simpl.
  - done.
  - destruct (Bip32.ChildKey b i) as [child|err] eqn:Hck; simpl.
    + specialize (IH child). destruct (derive_seq child indices) as [r calls].
      simpl in *. intros Hr. destruct (IH Hr) as (calls' & last & -> & Hlast & Hall).
      exists ({| call_parent := b; call_index := i |} :: calls'), last.
      repeat split; try done. constructor; [|done]. simpl. by rewrite Hck.
    + intros [= ->]. exists [], {| call_parent := b; call_index := i |}.
      repeat split; try done.
Qed.

Lemma extends_lookup_first (s : State) o objs calls :
  heap (extends s (o :: objs) calls) !! length (heap s) = Some o.
Proof. simpl. by rewrite lookup_app_r, Nat.sub_diag by lia. Qed.

(** ** The default path *)

(** Whatever the engine does, [_DeriveDefaultPathGeneric] only adds
    instances and recorded calls, the same ones in every state, and the
    indices it passes on are an initial part of
    [purpose; coin'; default path]. *)
Lemma default_path_cases (o : Bip44Obj) (purpose : Z) :
  exists (res : Result nat) (objs : list Bip44Obj) (calls : list DeriveCall),
    (forall s self, heap s !! self = Some o ->
       _DeriveDefaultPathGeneric self purpose s
       = (at_offset s res, extends s objs calls))
    /\ map call_index calls `prefix_of` default_path_indices o purpose
    /\ (forall k, res = Ok k ->
          Bip32.Depth (m_bip32 o) = 0
          /\ map call_index calls = default_path_indices o purpose
          /\ exists derived,
               objs !! k = Some {| m_bip32 := derived; m_coin_conf := m_coin_conf o |}
               /\ depth_admissible derived = true)
    /\ (Bip32.Depth (m_bip32 o) <> 0 ->
        res = Raise Bip44DepthError /\ objs = [] /\ calls = []).
Proof.
  unfold default_path_indices.
  destruct (step_cases o MASTER purpose)
    as [[Hd H1]|[[Hd (e1 & _ & H1)]|[Hd (k1 & Hk1 & Ha1 & H1)]]].
  { exists (Raise Bip44DepthError), [], []. repeat split; try done.
    - intros s self H. unfold _DeriveDefaultPathGeneric, bind.
      rewrite (IsLevel_at _ _ _ _ H).
      destruct (Z.eqb_spec (Bip32.Depth (m_bip32 o)) (Bip44Levels_int MASTER));
        [done|]. simpl. by rewrite extends_nil.
    - apply prefix_nil. }
  { exists (Raise e1), [], [ {| call_parent := m_bip32 o; call_index := purpose |} ].
    repeat split; try done.
    - intros s self H. unfold _DeriveDefaultPathGeneric, bind.
      rewrite (IsLevel_at _ _ _ _ H), Hd. cbn [Z.eqb Bip44Levels_int negb].
      by rewrite (PurposeGeneric_step _ _ _ _ H), H1.
    - apply prefix_cons, prefix_nil. }
  set (o1 := {| m_bip32 := k1; m_coin_conf := m_coin_conf o |}) in *.
  set (c1 := {| call_parent := m_bip32 o; call_index := purpose |}) in *.
  set (i2 := Bip32.HardenIndex (CoinIndex (m_coin_conf o))).
  assert (Hpre : forall s self, heap s !! self = Some o ->
            _DeriveDefaultPathGeneric self purpose s
            = match _CoinGeneric (length (heap s)) (extends s [o1] [c1]) with
              | (Ok r, s') =>
                  match deref r s' with
                  | (Ok o2, s'') =>
                      match DerivePath (m_bip32 o2) (DefaultPath (m_coin_conf o2)) s'' with
                      | (Ok derived, s3) => __init__ derived (m_coin_conf o2) s3
                      | (Raise e, s3) => (Raise e, s3)
                      end
                  | (Raise e, s'') => (Raise e, s'')
                  end
              | (Raise e, s') => (Raise e, s')
              end).
  { intros s self H. unfold _DeriveDefaultPathGeneric, bind.
    rewrite (IsLevel_at _ _ _ _ H), Hd. cbn [Z.eqb Bip44Levels_int negb].
    by rewrite (PurposeGeneric_step _ _ _ _ H), H1. }
  assert (Hcoin : forall s, _CoinGeneric (length (heap s)) (extends s [o1] [c1])
                  = step (extends s [o1] [c1]) o1 PURPOSE i2).
  { intros s. apply CoinGeneric_step, extends_lookup_first. }
  destruct (step_cases o1 PURPOSE i2)
    as [[Hd2 H2]|[[Hd2 (e2 & _ & H2)]|[Hd2 (k2 & Hk2 & Ha2 & H2)]]].
  { exists (Raise Bip44DepthError), [o1], [c1]. repeat split; try done.
    - intros s self H. by rewrite (Hpre _ _ H), Hcoin, H2.
    - apply prefix_cons, prefix_nil. }
  { exists (Raise e2), [o1], [c1; {| call_parent := m_bip32 o1; call_index := i2 |}].
    repeat split; try done.
    - intros s self H. by rewrite (Hpre _ _ H), Hcoin, H2, extends_extends.
    - apply prefix_cons, prefix_cons, prefix_nil. }
  set (o2 := {| m_bip32 := k2; m_coin_conf := m_coin_conf o1 |}) in *.
  set (c2 := {| call_parent := m_bip32 o1; call_index := i2 |}) in *.
  pose proof (derive_seq_calls_prefix
                (map Bip32.PathElem_ToInt (DefaultPath (m_coin_conf o))) k2) as Hpfx.
  pose proof (derive_seq_calls_ok
                (map Bip32.PathElem_ToInt (DefaultPath (m_coin_conf o))) k2) as Hall.
  assert (Hrun : forall s self, heap s !! self = Some o ->
            _DeriveDefaultPathGeneric self purpose s
            = match fst (derive_seq k2 (map Bip32.PathElem_ToInt (DefaultPath (m_coin_conf o)))) with
              | Ok derived =>
                  __init__ derived (m_coin_conf o)
                    (extends s [o1; o2]
                       (c1 :: c2 :: snd (derive_seq k2 (map Bip32.PathElem_ToInt (DefaultPath (m_coin_conf o))))))
              | Raise e =>
                  (Raise e,
                   extends s [o1; o2]
                     (c1 :: c2 :: snd (derive_seq k2 (map Bip32.PathElem_ToInt (DefaultPath (m_coin_conf o))))))
              end).
  { intros s self H. rewrite (Hpre _ _ H), Hcoin, H2, extends_extends.
    cbn [app].
    assert (Hl : heap (extends s [o1; o2] [c1; c2]) !! length (heap (extends s [o1] [c1]))
                 = Some o2).
    { simpl. rewrite length_app. simpl.
      rewrite lookup_app_r by lia.
      by replace (length (heap s) + 1 - length (heap s))%nat with 1%nat by lia. }
    rewrite (deref_at _ _ _ Hl), DerivePath_eq, extends_extends. cbn [app m_bip32 m_coin_conf o2 o1].
    by destruct (fst (derive_seq k2 _)). }
  destruct (derive_seq k2 (map Bip32.PathElem_ToInt (DefaultPath (m_coin_conf o))))
    as [[k3|e3] calls3] eqn:Hseq; cbn [fst snd] in *.
  - destruct (depth_admissible k3) eqn:Ha3.
    + exists (Ok 2%nat),
        [o1; o2; {| m_bip32 := k3; m_coin_conf := m_coin_conf o |}],
        (c1 :: c2 :: calls3).
      split; [|split; [|split]].
      * intros s self H. rewrite (Hrun _ _ H), init_eq, Ha3, allocated_extends.
        rewrite extends_extends. cbn [app at_offset]. rewrite app_nil_r.
        f_equal. f_equal. simpl. rewrite length_app. simpl. lia.
      * simpl. by apply prefix_cons, prefix_cons.
      * intros k [= <-]. split; [done|]. split.
        -- simpl. by rewrite (Hall k3).
        -- by exists k3.
      * intros Hne. by rewrite Hd in Hne.
    + exists (Raise Bip44DepthError), [o1; o2], (c1 :: c2 :: calls3).
      split; [|split; [|split]].
      * intros s self H. by rewrite (Hrun _ _ H), init_eq, Ha3.
      * simpl. by apply prefix_cons, prefix_cons.
      * discriminate.
      * intros Hne. by rewrite Hd in Hne.
  - exists (Raise e3), [o1; o2], (c1 :: c2 :: calls3).
    split; [|split; [|split]].
    + intros s self H. by rewrite (Hrun _ _ H).
    + simpl. by apply prefix_cons, prefix_cons.
    + discriminate.
    + intros Hne. by rewrite Hd in Hne.
Qed.

(** ** Every operation only adds to the store *)

(** What an operation does to a state depends on the instance it is
    called on and on nothing else: the same outcome, the same new
    instances and the same recorded calls in every state. *)
Lemma run_op_frame (op : DeriveOp) (o : Bip44Obj) :
  exists (res : Result nat) (objs : list Bip44Obj) (calls : list DeriveCall),
    (forall s self, heap s !! self = Some o ->
       run_op op self s = (at_offset s res, extends s objs calls))
    /\ (forall k, res = Ok k ->
          Bip32.Depth (m_bip32 o) = Bip44Levels_int (required_level op)
          /\ exists o', objs !! k = Some o'
               /\ m_coin_conf o' = m_coin_conf o
               /\ depth_admissible (m_bip32 o') = true
               /\ (single_step op = true ->
                   Bip32.ChildKey (m_bip32 o) (op_index op o) = Ok (m_bip32 o'))).
Proof.
  destruct (single_step op) eqn:Hs.
  - destruct (well_typed op) eqn:Hw.
    + destruct (step_cases o (required_level op) (op_index op o))
        as [[Hd H1]|[[Hd (e1 & _ & H1)]|[Hd (child & Hck & Ha & H1)]]].
      * exists (Raise Bip44DepthError), [], []. split; [|discriminate].
        intros s self H. by rewrite (run_op_step _ _ _ _ H Hs Hw), H1, extends_nil.
      * exists (Raise e1), [],
          [ {| call_parent := m_bip32 o; call_index := op_index op o |} ].
        split; [|discriminate].
        intros s self H. by rewrite (run_op_step _ _ _ _ H Hs Hw), H1.
      * exists (Ok 0%nat),
          [ {| m_bip32 := child; m_coin_conf := m_coin_conf o |} ],
          [ {| call_parent := m_bip32 o; call_index := op_index op o |} ].
        split.
        -- intros s self H. rewrite (run_op_step _ _ _ _ H Hs Hw), H1.
           simpl. by rewrite Nat.add_0_r.
        -- intros k [= <-]. split; [done|]. eexists. by repeat split.
    + destruct op as [p| |a|v|a|p]; try discriminate.
      exists (Raise TypeError), [], []. split; [|discriminate].
      intros s self H. simpl. rewrite ChangeGeneric_ill_typed, extends_nil; [done|].
      by destruct v.
  - destruct op as [p| |a|v|a|p]; try discriminate.
    destruct (default_path_cases o p) as (res & objs & calls & Hrun & _ & Hok & _).
    exists res, objs, calls. split; [done|].
    intros k Hk. destruct (Hok k Hk) as (Hd & _ & derived & Hl & Ha).
    split; [done|]. eexists. split; [exact Hl|]. by repeat split.
Qed.

(** * Properties of bip44_base.py *)

(** C1. Construction checks the depth against the public-only status: a
    public-only Bip32 object is accepted exactly at depths ACCOUNT (3) to
    ADDRESS_INDEX (5), any other one exactly at depths 0 to 5; a rejected
    object raises [Bip44DepthError] and leaves the state as it was, so no
    derivation has been attempted; a public-only object at depth 2 is
    rejected, at depth 3 accepted. *)
Theorem C1_init_depth_validation (b : Bip32.bip32) (c : BipCoinConf) (s : State) :
  let accepted :=
    (Ok (length (heap s)), allocated s {| m_bip32 := b; m_coin_conf := c |}) in
  let rejected := (Raise Bip44DepthError, s) in
  (Bip32.IsPublicOnly b = true ->
     (Bip44Levels_int ACCOUNT <= Bip32.Depth b <= Bip44Levels_int ADDRESS_INDEX ->
        __init__ b c s = accepted)
     /\ (~ (Bip44Levels_int ACCOUNT <= Bip32.Depth b <= Bip44Levels_int ADDRESS_INDEX) ->
        __init__ b c s = rejected)
     /\ (Bip32.Depth b = 2 -> __init__ b c s = rejected)
     /\ (Bip32.Depth b = 3 -> __init__ b c s = accepted))
  /\ (Bip32.IsPublicOnly b = false ->
     (0 <= Bip32.Depth b <= Bip44Levels_int ADDRESS_INDEX ->
        __init__ b c s = accepted)
     /\ (~ (0 <= Bip32.Depth b <= Bip44Levels_int ADDRESS_INDEX) ->
        __init__ b c s = rejected))
  /\ trace (snd (__init__ b c s)) = trace s.
Proof.
  intros accepted rejected. subst accepted rejected. rewrite !init_eq.
  split; [|split].
  - intros Hp. pose proof (depth_admissible_public b Hp) as Ha. simpl.
    destruct (depth_admissible b); repeat split; intros; try done;
      try (exfalso; lia); exfalso; assert (true = true) by done; lia.
  - intros Hp. pose proof (depth_admissible_private b Hp) as Ha. simpl.
    destruct (depth_admissible b); repeat split; intros; try done;
      try (exfalso; lia); exfalso; assert (true = true) by done; lia.
  - by destruct (depth_admissible b).
Qed.

Lemma step_guard (s : State) (o : Bip44Obj) (lvl : Bip44Levels) (index : Z) :
  (Bip32.Depth (m_bip32 o) <> Bip44Levels_int lvl ->
     step s o lvl index = (Raise Bip44DepthError, s))
  /\ (is_ok (fst (step s o lvl index)) = true ->
     Bip32.Depth (m_bip32 o) = Bip44Levels_int lvl).
Proof.
  unfold step.
  destruct (Z.eqb_spec (Bip32.Depth (m_bip32 o)) (Bip44Levels_int lvl)); by split.
Qed.

(** C2. Each single step is guarded by an exact depth: at any other depth
    than MASTER for Purpose, PURPOSE for Coin, COIN for Account, ACCOUNT
    for Change and CHANGE for AddressIndex the call raises
    [Bip44DepthError] and changes nothing; a call that succeeds was made
    at that depth. *)
Theorem C2_exact_depth_guards (s : State) (self : ref) (o : Bip44Obj) :
  heap s !! self = Some o ->
  let depth := Bip32.Depth (m_bip32 o) in
  let refused := (Raise Bip44DepthError, s) in
  (forall purpose,
     (depth <> Bip44Levels_int MASTER -> _PurposeGeneric self purpose s = refused)
     /\ (is_ok (fst (_PurposeGeneric self purpose s)) = true ->
         depth = Bip44Levels_int MASTER))
  /\ ((depth <> Bip44Levels_int PURPOSE -> _CoinGeneric self s = refused)
      /\ (is_ok (fst (_CoinGeneric self s)) = true ->
          depth = Bip44Levels_int PURPOSE))
  /\ (forall acc_idx,
       (depth <> Bip44Levels_int COIN -> _AccountGeneric self acc_idx s = refused)
       /\ (is_ok (fst (_AccountGeneric self acc_idx s)) = true ->
           depth = Bip44Levels_int COIN))
  /\ (forall change_type : Bip44Changes,
       (depth <> Bip44Levels_int ACCOUNT ->
          _ChangeGeneric self (PyChange change_type) s = refused)
       /\ (is_ok (fst (_ChangeGeneric self (PyChange change_type) s)) = true ->
           depth = Bip44Levels_int ACCOUNT))
  /\ (forall addr_idx,
       (depth <> Bip44Levels_int CHANGE ->
          _AddressIndexGeneric self addr_idx s = refused)
       /\ (is_ok (fst (_AddressIndexGeneric self addr_idx s)) = true ->
           depth = Bip44Levels_int CHANGE)).
Proof.
  intros H depth refused. subst depth refused.
  repeat match goal with
  | |- _ /\ _ => split
  | |- forall _, _ => intro
  end;
  try match goal with
  | Hok : is_ok _ = true |- _ => revert Hok
  end.
  - rewrite (PurposeGeneric_step _ _ _ _ H). by apply step_guard.
  - rewrite (PurposeGeneric_step _ _ _ _ H). apply step_guard.
  - rewrite (CoinGeneric_step _ _ _ H). by apply step_guard.
  - rewrite (CoinGeneric_step _ _ _ H). apply step_guard.
  - rewrite (AccountGeneric_step _ _ _ _ H). by apply step_guard.
  - rewrite (AccountGeneric_step _ _ _ _ H). apply step_guard.
  - rewrite (ChangeGeneric_step _ _ _ _ H). by apply step_guard.
  - rewrite (ChangeGeneric_step _ _ _ _ H). apply step_guard.
  - rewrite (AddressIndexGeneric_step _ _ _ _ H). by apply step_guard.
  - rewrite (AddressIndexGeneric_step _ _ _ _ H). apply step_guard.
Qed.

(** C7. A wrong enumerative fails first: [IsLevel] on anything but a
    [Bip44Levels] member and [_ChangeGeneric] on anything but a
    [Bip44Changes] member raise [TypeError] at any depth, before the level
    is looked at, and leave the state as it was: no call to the engine, no
    new instance. *)
Theorem C7_type_error_first (s : State) (self : ref) :
  (forall level, (forall l, level <> PyLevel l) ->
     IsLevel self level s = (Raise TypeError, s))
  /\ (forall change_type, (forall c, change_type <> PyChange c) ->
     _ChangeGeneric self change_type s = (Raise TypeError, s)).
Proof.
  split.
  - intros level Hl. unfold IsLevel.
    destruct level; try reflexivity. by destruct (Hl l).
  - intros v Hv. apply ChangeGeneric_ill_typed.
    destruct v; try reflexivity. by destruct (Hv c).
Qed.

(** ** Hardened indices *)

Lemma IsHardenedIndex_HardenIndex (index : Z) :
  Bip32.IsHardenedIndex (Bip32.HardenIndex index) = true.
Proof.
  unfold Bip32.IsHardenedIndex, Bip32.HardenIndex.
  rewrite Z.lor_spec. replace (Z.testbit (Z.shiftl 1 31) 31) with true by reflexivity.
  apply orb_true_r.
Qed.

Lemma IsHardenedIndex_small (index : Z) :
  0 <= index < 2 ^ 31 -> Bip32.IsHardenedIndex index = false.
Proof.
  intros H. unfold Bip32.IsHardenedIndex.
  destruct (Z.eq_dec index 0) as [->|Hne]; [reflexivity|].
  apply Z.bits_above_log2; [lia|]. apply Z.log2_lt_pow2; lia.
Qed.

Lemma IsHardenedIndex_PathElem (e : Bip32.PathElem) :
  0 <= Bip32.elem_index e < 2 ^ 31 ->
  Bip32.IsHardenedIndex (Bip32.PathElem_ToInt e) = Bip32.elem_hardened e.
Proof.
  intros H. unfold Bip32.PathElem_ToInt. destruct (Bip32.elem_hardened e).
  - apply IsHardenedIndex_HardenIndex.
  - by apply IsHardenedIndex_small.
Qed.

Lemma new_calls_extends (s : State) objs calls :
  new_calls s (extends s objs calls) = calls.
Proof. unfold new_calls. simpl. apply drop_app_length. Qed.

(** C3, as the code has it. At ACCOUNT level [_ChangeGeneric] makes one
    call to the engine, with an index that is hardened exactly when the
    Bip32 object does not support unhardened private derivation.
    [_DeriveDefaultPathGeneric] does not look at that capability: the
    indices it passes on are, in order, the purpose, the hardened coin
    index and the elements of the default path of the coin configuration,
    so that its change step, the fourth call, is hardened exactly when
    the second element of that path is. *)
Theorem C3_change_index_resolution (s : State) (self : ref) (o : Bip44Obj) :
  heap s !! self = Some o ->
  (forall change_type : Bip44Changes,
     Bip32.Depth (m_bip32 o) = Bip44Levels_int ACCOUNT ->
     new_calls s (snd (_ChangeGeneric self (PyChange change_type) s))
     = [ {| call_parent := m_bip32 o; call_index := change_index o change_type |} ]
     /\ Bip32.IsHardenedIndex (change_index o change_type)
        = negb (Bip32.IsPrivateUnhardenedDerivationSupported (m_bip32 o)))
  /\ (forall purpose,
       let run := _DeriveDefaultPathGeneric self purpose s in
       let calls := new_calls s (snd run) in
       map call_index calls `prefix_of` default_path_indices o purpose
       /\ (is_ok (fst run) = true ->
           map call_index calls = default_path_indices o purpose)
       /\ (forall call, calls !! 3%nat = Some call ->
           exists e, DefaultPath (m_coin_conf o) !! 1%nat = Some e
             /\ call_index call = Bip32.PathElem_ToInt e
             /\ (0 <= Bip32.elem_index e < 2 ^ 31 ->
                 Bip32.IsHardenedIndex (call_index call) = Bip32.elem_hardened e))).
Proof.
  intros H. split.
  - intros ct Hd. split.
    + rewrite (ChangeGeneric_step _ _ _ _ H).
      destruct (step_cases o ACCOUNT (change_index o ct))
        as [[Hd' _]|[[_ (e1 & _ & H1)]|[_ (child & _ & _ & H1)]]];
        [done| |]; rewrite H1; cbn [snd]; apply new_calls_extends.
    + unfold change_index.
      destruct (Bip32.IsPrivateUnhardenedDerivationSupported (m_bip32 o)); simpl.
      * by destruct ct.
      * apply IsHardenedIndex_HardenIndex.
  - intros purpose run calls. subst run calls.
    destruct (default_path_cases o purpose) as (res & objs & calls & Hrun & Hpfx & Hok & _).
    rewrite (Hrun _ _ H). cbn [fst snd]. rewrite new_calls_extends.
    split; [done|]. split.
    + destruct res as [k|e]; [|done]. intros _. by destruct (Hok k eq_refl) as (_ & ? & _).
    + intros call Hcall.
      assert (Hidx : map call_index calls !! 3%nat = Some (call_index call))
        by by rewrite list_lookup_fmap, Hcall.
      pose proof (prefix_lookup_Some _ _ _ _ Hidx Hpfx) as Hl.
      unfold default_path_indices in Hl. cbn [lookup list_lookup] in Hl.
      apply (list_lookup_fmap_Some_1 Bip32.PathElem_ToInt) in Hl.
      destruct Hl as (e & Hl & He).
      exists e. split; [done|]. split; [done|].
      intros Hr. rewrite Hl. by apply IsHardenedIndex_PathElem.
Qed.

(** ** With an engine that keeps its promises *)

Section Laws.

Hypothesis laws : Bip32Laws.

Lemma derive_seq_laws (indices : list Z) (b derived : Bip32.bip32) :
  fst (derive_seq b indices) = Ok derived ->
  Bip32.Depth derived = Bip32.Depth b + Z.of_nat (length indices)
  /\ Bip32.IsPublicOnly derived = Bip32.IsPublicOnly b.
Proof.
  revert b. induction indices as [|i indices IH]; intros b; simpl.
  - intros [= ->]. split; [lia|done].
  - destruct (Bip32.ChildKey b i) as [child|err] eqn:Hck; simpl; [|done].
    specialize (IH child). destruct (derive_seq child indices); simpl in *.
    intros Hr. destruct (IH Hr) as [Hd Hp].
    rewrite Hd, Hp, (ChildKey_depth laws _ _ _ Hck), (ChildKey_public_only laws _ _ _ Hck).
    split; [lia|done].
Qed.

Lemma child_admissible (b child : Bip32.bip32) (index : Z) :
  Bip32.ChildKey b index = Ok child ->
  depth_admissible b = true ->
  Bip32.Depth b < Bip44Levels_int ADDRESS_INDEX ->
  depth_admissible child = true.
Proof.
  intros Hck Ha Hlt. unfold depth_admissible in *.
  rewrite (ChildKey_depth laws _ _ _ Hck), (ChildKey_public_only laws _ _ _ Hck).
  simpl in *. destruct (Bip32.IsPublicOnly b); lia.
Qed.

(** Below ADDRESS_INDEX a step from the right level fails only when the
    engine does. *)
Lemma step_laws (s : State) (o : Bip44Obj) (lvl : Bip44Levels) (index : Z) :
  Bip32.Depth (m_bip32 o) = Bip44Levels_int lvl ->
  depth_admissible (m_bip32 o) = true ->
  lvl <> ADDRESS_INDEX ->
  step s o lvl index
  = match Bip32.ChildKey (m_bip32 o) index with
    | Ok child =>
        (Ok (length (heap s)),
         extends s [ {| m_bip32 := child; m_coin_conf := m_coin_conf o |} ]
           [ {| call_parent := m_bip32 o; call_index := index |} ])
    | Raise e =>
        (Raise e, extends s [] [ {| call_parent := m_bip32 o; call_index := index |} ])
    end.
Proof.
  intros Hd Ha Hl.
  assert (Hlt : Bip32.Depth (m_bip32 o) < Bip44Levels_int ADDRESS_INDEX)
    by (rewrite Hd; destruct lvl; simpl; done || lia).
  destruct (step_cases o lvl index)
    as [[Hd' _]|[[_ (e1 & [Hck|(child & Hck & Hna & _)] & H1)]|[_ (child & Hck & _ & H1)]]].
  - done.
  - by rewrite H1, Hck.
  - by rewrite (child_admissible _ _ _ Hck Ha Hlt) in Hna.
  - by rewrite H1, Hck.
Qed.

(** The default path of an instance at MASTER level, seen as one walk
    over [purpose; coin'; default path]. *)
Lemma default_path_laws (s : State) (self : ref) (o : Bip44Obj) (purpose : Z) :
  heap s !! self = Some o ->
  Bip32.Depth (m_bip32 o) = Bip44Levels_int MASTER ->
  depth_admissible (m_bip32 o) = true ->
  length (DefaultPath (m_coin_conf o)) = 3%nat ->
  let walk := derive_seq (m_bip32 o) (default_path_indices o purpose) in
  exists objs,
    _DeriveDefaultPathGeneric self purpose s
    = (match fst walk with
       | Ok _ => Ok (length (heap s) + 2)%nat
       | Raise e => Raise e
       end,
       extends s objs (snd walk))
    /\ forall derived, fst walk = Ok derived ->
         objs !! 2%nat = Some {| m_bip32 := derived; m_coin_conf := m_coin_conf o |}
         /\ Bip32.Depth derived = Bip44Levels_int ADDRESS_INDEX.
Proof.
  intros H Hd Ha Hlen walk. subst walk.
  unfold _DeriveDefaultPathGeneric, bind, default_path_indices.
  rewrite (IsLevel_at _ _ _ _ H), Hd. cbn [Z.eqb Bip44Levels_int negb].
  rewrite (PurposeGeneric_step _ _ _ _ H), (step_laws _ _ _ _ Hd Ha) by done.
  cbn [derive_seq].
  destruct (Bip32.ChildKey (m_bip32 o) purpose) as [k1|e1] eqn:Hk1;
    [|exists []; by split].
  set (o1 := {| m_bip32 := k1; m_coin_conf := m_coin_conf o |}).
  set (c1 := {| call_parent := m_bip32 o; call_index := purpose |}).
  assert (Hd1 : Bip32.Depth (m_bip32 o1) = Bip44Levels_int PURPOSE)
    by (simpl; rewrite (ChildKey_depth laws _ _ _ Hk1), Hd; done).
  assert (Ha1 : depth_admissible (m_bip32 o1) = true)
    by (apply (child_admissible _ _ _ Hk1 Ha); rewrite Hd; simpl; lia).
  rewrite (CoinGeneric_step _ _ o1) by apply extends_lookup_first.
  rewrite (step_laws _ _ _ _ Hd1 Ha1) by done. cbn [m_bip32 m_coin_conf o1].
  set (i2 := Bip32.HardenIndex (CoinIndex (m_coin_conf o))).
  destruct (Bip32.ChildKey k1 i2) as [k2|e2] eqn:Hk2.
  2:{ exists [o1]. rewrite extends_extends. by split. }
  set (o2 := {| m_bip32 := k2; m_coin_conf := m_coin_conf o |}).
  set (c2 := {| call_parent := k1; call_index := i2 |}).
  assert (Hd2 : Bip32.Depth k2 = 2)
    by (rewrite (ChildKey_depth laws _ _ _ Hk2); simpl in Hd1; rewrite Hd1; done).
  assert (Hp2 : Bip32.IsPublicOnly k2 = Bip32.IsPublicOnly (m_bip32 o))
    by (rewrite (ChildKey_public_only laws _ _ _ Hk2);
        apply (ChildKey_public_only laws _ _ _ Hk1)).
  rewrite extends_extends. cbn [app].
  assert (Hl : heap (extends s [o1; o2] [c1; c2]) !! length (heap (extends s [o1] [c1]))
               = Some o2).
  { simpl. rewrite length_app. simpl. rewrite lookup_app_r by lia.
    by replace (length (heap s) + 1 - length (heap s))%nat with 1%nat by lia. }
  rewrite (deref_at _ _ _ Hl), DerivePath_eq, extends_extends.
  cbn [app m_bip32 m_coin_conf o2].
  pose proof (derive_seq_laws (map Bip32.PathElem_ToInt (DefaultPath (m_coin_conf o))) k2)
    as Hseq.
  destruct (derive_seq k2 (map Bip32.PathElem_ToInt (DefaultPath (m_coin_conf o))))
    as [[k3|e3] calls3]; cbn [fst snd] in *.
  - destruct (Hseq k3 eq_refl) as [Hd3 Hp3].
    rewrite length_map, Hlen, Hd2 in Hd3.
    assert (Ha3 : depth_admissible k3 = true).
    { unfold depth_admissible in *. rewrite Hp3, Hp2, Hd3. rewrite Hd in Ha.
      simpl in *. by destruct (Bip32.IsPublicOnly (m_bip32 o)). }
    rewrite init_eq, Ha3, allocated_extends, extends_extends. cbn [app].
    rewrite app_nil_r.
    exists [o1; o2; {| m_bip32 := k3; m_coin_conf := m_coin_conf o |}]. split.
    + f_equal. f_equal. simpl. rewrite length_app. simpl. lia.
    + intros derived [= <-]. split; [done|]. rewrite Hd3. done.
  - exists [o1; o2]. by split.
Qed.

(** The same for a default path of any length: the key at the end of the
    walk is as many levels below COIN as the default path has elements,
    and the constructor, called on it, has the last word. *)
Lemma default_path_laws_any (s : State) (self : ref) (o : Bip44Obj) (purpose : Z) :
  heap s !! self = Some o ->
  Bip32.Depth (m_bip32 o) = Bip44Levels_int MASTER ->
  depth_admissible (m_bip32 o) = true ->
  let walk := derive_seq (m_bip32 o) (default_path_indices o purpose) in
  exists objs,
    _DeriveDefaultPathGeneric self purpose s
    = (match fst walk with
       | Ok _ =>
           if (length (DefaultPath (m_coin_conf o)) <=? 3)%nat
           then Ok (length (heap s) + 2)%nat
           else Raise Bip44DepthError
       | Raise e => Raise e
       end,
       extends s objs (snd walk))
    /\ forall derived, fst walk = Ok derived ->
         Bip32.Depth derived
         = Bip44Levels_int COIN + Z.of_nat (length (DefaultPath (m_coin_conf o)))
         /\ ((length (DefaultPath (m_coin_conf o)) <= 3)%nat ->
             objs !! 2%nat
             = Some {| m_bip32 := derived; m_coin_conf := m_coin_conf o |}).
Proof.
  intros H Hd Ha walk. subst walk.
  unfold _DeriveDefaultPathGeneric, bind, default_path_indices.
  rewrite (IsLevel_at _ _ _ _ H), Hd. cbn [Z.eqb Bip44Levels_int negb].
  rewrite (PurposeGeneric_step _ _ _ _ H), (step_laws _ _ _ _ Hd Ha) by done.
  cbn [derive_seq].
  destruct (Bip32.ChildKey (m_bip32 o) purpose) as [k1|e1] eqn:Hk1;
    [|exists []; by split].
  set (o1 := {| m_bip32 := k1; m_coin_conf := m_coin_conf o |}).
  set (c1 := {| call_parent := m_bip32 o; call_index := purpose |}).
  assert (Hd1 : Bip32.Depth (m_bip32 o1) = Bip44Levels_int PURPOSE)
    by (simpl; rewrite (ChildKey_depth laws _ _ _ Hk1), Hd; done).
  assert (Ha1 : depth_admissible (m_bip32 o1) = true)
    by (apply (child_admissible _ _ _ Hk1 Ha); rewrite Hd; simpl; lia).
  rewrite (CoinGeneric_step _ _ o1) by apply extends_lookup_first.
  rewrite (step_laws _ _ _ _ Hd1 Ha1) by done. cbn [m_bip32 m_coin_conf o1].
  set (i2 := Bip32.HardenIndex (CoinIndex (m_coin_conf o))).
  destruct (Bip32.ChildKey k1 i2) as [k2|e2] eqn:Hk2.
  2:{ exists [o1]. rewrite extends_extends. by split. }
  set (o2 := {| m_bip32 := k2; m_coin_conf := m_coin_conf o |}).
  set (c2 := {| call_parent := k1; call_index := i2 |}).
  assert (Hd2 : Bip32.Depth k2 = 2)
    by (rewrite (ChildKey_depth laws _ _ _ Hk2); simpl in Hd1; rewrite Hd1; done).
  assert (Hp2 : Bip32.IsPublicOnly k2 = Bip32.IsPublicOnly (m_bip32 o))
    by (rewrite (ChildKey_public_only laws _ _ _ Hk2);
        apply (ChildKey_public_only laws _ _ _ Hk1)).
  assert (Hpriv : Bip32.IsPublicOnly (m_bip32 o) = false).
  { unfold depth_admissible in Ha. rewrite Hd in Ha. simpl in Ha.
    by destruct (Bip32.IsPublicOnly (m_bip32 o)). }
  rewrite extends_extends. cbn [app].
  assert (Hl : heap (extends s [o1; o2] [c1; c2]) !! length (heap (extends s [o1] [c1]))
               = Some o2).
  { simpl. rewrite length_app. simpl. rewrite lookup_app_r by lia.
    by replace (length (heap s) + 1 - length (heap s))%nat with 1%nat by lia. }
  rewrite (deref_at _ _ _ Hl), DerivePath_eq, extends_extends.
  cbn [app m_bip32 m_coin_conf o2].
  pose proof (derive_seq_laws (map Bip32.PathElem_ToInt (DefaultPath (m_coin_conf o))) k2)
    as Hseq.
  destruct (derive_seq k2 (map Bip32.PathElem_ToInt (DefaultPath (m_coin_conf o))))
    as [[k3|e3] calls3]; cbn [fst snd] in *.
  - destruct (Hseq k3 eq_refl) as [Hd3 Hp3].
    rewrite length_map, Hd2 in Hd3.
    assert (Ha3 : depth_admissible k3
                  = (length (DefaultPath (m_coin_conf o)) <=? 3)%nat).
    { unfold depth_admissible. rewrite Hp3, Hp2, Hpriv, Hd3. simpl.
      destruct (Nat.leb_spec (length (DefaultPath (m_coin_conf o))) 3);
        [apply andb_true_intro; split; apply Z.leb_le; lia|].
      apply andb_false_intro2, Z.leb_gt. lia. }
    rewrite init_eq, Ha3.
    destruct (Nat.leb_spec (length (DefaultPath (m_coin_conf o))) 3) as [Hle|Hgt].
    + rewrite allocated_extends, extends_extends. cbn [app]. rewrite app_nil_r.
      exists [o1; o2; {| m_bip32 := k3; m_coin_conf := m_coin_conf o |}]. split.
      * f_equal. f_equal. simpl. rewrite length_app. simpl. lia.
      * intros derived [= <-]. split; [by rewrite Hd3|done].
    + exists [o1; o2]. split; [done|].
      intros derived [= <-]. split; [by rewrite Hd3|lia].
  - exists [o1; o2]. by split.
Qed.

(** C4. [_DeriveDefaultPathGeneric] is refused with [Bip44DepthError],
    leaving the state as it was, unless the instance is at MASTER level.
    From MASTER level it is the walk over purpose, hardened coin index
    and default path, left to right: the calls made to the engine are
    those of the walk up to and including the first that fails; when one
    fails its error is the outcome and no reference is returned. When
    none fails, the last key of the walk is as many levels below COIN as
    the default path has elements, which is ADDRESS_INDEX level exactly
    for a default path of three elements: with at most three elements
    the outcome is a new instance that holds that key, at the level of
    that key; with more than three the constructor refuses the key, the
    outcome is [Bip44DepthError] and no reference is returned. The
    instance it was called on is unchanged. *)
Theorem C4_default_path (s : State) (self : ref) (o : Bip44Obj) (purpose : Z) :
  heap s !! self = Some o ->
  depth_admissible (m_bip32 o) = true ->
  let run := _DeriveDefaultPathGeneric self purpose s in
  let walk := derive_seq (m_bip32 o) (default_path_indices o purpose) in
  let path_len := length (DefaultPath (m_coin_conf o)) in
  (Bip32.Depth (m_bip32 o) <> Bip44Levels_int MASTER ->
     run = (Raise Bip44DepthError, s))
  /\ (is_ok (fst run) = true -> Bip32.Depth (m_bip32 o) = Bip44Levels_int MASTER)
  /\ (Bip32.Depth (m_bip32 o) = Bip44Levels_int MASTER ->
      trace (snd run) = trace s ++ snd walk
      /\ heap (snd run) !! self = Some o
      /\ match fst walk with
         | Raise e => fst run = Raise e
         | Ok derived =>
             Bip32.Depth derived = Bip44Levels_int COIN + Z.of_nat path_len
             /\ (Bip32.Depth derived = Bip44Levels_int ADDRESS_INDEX
                 <-> path_len = 3%nat)
             /\ if (path_len <=? 3)%nat
                then exists r, fst run = Ok r
                       /\ heap s !! r = None
                       /\ heap (snd run) !! r
                          = Some {| m_bip32 := derived;
                                    m_coin_conf := m_coin_conf o |}
                else fst run = Raise Bip44DepthError
         end).
Proof.
  intros H Ha run walk path_len.
  assert (Hne : Bip32.Depth (m_bip32 o) <> Bip44Levels_int MASTER ->
                run = (Raise Bip44DepthError, s)).
  { intros Hd. subst run. unfold _DeriveDefaultPathGeneric, bind.
    rewrite (IsLevel_at _ _ _ _ H).
    by destruct (Z.eqb_spec (Bip32.Depth (m_bip32 o)) (Bip44Levels_int MASTER)). }
  split; [done|]. split.
  - intros Hok.
    destruct (Z.eq_dec (Bip32.Depth (m_bip32 o)) (Bip44Levels_int MASTER)); [done|].
    by rewrite Hne in Hok.
  - intros Hd.
    destruct (default_path_laws_any s self o purpose H Hd Ha) as (objs & Hrun & Hobj).
    fold walk path_len in Hrun, Hobj. subst run. rewrite Hrun. cbn [fst snd].
    split; [done|]. split; [by apply extends_lookup_old|].
    destruct (fst walk) as [derived|e]; [|done].
    destruct (Hobj derived eq_refl) as [Hdepth Hl].
    split; [done|]. split; [rewrite Hdepth; simpl; lia|].
    destruct (Nat.leb_spec path_len 3) as [Hle|Hgt]; [|done].
    exists (length (heap s) + 2)%nat.
    split; [done|]. split; [apply fresh_ref_unused|].
    rewrite extends_lookup_new. by apply Hl.
Qed.

End Laws.

(** ** The memo tables *)

Lemma cache_lookup_remove_ne {V} (r r' : ref) (c : list (ref * V)) :
  r <> r' -> cache_lookup r (cache_remove r' c) = cache_lookup r c.
Proof.
  intros Hne. induction c as [|[r0 v] c IH]; simpl; [done|].
  destruct (Nat.eqb_spec r' r0) as [->|Hr'].
  - destruct (Nat.eqb_spec r r0); [done|done].
  - simpl. by rewrite IH.
Qed.

Lemma cache_lookup_firstn {V} (r : ref) (n : nat) (c : list (ref * V)) (v : V) :
  cache_lookup r (firstn n c) = Some v -> cache_lookup r c = Some v.
Proof.
  revert n. induction c as [|[r0 v0] c IH]; intros [|n]; simpl; try done.
  destruct (Nat.eqb r r0); [done|]. apply IH.
Qed.

Lemma cache_consistent_extends (s : State) objs calls :
  cache_consistent s -> cache_consistent (extends s objs calls).
Proof.
  intros [Hpub Hpriv]. split; intros r v Hl; simpl in Hl.
  - destruct (Hpub r v Hl) as (o & Ho & ->). exists o. split; [|done].
    by apply extends_lookup_old.
  - destruct (Hpriv r v Hl) as (o & Ho & Hk). exists o. split; [|done].
    by apply extends_lookup_old.
Qed.

(** The memoized method returns what the method computes, whether the
    entry was there or not, and keeps the tables right. *)
Lemma PublicKey_memo (s : State) (self : ref) (o : Bip44Obj) :
  heap s !! self = Some o -> cache_consistent s ->
  fst (PublicKey self s) = Ok (public_key_of o)
  /\ heap (snd (PublicKey self s)) = heap s
  /\ trace (snd (PublicKey self s)) = trace s
  /\ cache_consistent (snd (PublicKey self s)).
Proof.
  intros H [Hpub Hpriv]. unfold PublicKey, lru_cache.
  destruct (cache_lookup self (pub_cache s)) as [v|] eqn:Hc.
  - destruct (Hpub self v Hc) as (o' & Ho' & ->).
    assert (o' = o) as -> by congruence.
    repeat split; try done.
    + intros r v Hl. simpl in Hl. destruct (Nat.eqb_spec r self) as [->|Hne].
      * injection Hl as <-. by exists o.
      * rewrite cache_lookup_remove_ne in Hl by done. by apply Hpub.
  - unfold bind. rewrite (deref_at _ _ _ H). unfold ret. cbn [fst snd].
    repeat split; try done.
    intros r v Hl. apply cache_lookup_firstn in Hl. simpl in Hl.
    destruct (Nat.eqb_spec r self) as [->|Hne].
    + injection Hl as <-. by exists o.
    + by apply Hpub.
Qed.

Lemma PrivateKey_memo (s : State) (self : ref) (o : Bip44Obj) :
  heap s !! self = Some o -> cache_consistent s ->
  fst (PrivateKey self s) = private_key_of o
  /\ heap (snd (PrivateKey self s)) = heap s
  /\ trace (snd (PrivateKey self s)) = trace s
  /\ cache_consistent (snd (PrivateKey self s)).
Proof.
  intros H [Hpub Hpriv]. unfold PrivateKey, lru_cache.
  destruct (cache_lookup self (priv_cache s)) as [v|] eqn:Hc.
  - destruct (Hpriv self v Hc) as (o' & Ho' & Hv).
    assert (o' = o) as -> by congruence.
    repeat split; try done.
    intros r v' Hl. simpl in Hl. destruct (Nat.eqb_spec r self) as [->|Hne].
    + injection Hl as <-. by exists o.
    + rewrite cache_lookup_remove_ne in Hl by done. by apply Hpriv.
  - unfold bind. rewrite (deref_at _ _ _ H). unfold private_key_of in *.
    destruct (Bip32.PrivateKey (m_bip32 o)) as [k|e] eqn:Hk;
      unfold ret, raise; cbn [fst snd].
    + repeat split; try done.
      intros r v Hl. apply cache_lookup_firstn in Hl. simpl in Hl.
      destruct (Nat.eqb_spec r self) as [->|Hne].
      * injection Hl as <-. exists o. unfold private_key_of. by rewrite Hk.
      * by apply Hpriv.
    + by repeat split.
Qed.

(** An operation reads the store only: two states with the same
    instances give the same outcome and the same instances. *)
Lemma run_op_same_heap (op : DeriveOp) (s1 s2 : State) (self : ref) (o : Bip44Obj) :
  heap s1 !! self = Some o -> heap s2 = heap s1 ->
  fst (run_op op self s2) = fst (run_op op self s1)
  /\ heap (snd (run_op op self s2)) = heap (snd (run_op op self s1)).
Proof.
  intros H1 Heq. assert (H2 : heap s2 !! self = Some o) by by rewrite Heq.
  destruct (run_op_frame op o) as (res & objs & calls & Hframe & _).
  rewrite (Hframe _ _ H1), (Hframe _ _ H2). simpl. rewrite Heq. split; [|done].
  unfold at_offset. by rewrite Heq.
Qed.

(** C6. A derivation is a function of the instance it is called on and of
    its argument. Called on instances with the same content, in any two
    states, an operation raises the same exception twice or returns two
    instances with the same content (the same child key, whatever it holds;
    the same coin configuration); called twice in a row on one instance
    it returns two distinct instances with the same content. The call
    changes no instance that was there, the instance it returns is a new
    one, and it leaves both memo tables as they were. [PublicKey] and
    [PrivateKey] return what they compute whether memoized or not, change
    no instance, and a derivation made after them has the outcome it has
    without them. *)
Theorem C6_deterministic_pure (op : DeriveOp) (o : Bip44Obj) :
  (forall s1 s2 self1 self2,
     heap s1 !! self1 = Some o -> heap s2 !! self2 = Some o ->
     match fst (run_op op self1 s1), fst (run_op op self2 s2) with
     | Ok r1, Ok r2 =>
         exists child, heap (snd (run_op op self1 s1)) !! r1 = Some child
           /\ heap (snd (run_op op self2 s2)) !! r2 = Some child
     | Raise e1, Raise e2 => e1 = e2
     | _, _ => False
     end)
  /\ (forall s self, heap s !! self = Some o ->
      let first := run_op op self s in
      let second := run_op op self (snd first) in
      match fst first, fst second with
      | Ok r1, Ok r2 =>
          r1 <> r2
          /\ exists child, heap (snd second) !! r1 = Some child
               /\ heap (snd second) !! r2 = Some child
      | Raise e1, Raise e2 => e1 = e2
      | _, _ => False
      end)
  /\ (forall s self, heap s !! self = Some o ->
      let s' := snd (run_op op self s) in
      (forall l x, heap s !! l = Some x -> heap s' !! l = Some x)
      /\ (forall l, fst (run_op op self s) = Ok l ->
            heap s !! l = None /\ is_Some (heap s' !! l))
      /\ pub_cache s' = pub_cache s
      /\ priv_cache s' = priv_cache s
      /\ (cache_consistent s -> cache_consistent s'))
  /\ (forall s self, heap s !! self = Some o -> cache_consistent s ->
      let pub := PublicKey self s in
      let priv := PrivateKey self s in
      fst pub = Ok (public_key_of o)
      /\ fst priv = private_key_of o
      /\ heap (snd pub) = heap s /\ heap (snd priv) = heap s
      /\ cache_consistent (snd pub) /\ cache_consistent (snd priv)
      /\ fst (run_op op self (snd pub)) = fst (run_op op self s)
      /\ heap (snd (run_op op self (snd pub))) = heap (snd (run_op op self s))
      /\ fst (run_op op self (snd priv)) = fst (run_op op self s)
      /\ heap (snd (run_op op self (snd priv))) = heap (snd (run_op op self s))).
Proof.
  destruct (run_op_frame op o) as (res & objs & calls & Hframe & Hok).
  split; [|split; [|split]].
  - intros s1 s2 self1 self2 H1 H2.
    rewrite (Hframe _ _ H1), (Hframe _ _ H2). cbn [fst snd].
    destruct res as [k|e]; cbn [at_offset]; [|done].
    destruct (Hok k eq_refl) as (_ & child & Hl & _).
    exists child. by rewrite !extends_lookup_new.
  - intros s self H first second. subst first second.
    rewrite (Hframe _ _ H). cbn [fst snd].
    rewrite (Hframe _ self) by by apply extends_lookup_old.
    cbn [fst snd]. destruct res as [k|e]; cbn [at_offset]; [|done].
    destruct (Hok k eq_refl) as (_ & child & Hl & _).
    pose proof (lookup_lt_Some _ _ _ Hl) as Hlt.
    split; [simpl; rewrite length_app; lia|]. exists child. split.
    + apply extends_lookup_old. by rewrite extends_lookup_new.
    + by rewrite extends_lookup_new.
  - intros s self H s'. subst s'. rewrite (Hframe _ _ H). cbn [fst snd].
    split; [|split; [|split; [|split]]]; try done.
    + intros l x Hl. by apply extends_lookup_old.
    + intros l Hl. destruct res as [k|e]; [|done]. injection Hl as <-.
      split; [apply fresh_ref_unused|].
      destruct (Hok k eq_refl) as (_ & child & Hl & _).
      rewrite extends_lookup_new. by exists child.
    + apply cache_consistent_extends.
  - intros s self H Hc pub priv. subst pub priv.
    destruct (PublicKey_memo s self o H Hc) as (Hp1 & Hp2 & _ & Hp3).
    destruct (PrivateKey_memo s self o H Hc) as (Hs1 & Hs2 & _ & Hs3).
    destruct (run_op_same_heap op s (snd (PublicKey self s)) self o H Hp2).
    destruct (run_op_same_heap op s (snd (PrivateKey self s)) self o H Hs2).
    repeat (split; [assumption|]). assumption.
Qed.

End WithBip32.

(** ** The engine of the spec keeps its promises *)

Lemma engine_laws (C : HD.Curve) : Bip32Laws (B := HD.engine C).
Proof.
  split; intros b index child; simpl; unfold HD.Derive, HD.is_public_only;
    destruct (HD.private_scalar b);
    repeat match goal with
    | |- context [if ?c then _ else _] =>
        match type of c with bool => destruct c end
    end; intros [= <-]; reflexivity.
Qed.

(** C5. With the derivation engine of the spec, on any curve: the
    instance a single step returns is exactly one level below the
    instance it was derived from, and no operation, the default path
    included, returns an instance at a smaller depth than the one it was
    called on. *)
Theorem C5_depth_monotone (C : HD.Curve) (op : DeriveOp)
    (s s' : State (B := HD.engine C)) (self r : ref)
    (o : Bip44Obj (B := HD.engine C)) :
  heap s !! self = Some o ->
  run_op op self s = (Ok r, s') ->
  exists o' : Bip44Obj (B := HD.engine C),
    heap s' !! r = Some o'
    /\ (single_step op = true ->
        HD.depth (m_bip32 o') = HD.depth (m_bip32 o) + 1)
    /\ HD.depth (m_bip32 o) <= HD.depth (m_bip32 o').
Proof.
  intros H Hrun.
  destruct (run_op_frame op o) as (res & objs & calls & Hframe & Hok).
  rewrite (Hframe _ _ H) in Hrun. destruct res as [k|e]; [|done].
  injection Hrun as <- <-.
  destruct (Hok k eq_refl) as (Hd & o' & Hl & _ & Ha & Hck).
  exists o'. split; [by rewrite extends_lookup_new|].
  destruct (single_step op) eqn:Hs.
  - pose proof (ChildKey_depth (engine_laws C) _ _ _ (Hck eq_refl)) as Hdepth.
    simpl in Hdepth. split; [done|lia].
  - split; [done|]. destruct op; try discriminate. simpl in Hd.
    unfold depth_admissible in Ha. simpl in Ha, Hd.
    destruct (HD.is_public_only (m_bip32 o')); lia.
Qed.

(** ** The properties on concrete keys *)

(** The default path of Bitcoin on a curve with unhardened derivation:
    five calls, 84'/0'/0'/0/0, and a new instance at ADDRESS_INDEX. *)
Example default_path_runs :
  let s0 := Samples.constructed (B := Samples.with_unhardened)
              (Samples.master true) Bip84Conf.BitcoinMainNet in
  let run := _DeriveDefaultPathGeneric 0%nat Samples.purpose84 s0 in
  fst run = Ok 3%nat
  /\ map call_index (trace (snd run)) = [2147483732; 2147483648; 2147483648; 0; 0]
  /\ map (fun o => Bip32.Depth (m_bip32 o)) (heap (snd run)) = [0; 1; 2; 5].
Proof. intros s0 run. repeat split; vm_compute; reflexivity. Qed.

(** The depths of the extended keys of the test vector
    TEST_VECT_EX_KEY_DEPTHS: private at 5 and 6, public at 2, 3, 5, 6. *)
Example ex_key_depths :
  let construct (key : Bip32.bip32 (Bip32Base := Samples.with_unhardened)) :=
    fst (__init__ key Bip84Conf.BitcoinMainNet init_state) in
  construct (Samples.private_at true 5) = Ok 0%nat
  /\ construct (Samples.private_at true 6) = Raise Bip44DepthError
  /\ construct (Samples.public_at true 2) = Raise Bip44DepthError
  /\ construct (Samples.public_at true 3) = Ok 0%nat
  /\ construct (Samples.public_at true 5) = Ok 0%nat
  /\ construct (Samples.public_at true 6) = Raise Bip44DepthError.
Proof. intros construct. repeat split; vm_compute; reflexivity. Qed.

Lemma C1_init_depth_validation_witness :
  Bip32.IsPublicOnly (Bip32Base := Samples.with_unhardened) (Samples.public_at true 3) = true
  /\ Bip32.Depth (Bip32Base := Samples.with_unhardened) (Samples.public_at true 3) = 3
  /\ is_ok (fst (__init__ (B := Samples.with_unhardened)
                   (Samples.public_at true 3) Bip84Conf.BitcoinMainNet init_state))
     = true.
Proof.
  split; [reflexivity|]. split; [reflexivity|].
  pose proof (C1_init_depth_validation (B := Samples.with_unhardened)
                (Samples.public_at true 3) Bip84Conf.BitcoinMainNet init_state) as H.
  cbv zeta in H. destruct H as [Hpub _].
  destruct (Hpub eq_refl) as (_ & _ & _ & H3).
  rewrite (H3 eq_refl). reflexivity.
Defined.

Lemma C2_exact_depth_guards_witness :
  let s0 := Samples.constructed (B := Samples.with_unhardened)
              (Samples.master true) Bip84Conf.BitcoinMainNet in
  heap s0 !! 0%nat
  = Some (Samples.object (B := Samples.with_unhardened)
       (Samples.master true) Bip84Conf.BitcoinMainNet)
  /\ _CoinGeneric 0%nat s0 = (Raise Bip44DepthError, s0).
Proof.
  intros s0. split; [reflexivity|].
  pose proof (C2_exact_depth_guards (B := Samples.with_unhardened) s0 0%nat
                (Samples.object (B := Samples.with_unhardened)
       (Samples.master true) Bip84Conf.BitcoinMainNet) eq_refl) as H.
  cbv zeta in H. destruct H as (_ & [Hcoin _] & _).
  apply Hcoin. discriminate.
Defined.

Lemma C3_change_index_resolution_witness :
  let o := (Samples.object (B := Samples.hardened_only)
       (Samples.private_at false 3) Bip84Conf.BitcoinMainNet) in
  let s0 := Samples.constructed (B := Samples.hardened_only)
              (Samples.private_at false 3) Bip84Conf.BitcoinMainNet in
  heap s0 !! 0%nat = Some o
  /\ Bip32.Depth (m_bip32 o) = Bip44Levels_int ACCOUNT
  /\ new_calls s0 (snd (_ChangeGeneric 0%nat (PyChange CHAIN_EXT) s0))
     = [ {| call_parent := m_bip32 o; call_index := change_index o CHAIN_EXT |} ]
  /\ Bip32.IsHardenedIndex (change_index o CHAIN_EXT) = true.
Proof.
  intros o s0. split; [reflexivity|]. split; [reflexivity|].
  pose proof (C3_change_index_resolution (B := Samples.hardened_only) s0 0%nat o
                eq_refl) as [Hchange _].
  destruct (Hchange CHAIN_EXT eq_refl) as [Hcalls Hhard].
  split; [exact Hcalls|exact Hhard].
Defined.

(** C3, as stated, fails. On a curve without unhardened private
    derivation and a coin configuration with the default path 0'/0/0,
    the change step of [_DeriveDefaultPathGeneric], its only call on a
    key at ACCOUNT level, passes the unhardened index 0, where
    [_ChangeGeneric] passes a hardened one. *)
Lemma C3_counterexample :
  let s0 := Samples.constructed (B := Samples.hardened_only)
              (Samples.master false) Bip84Conf.BitcoinMainNet in
  let run := _DeriveDefaultPathGeneric (B := Samples.hardened_only)
               0%nat Samples.purpose84 s0 in
  let calls := change_step_calls (new_calls s0 (snd run)) in
  map (fun call =>
         (call_index call,
          Bip32.IsPrivateUnhardenedDerivationSupported (call_parent call),
          Bip32.IsHardenedIndex (call_index call),
          Bip32.IsHardenedIndex
            (change_index (Samples.object (call_parent call) Bip84Conf.BitcoinMainNet)
               CHAIN_EXT)))
      calls
  = [ (0, false, false, true) ]
  /\ Exists (fun call =>
              ~ (Bip32.IsHardenedIndex (call_index call) = true
                 <-> Bip32.IsPrivateUnhardenedDerivationSupported (call_parent call)
                     = false))
       calls.
Proof.
  intros s0 run calls.
  assert (Hmap : map (fun call =>
         (call_index call,
          Bip32.IsPrivateUnhardenedDerivationSupported (call_parent call),
          Bip32.IsHardenedIndex (call_index call),
          Bip32.IsHardenedIndex
            (change_index (Samples.object (call_parent call) Bip84Conf.BitcoinMainNet)
               CHAIN_EXT)))
      calls = [ (0, false, false, true) ]) by (vm_compute; reflexivity).
  split; [exact Hmap|]. clearbody calls.
  destruct calls as [|call calls']; [discriminate|].
  apply Exists_cons_hd.
  assert (Hhard : Bip32.IsHardenedIndex (call_index call) = false)
    by (simpl in Hmap; congruence).
  intros [_ H]. rewrite Hhard in H. specialize (H eq_refl). discriminate.
Qed.

Lemma C4_default_path_witness :
  let o := (Samples.object (B := Samples.with_unhardened)
       (Samples.master true) Bip84Conf.BitcoinMainNet) in
  let s0 := Samples.constructed (B := Samples.with_unhardened)
              (Samples.master true) Bip84Conf.BitcoinMainNet in
  let run := _DeriveDefaultPathGeneric 0%nat Samples.purpose84 s0 in
  heap s0 !! 0%nat = Some o
  /\ depth_admissible (m_bip32 o) = true
  /\ length (DefaultPath (m_coin_conf o)) = 3%nat
  /\ is_ok (fst run) = true
  /\ Bip32.Depth (m_bip32 o) = Bip44Levels_int MASTER
  /\ trace (snd run)
     = trace s0 ++ snd (derive_seq (m_bip32 o) (default_path_indices o Samples.purpose84)).
Proof.
  intros o s0 run.
  split; [reflexivity|]. split; [reflexivity|]. split; [reflexivity|].
  split; [vm_compute; reflexivity|].
  pose proof (C4_default_path (B := Samples.with_unhardened)
                (engine_laws (HD.small_curve true)) s0 0%nat o Samples.purpose84
                eq_refl eq_refl) as H.
  cbv zeta in H. destruct H as (_ & _ & Hrun).
  destruct (Hrun eq_refl) as (Htrace & _ & _).
  split; [reflexivity|exact Htrace].
Defined.

(** C4, as stated, fails. With a coin configuration whose default path
    is the account alone, [_DeriveDefaultPathGeneric] on a master key
    succeeds after three calls, 84'/0'/0', and the instance it returns is
    at ACCOUNT level, not at ADDRESS_INDEX level. *)
Lemma C4_counterexample :
  let s0 := Samples.constructed (B := Samples.with_unhardened)
              (Samples.master true) Samples.account_path_conf in
  let run := _DeriveDefaultPathGeneric (B := Samples.with_unhardened)
               0%nat Samples.purpose84 s0 in
  fst run = Ok 3%nat
  /\ map call_index (trace (snd run)) = [2147483732; 2147483648; 2147483648]
  /\ option_map (fun o : Bip44Obj (B := Samples.with_unhardened) =>
                   Bip32.Depth (m_bip32 o))
       (heap (snd run) !! 3%nat)
     = Some (Bip44Levels_int ACCOUNT)
  /\ option_map (fun o : Bip44Obj (B := Samples.with_unhardened) =>
                   Bip32.Depth (m_bip32 o))
       (heap (snd run) !! 3%nat)
     <> Some (Bip44Levels_int ADDRESS_INDEX).
Proof.
  intros s0 run.
  assert (Hdepth : option_map (fun o : Bip44Obj (B := Samples.with_unhardened) =>
                                 Bip32.Depth (m_bip32 o))
                     (heap (snd run) !! 3%nat) = Some (Bip44Levels_int ACCOUNT))
    by (vm_compute; reflexivity).
  split; [vm_compute; reflexivity|]. split; [vm_compute; reflexivity|].
  split; [exact Hdepth|]. rewrite Hdepth. discriminate.
Qed.

(** With a default path of four elements the walk makes its six calls
    and the constructor refuses the key it ends on. *)
Example default_path_too_long :
  let s0 := Samples.constructed (B := Samples.with_unhardened)
              (Samples.master true) Samples.long_path_conf in
  let run := _DeriveDefaultPathGeneric (B := Samples.with_unhardened)
               0%nat Samples.purpose84 s0 in
  fst run = Raise Bip44DepthError
  /\ map call_index (trace (snd run))
     = [2147483732; 2147483648; 2147483648; 0; 0; 0]
  /\ map (fun o => Bip32.Depth (m_bip32 o)) (heap (snd run)) = [0; 1; 2].
Proof. intros s0 run. repeat split; vm_compute; reflexivity. Qed.

Lemma C5_depth_monotone_witness :
  let o := (Samples.object (B := Samples.with_unhardened)
       (Samples.master true) Bip84Conf.BitcoinMainNet) in
  let s0 := Samples.constructed (B := Samples.with_unhardened)
              (Samples.master true) Bip84Conf.BitcoinMainNet in
  let run := run_op (B := Samples.with_unhardened)
               (OpPurpose Samples.purpose84) 0%nat s0 in
  heap s0 !! 0%nat = Some o
  /\ run = (Ok 1%nat, snd run)
  /\ exists o' : Bip44Obj (B := Samples.with_unhardened),
       heap (snd run) !! 1%nat = Some o'
       /\ (single_step (OpPurpose Samples.purpose84) = true ->
           HD.depth (m_bip32 o') = HD.depth (m_bip32 o) + 1)
       /\ HD.depth (m_bip32 o) <= HD.depth (m_bip32 o').
Proof.
  intros o s0 run.
  assert (Hfst : fst run = Ok 1%nat) by (vm_compute; reflexivity).
  assert (Hrun : run = (Ok 1%nat, snd run))
    by (rewrite <- Hfst; apply surjective_pairing).
  split; [reflexivity|]. split; [exact Hrun|].
  exact (C5_depth_monotone (HD.small_curve true) (OpPurpose Samples.purpose84)
           s0 (snd run) 0%nat 1%nat o eq_refl Hrun).
Defined.

Lemma C6_deterministic_pure_witness :
  let o := (Samples.object (B := Samples.with_unhardened)
       (Samples.private_at true 2) Bip84Conf.BitcoinMainNet) in
  let s0 := Samples.constructed (B := Samples.with_unhardened)
              (Samples.private_at true 2) Bip84Conf.BitcoinMainNet in
  let first := run_op (B := Samples.with_unhardened) (OpAccount 0) 0%nat s0 in
  let second := run_op (OpAccount 0) 0%nat (snd first) in
  heap s0 !! 0%nat = Some o
  /\ fst first = Ok 1%nat /\ fst second = Ok 2%nat
  /\ match fst first, fst second with
     | Ok r1, Ok r2 =>
         r1 <> r2
         /\ exists child, heap (snd second) !! r1 = Some child
              /\ heap (snd second) !! r2 = Some child
     | Raise e1, Raise e2 => e1 = e2
     | _, _ => False
     end.
Proof.
  intros o s0 first second.
  split; [reflexivity|]. split; [vm_compute; reflexivity|].
  split; [vm_compute; reflexivity|].
  pose proof (C6_deterministic_pure (B := Samples.with_unhardened) (OpAccount 0) o)
    as (_ & Hrepeat & _).
  exact (Hrepeat s0 0%nat eq_refl).
Defined.

Lemma C7_type_error_first_witness :
  let s0 := Samples.constructed (B := Samples.with_unhardened)
              (Samples.master true) Bip84Conf.BitcoinMainNet in
  (forall l, PyInt 0 <> PyLevel l)
  /\ (forall c, PyInt 0 <> PyChange c)
  /\ IsLevel 0%nat (PyInt 0) s0 = (Raise TypeError, s0)
  /\ _ChangeGeneric 0%nat (PyInt 0) s0 = (Raise TypeError, s0).
Proof.
  intros s0.
  assert (Hl : forall l, PyInt 0 <> PyLevel l) by (intros l; discriminate).
  assert (Hc : forall c, PyInt 0 <> PyChange c) by (intros c; discriminate).
  destruct (C7_type_error_first (B := Samples.with_unhardened) s0 0%nat)
    as [Hlevel Hchange].
  split; [exact Hl|]. split; [exact Hc|].
  split; [exact (Hlevel _ Hl)|exact (Hchange _ Hc)].
Defined.

End Bip44Facts.

(** * Facts about mnemonic_utils.py *)

Module MnemonicFacts.
Import Mnemonic.

(** ** The dictionary built by the constructor *)

Lemma foldl_ext_in {A C} (f g : A -> C -> A) (l : list C) (a : A) :
  (forall x y, y ∈ l -> f x y = g x y) -> foldl f a l = foldl g a l.
Proof.
  revert a. induction l as [|y l IH]; intros a Hfg; simpl; [done|].
  rewrite Hfg by apply list_elem_of_here. apply IH.
  intros x z Hz. apply Hfg. by apply list_elem_of_further.
Qed.

Lemma words_to_idx_snoc (l : list string) (w : string) :
  words_to_idx (l ++ [w]) = <[w := Z.of_nat (length l)]> (words_to_idx l).
Proof.
  unfold words_to_idx. rewrite length_app. simpl.
  rewrite seq_app, foldl_app. simpl.
  rewrite lookup_app_r, Nat.sub_diag by lia. simpl. f_equal.
  apply foldl_ext_in. intros d i Hi.
  apply list_elem_of_In, in_seq in Hi.
  by rewrite lookup_app_l by lia.
Qed.

Lemma words_to_idx_Some (l : list string) (w : string) (i : Z) :
  words_to_idx l !! w = Some i -> 0 <= i /\ l !! Z.to_nat i = Some w.
Proof.
  induction l as [|x l IH] using rev_ind.
  - unfold words_to_idx. simpl. by rewrite lookup_empty.
  - rewrite words_to_idx_snoc. destruct (decide (x = w)) as [->|Hne].
    + rewrite lookup_insert_eq. intros [= <-]. split; [lia|].
      by rewrite Nat2Z.id, lookup_app_r, Nat.sub_diag by lia.
    + rewrite lookup_insert_ne by done. intros H.
      destruct (IH H) as [Hi Hl]. split; [done|]. by apply lookup_app_l_Some.
Qed.

Lemma words_to_idx_NoDup (l : list string) (w : string) (n : nat) :
  NoDup l -> l !! n = Some w -> words_to_idx l !! w = Some (Z.of_nat n).
Proof.
  induction l as [|x l IH] using rev_ind; [done|].
  intros Hnd Hl. apply NoDup_app in Hnd as (Hnd & Hx & _).
  rewrite words_to_idx_snoc.
  destruct (decide (n < length l)%nat) as [Hlt|Hge].
  - rewrite lookup_app_l in Hl by done.
    assert (x <> w).
    { intros ->. apply (Hx w); [by eapply list_elem_of_lookup_2|].
      apply list_elem_of_here. }
    rewrite lookup_insert_ne by done. by apply IH.
  - pose proof (lookup_lt_Some _ _ _ Hl) as Hlen. rewrite length_app in Hlen.
    simpl in Hlen. assert (n = length l) as -> by lia.
    rewrite lookup_app_r, Nat.sub_diag in Hl by lia. injection Hl as ->.
    by rewrite lookup_insert_eq.
Qed.

Lemma words_to_idx_None (l : list string) (w : string) :
  words_to_idx l !! w = None <-> w ∉ l.
Proof.
  induction l as [|x l IH] using rev_ind.
  - unfold words_to_idx. simpl. rewrite lookup_empty. split; [|done].
    intros _. apply not_elem_of_nil.
  - rewrite words_to_idx_snoc, not_elem_of_app, <- IH.
    rewrite lookup_insert_None. rewrite list_elem_of_singleton.
    split; intros [? ?]; split; congruence.
Qed.

(** ** The two lookups *)

Lemma GetWordIdx_raises (words_list : list string) (word : string) :
  GetWordIdx (MnemonicWordsList_init words_list) word = Raise ValueError
  <-> word ∉ words_list.
Proof.
  unfold GetWordIdx. simpl. rewrite <- words_to_idx_None.
  destruct (words_to_idx words_list !! word); split; done.
Qed.

Lemma GetWordIdx_is_ok (words_list : list string) (word : string) :
  is_ok (GetWordIdx (MnemonicWordsList_init words_list) word) = true
  <-> word ∈ words_list.
Proof.
  destruct (decide (word ∈ words_list)) as [Hin|Hnin].
  - split; [done|]. intros _.
    destruct (GetWordIdx _ word) as [i|e] eqn:Hg; [done|].
    unfold GetWordIdx in Hg. simpl in Hg.
    destruct (words_to_idx words_list !! word) eqn:Hl; [done|].
    by apply words_to_idx_None in Hl.
  - split; [|done]. apply GetWordIdx_raises in Hnin. by rewrite Hnin.
Qed.

Lemma list_getitem_nonneg {A} (l : list A) (i : Z) (x : A) :
  0 <= i -> l !! Z.to_nat i = Some x -> list_getitem l i = Ok x.
Proof.
  intros Hi Hl. unfold list_getitem.
  pose proof (lookup_lt_Some _ _ _ Hl) as Hlt.
  destruct (Z.ltb_spec i 0); [lia|].
  destruct (Z.ltb_spec i 0); [lia|].
  destruct (Z.leb_spec (Z.of_nat (length l)) i); [lia|]. simpl. by rewrite Hl.
Qed.

(** C9. On a words list of pairwise distinct words the two lookups are
    inverse of each other: the word at an index below the length has that
    index, and the index of a word of the list holds that word;
    [GetWordIdx] raises [ValueError] exactly on the words that are not in
    the list. *)
Theorem C9_word_index_inverse (words_list : list string) :
  NoDup words_list ->
  let self := MnemonicWordsList_init words_list in
  (forall i, 0 <= i < Z.of_nat (length words_list) ->
     exists word, GetWordAtIdx self i = Ok word /\ GetWordIdx self word = Ok i)
  /\ (forall word, word ∈ words_list ->
       exists i, GetWordIdx self word = Ok i /\ GetWordAtIdx self i = Ok word)
  /\ (forall word, GetWordIdx self word = Raise ValueError <-> word ∉ words_list).
Proof.
  intros Hnd self. subst self. split; [|split].
  - intros i Hi.
    destruct (lookup_lt_is_Some_2 words_list (Z.to_nat i)) as [word Hw]; [lia|].
    exists word. split.
    + unfold GetWordAtIdx. simpl. apply list_getitem_nonneg; [lia|done].
    + unfold GetWordIdx. simpl.
      rewrite (words_to_idx_NoDup _ _ _ Hnd Hw). f_equal. lia.
  - intros word Hin. apply list_elem_of_lookup in Hin as [n Hn].
    exists (Z.of_nat n). split.
    + unfold GetWordIdx. simpl. by rewrite (words_to_idx_NoDup _ _ _ Hnd Hn).
    + unfold GetWordAtIdx. simpl. apply list_getitem_nonneg; [lia|].
      by rewrite Nat2Z.id.
  - apply GetWordIdx_raises.
Qed.

Lemma C9_word_index_inverse_witness :
  NoDup ["abandon"; "ability"; "able"]%string
  /\ GetWordIdx (MnemonicWordsList_init ["abandon"; "ability"; "able"]%string)
       "zoo"%string = Raise ValueError.
Proof.
  assert (Hnd : NoDup ["abandon"; "ability"; "able"]%string)
    by (apply (bool_decide_unpack _); vm_compute; reflexivity).
  split; [exact Hnd|].
  pose proof (C9_word_index_inverse ["abandon"; "ability"; "able"]%string Hnd) as H.
  cbv zeta in H. destruct H as (_ & _ & Hraise).
  apply Hraise. apply (bool_decide_unpack _). vm_compute. reflexivity.
Defined.

(** ** The finder *)

Lemma lookup_all_ok (words_list words : list string) :
  lookup_all (MnemonicWordsList_init words_list) words = Ok tt
  <-> forall word, word ∈ words -> word ∈ words_list.
Proof.
  induction words as [|w words IH]; simpl.
  - split; [|done]. intros _ word Hw. by apply elem_of_nil in Hw.
  - destruct (GetWordIdx (MnemonicWordsList_init words_list) w) as [i|e] eqn:Hg.
    + assert (Hin : w ∈ words_list)
        by (apply GetWordIdx_is_ok; by rewrite Hg).
      rewrite IH. split.
      * intros H word Hw. apply elem_of_cons in Hw as [->|Hw]; [done|by apply H].
      * intros H word Hw. apply H. by apply list_elem_of_further.
    + split; [done|]. intros H.
      assert (Hin : w ∈ words_list) by apply H, list_elem_of_here.
      apply GetWordIdx_is_ok in Hin. by rewrite Hg in Hin.
Qed.

Lemma lookup_all_raises (words_list words : list string) (e : PyExc) :
  lookup_all (MnemonicWordsList_init words_list) words = Raise e -> e = ValueError.
Proof.
  induction words as [|w words IH]; simpl; [done|].
  destruct (GetWordIdx (MnemonicWordsList_init words_list) w) as [i|e'] eqn:Hg;
    [done|].
  intros [= <-]. unfold GetWordIdx in Hg.
  destruct (m_words_to_idx _ !! w); congruence.
Qed.

Section Finder.

Context {Lang : Type}.

(** One language: taken when it suits, passed over when the body of the
    [try] raises a [ValueError], and the end of the search when it raises
    anything else. *)
Lemma try_language_cases (mnemonic : Mnemonic)
    (getter : MnemonicWordsListGetterBase Lang) (lang : Lang) :
  (exists words_list,
      words_for getter lang = Ok words_list
      /\ contains_all mnemonic words_list
      /\ try_language mnemonic getter lang
         = Ok (MnemonicWordsList_init words_list, lang))
  \/ (passed_over getter mnemonic lang
      /\ exists e, try_language mnemonic getter lang = Raise e
           /\ isinstance_ValueError e = true)
  \/ (exists e, breaks getter lang e
        /\ try_language mnemonic getter lang = Raise e).
Proof.
  unfold try_language, GetByLanguage, passed_over, breaks.
  destruct (words_for getter lang) as [words_list|e] eqn:Hw.
  - destruct (lookup_all (MnemonicWordsList_init words_list) (ToList mnemonic))
      as [[]|e] eqn:Hl.
    + left. exists words_list. split; [done|]. split; [|done].
      exact (proj1 (lookup_all_ok _ _) Hl).
    + right. left. rewrite (lookup_all_raises _ _ _ Hl). split.
      * right. exists words_list. split; [done|]. intros Hall.
        pose proof (proj2 (lookup_all_ok _ _) Hall). congruence.
      * by exists ValueError.
  - destruct (isinstance_ValueError e) eqn:He.
    + right. left. split; [left|]; by exists e.
    + right. right. by exists e.
Qed.

(** A language that is passed over does not suit, and neither does one
    on which the getter breaks. *)
Lemma passed_over_not_suits (mnemonic : Mnemonic)
    (getter : MnemonicWordsListGetterBase Lang) (lang : Lang) :
  passed_over getter mnemonic lang -> ~ suits getter mnemonic lang.
Proof.
  intros [(e & He & _)|(ws & Hw & Hn)] (ws' & Hw' & Hall); congruence.
Qed.

(** C8. [_FindLanguageGeneric] goes through the enumeration in order. A
    language is passed over when getting its words list raises a
    [ValueError] or when the list lacks a word of the mnemonic. The first
    language whose list is there and holds every word of the mnemonic is
    returned with its list, when every language before it is passed over;
    [ValueError] is raised when every language of the enumeration is
    passed over. An exception that is not a [ValueError], raised on
    getting the words list of a language, is not caught: when the
    languages before that one are passed over the search stops there and
    this exception is the outcome, whatever the languages after it
    hold. *)
Theorem C8_find_language (mnemonic : Mnemonic) (langs_enum : list Lang)
    (getter : MnemonicWordsListGetterBase Lang) :
  match _FindLanguageGeneric mnemonic langs_enum getter with
  | Ok (words_list, lang) =>
      exists before after words,
        langs_enum = before ++ lang :: after
        /\ (forall l, l ∈ before ->
              passed_over getter mnemonic l /\ ~ suits getter mnemonic l)
        /\ words_for getter lang = Ok words
        /\ contains_all mnemonic words
        /\ words_list = MnemonicWordsList_init words
  | Raise e =>
      (e = ValueError
       /\ forall l, l ∈ langs_enum ->
            passed_over getter mnemonic l /\ ~ suits getter mnemonic l)
      \/ (exists before lang after,
            langs_enum = before ++ lang :: after
            /\ (forall l, l ∈ before -> passed_over getter mnemonic l)
            /\ breaks getter lang e)
  end.
Proof.
  induction langs_enum as [|lang langs IH]; simpl.
  - left. split; [done|]. intros l Hl. by apply elem_of_nil in Hl.
  - destruct (try_language_cases mnemonic getter lang)
      as [(words & Hw & Hall & ->)|[(Hpo & e & -> & ->)|(e & Hb & ->)]].
    + exists [], langs, words. split; [done|]. split; [|done].
      intros l Hl. by apply elem_of_nil in Hl.
    + pose proof (passed_over_not_suits _ _ _ Hpo) as Hns.
      destruct (_FindLanguageGeneric mnemonic langs getter) as [[wl found]|e'].
      * destruct IH as (before & after & words & -> & Hbefore & Hw & Hall & ->).
        exists (lang :: before), after, words. split; [done|]. split; [|done].
        intros l Hl. apply elem_of_cons in Hl as [->|Hl]; [done|by apply Hbefore].
      * destruct IH as [[-> Hnone]|(before & l' & after & -> & Hbefore & Hb)].
        -- left. split; [done|].
           intros l Hl. apply elem_of_cons in Hl as [->|Hl]; [done|by apply Hnone].
        -- right. exists (lang :: before), l', after.
           split; [done|]. split; [|done].
           intros l Hl. apply elem_of_cons in Hl as [->|Hl]; [done|by apply Hbefore].
    + destruct Hb as [Hraise He]. rewrite He. right.
      exists [], lang, langs. split; [done|]. split; [|done].
      intros l Hl. by apply elem_of_nil in Hl.
Qed.

End Finder.

(** C8, as stated, fails. The list of the second language holds every
    word of the mnemonic, and the list of the first cannot be loaded
    because its file is not there: the first language is not skipped, the
    search ends with the [FileNotFoundError] of the first. *)
Lemma C8_counterexample :
  let mnemonic := {| m_mnemonic_list := ["fatigue"; "gazelle"]%string |} in
  GetByLanguage missing_file_getter ITALIAN = Raise FileNotFoundError
  /\ suits missing_file_getter mnemonic FRENCH
  /\ _FindLanguageGeneric mnemonic [ITALIAN; FRENCH] missing_file_getter
     = Raise FileNotFoundError
  /\ _FindLanguageGeneric mnemonic [FRENCH] missing_file_getter
     = Ok (MnemonicWordsList_init ["abaisser"; "fatigue"; "gazelle"]%string, FRENCH).
Proof.
  intros mnemonic. split; [reflexivity|]. split.
  - exists ["abaisser"; "fatigue"; "gazelle"]%string. split; [reflexivity|].
    intros word Hw. simpl in Hw. rewrite !elem_of_cons in Hw.
    rewrite !elem_of_cons. destruct Hw as [->|[->|Hw]]; [tauto|tauto|].
    by apply elem_of_nil in Hw.
  - split; vm_compute; reflexivity.
Qed.

(** The language whose list is not valid and the one that lacks a word
    are passed over; the shared word alone does not decide. *)
Example find_sample_french :
  match _FindLanguageGeneric
          {| m_mnemonic_list := ["fatigue"; "gazelle"]%string |}
          [ITALIAN; ENGLISH; FRENCH] sample_getter with
  | Ok (words_list, lang) =>
      lang = FRENCH
      /\ m_idx_to_words words_list = ["abaisser"; "fatigue"; "gazelle"]%string
  | Raise _ => False
  end.
Proof. vm_compute. by split. Qed.

Example find_sample_shared_word :
  match _FindLanguageGeneric
          {| m_mnemonic_list := ["fatigue"]%string |}
          [ITALIAN; ENGLISH; FRENCH] sample_getter with
  | Ok (_, lang) => lang = ENGLISH
  | Raise _ => False
  end.
Proof. vm_compute. done. Qed.

Example find_sample_none :
  match _FindLanguageGeneric
          {| m_mnemonic_list := ["fatigue"; "zoo"]%string |}
          [ITALIAN; ENGLISH; FRENCH] sample_getter with
  | Ok _ => False
  | Raise e => e = ValueError
  end.
Proof. vm_compute. done. Qed.

(** With a repeated word the dictionary keeps the last index. *)
Example repeated_word_last_index :
  GetWordIdx (MnemonicWordsList_init ["a"; "b"; "a"]%string) "a"%string = Ok 2.
Proof. vm_compute. reflexivity. Qed.

Example negative_index_from_end :
  GetWordAtIdx (MnemonicWordsList_init ["a"; "b"; "c"]%string) (-1) = Ok "c"%string
  /\ GetWordAtIdx (MnemonicWordsList_init ["a"; "b"; "c"]%string) 3 = Raise IndexError.
Proof. split; vm_compute; reflexivity. Qed.

End MnemonicFacts.

(** * Facts about substrate_scale_enc_uint.py *)

Module ScaleFacts.
Import Scale.

(** ** Little-endian bytes *)

Lemma Z_of_byte_of_Z (z : Z) : Z_of_byte (byte_of_Z z) = z mod 256.
Proof.
  unfold Z_of_byte, byte_of_Z.
  pose proof (Z.mod_pos_bound z 256 ltac:(lia)) as Hb.
  destruct (Byte.of_N (Z.to_N (z mod 256))) as [b|] eqn:Hof.
  - apply Byte.to_of_N in Hof. rewrite Hof. apply Z2N.id. lia.
  - apply Byte.of_N_None_iff in Hof. lia.
Qed.

Lemma length_le_bytes (n : nat) (z : Z) : length (le_bytes n z) = n.
Proof. revert z. induction n as [|n IH]; intros z; simpl; [done|]. by rewrite IH. Qed.

Lemma le_decode_le_bytes (n : nat) (z : Z) :
  le_decode (le_bytes n z) = z mod 256 ^ Z.of_nat n.
Proof.
  revert z. induction n as [|n IH]; intros z.
  - simpl. by rewrite Z.mod_1_r.
  - cbn [le_bytes le_decode]. rewrite IH, Z_of_byte_of_Z.
    rewrite Nat2Z.inj_succ, Z.pow_succ_r by lia.
    rewrite Z.rem_mul_r by lia. done.
Qed.

Lemma le_decode_le_bytes_fits (n : nat) (z : Z) :
  0 <= z < 256 ^ Z.of_nat n -> le_decode (le_bytes n z) = z.
Proof. intros H. rewrite le_decode_le_bytes. by apply Z.mod_small. Qed.

(** ** The encoder *)

Lemma max_val_pow (n : Z) :
  0 <= n -> Z.shiftl 2 (n * 8) - 1 = 2 ^ (8 * n + 1) - 1.
Proof.
  intros H. rewrite Z.shiftl_mul_pow2 by lia.
  rewrite Z.pow_add_r by lia. replace (n * 8) with (8 * n) by lia. lia.
Qed.

Lemma pow_256 (n : Z) : 0 <= n -> 256 ^ Z.of_nat (Z.to_nat n) = 2 ^ (8 * n).
Proof.
  intros H. rewrite Z2Nat.id by lia.
  change 256 with (2 ^ 8). by rewrite <- Z.pow_mul_r by lia.
Qed.

(** What the guard lets through and the bytes cannot hold. *)
Lemma Encode_overflow (n value : Z) (self : SubstrateScaleUIntEncoder) :
  1 <= n -> SubstrateScaleUIntEncoder_init n = Ok self ->
  2 ^ (8 * n) <= value <= 2 ^ (8 * n + 1) - 1 ->
  Encode self value = Raise OverflowError.
Proof.
  intros Hn Hinit Hv. unfold SubstrateScaleUIntEncoder_init in Hinit.
  destruct (Z.ltb_spec (n * 8) 0); [lia|]. injection Hinit as <-.
  unfold Encode, IntegerUtils_ToBytes. simpl. rewrite max_val_pow by lia.
  pose proof (Z.pow_pos_nonneg 2 (8 * n) ltac:(lia) ltac:(lia)).
  destruct (Z.ltb_spec value 0); [lia|].
  destruct (Z.gtb_spec value (2 ^ (8 * n + 1) - 1)); [lia|]. simpl.
  destruct (Z.leb_spec (2 ^ (8 * n)) value); [done|lia].
Qed.

(** C10. For a byte count n of at least one the encoder is built with
    the bound (2 << (n * 8)) - 1, which is 2^(8n+1) - 1 and above the
    largest n-byte value 2^(8n) - 1; [Encode] raises [ValueError] exactly
    on the values below zero or above that bound; on every value from 0
    to 2^(8n) - 1 it returns the n bytes of the value, least significant
    first. *)
Theorem C10_uint_encoder_range (n : Z) :
  1 <= n ->
  exists self,
    SubstrateScaleUIntEncoder_init n = Ok self
    /\ m_max_val self = Z.shiftl 2 (n * 8) - 1
    /\ m_max_val self = 2 ^ (8 * n + 1) - 1
    /\ 2 ^ (8 * n) - 1 < m_max_val self
    /\ (forall value,
          Encode self value = Raise ValueError
          <-> value < 0 \/ value > Z.shiftl 2 (n * 8) - 1)
    /\ (forall value,
          0 <= value <= 2 ^ (8 * n) - 1 ->
          Encode self value = Ok (le_bytes (Z.to_nat n) value)
          /\ length (le_bytes (Z.to_nat n) value) = Z.to_nat n
          /\ le_decode (le_bytes (Z.to_nat n) value) = value).
Proof.
  intros Hn. unfold SubstrateScaleUIntEncoder_init.
  destruct (Z.ltb_spec (n * 8) 0); [lia|].
  eexists. split; [reflexivity|]. simpl.
  pose proof (max_val_pow n ltac:(lia)) as Hmax.
  pose proof (Z.pow_pos_nonneg 2 (8 * n) ltac:(lia) ltac:(lia)) as Hpos.
  assert (Hdouble : 2 ^ (8 * n + 1) = 2 * 2 ^ (8 * n))
    by (rewrite Z.pow_add_r by lia; lia).
  split; [done|]. split; [done|]. split; [lia|]. split.
  - intros value. unfold Encode, IntegerUtils_ToBytes. simpl.
    destruct (Z.ltb_spec value 0); simpl; [split; [lia|done]|].
    destruct (Z.gtb_spec value (Z.shiftl 2 (n * 8) - 1)); simpl;
      [split; [lia|done]|].
    destruct (Z.leb_spec (2 ^ (8 * n)) value); split; try done; lia.
  - intros value Hv. split; [|split].
    + unfold Encode, IntegerUtils_ToBytes. simpl.
      destruct (Z.ltb_spec value 0); [lia|].
      destruct (Z.gtb_spec value (Z.shiftl 2 (n * 8) - 1)); [lia|]. simpl.
      destruct (Z.leb_spec (2 ^ (8 * n)) value); [lia|done].
    + apply length_le_bytes.
    + apply le_decode_le_bytes_fits. rewrite pow_256 by lia. lia.
Qed.

Lemma C10_uint_encoder_range_witness :
  1 <= 2
  /\ exists self,
       SubstrateScaleU16Encoder = Ok self
       /\ Encode self 258 = Ok [Byte.x02; Byte.x01]
       /\ Encode self 131072 = Raise ValueError.
Proof.
  split; [lia|].
  destruct (C10_uint_encoder_range 2 ltac:(lia))
    as (self & Hinit & _ & _ & _ & Hguard & Hbytes).
  exists self. split; [exact Hinit|]. split.
  - destruct (Hbytes 258 ltac:(simpl; lia)) as [Henc _]. exact Henc.
  - apply Hguard. right. reflexivity.
Defined.

Example u16_encoder_runs :
  match SubstrateScaleU16Encoder with
  | Ok self =>
      Encode self 65535 = Ok [Byte.xff; Byte.xff]
      /\ Encode self 65536 = Raise OverflowError
      /\ Encode self 131071 = Raise OverflowError
      /\ Encode self 131072 = Raise ValueError
      /\ Encode self (-1) = Raise ValueError
  | Raise _ => False
  end.
Proof. vm_compute. by repeat split. Qed.

End ScaleFacts.

(** * More on bip44_base.py *)

Module Bip44More.
Import Bip44 Bip44Facts.

Section WithBip32.

Context {B : Bip32.Bip32Base}.

(** ** What a computation keeps *)

Lemma bind_keeps {A C} (P : State -> Prop) (m : M A) (k : A -> M C) :
  (forall s, P s -> P (snd (m s))) ->
  (forall a s, P s -> P (snd (k a s))) ->
  forall s, P s -> P (snd (bind m k s)).
Proof.
  intros Hm Hk s Hs. unfold bind. specialize (Hm s Hs).
  destruct (m s) as [[a|e] s']; simpl in *; [by apply Hk|done].
Qed.

Lemma heap_wf_allocated (s : State) (o : Bip44Obj) :
  heap_wf s -> depth_admissible (m_bip32 o) = true -> heap_wf (allocated s o).
Proof.
  intros Hs Ho r x Hr. simpl in Hr.
  apply lookup_app_Some in Hr as [Hr|[_ Hr]]; [by eapply Hs|].
  apply list_lookup_singleton_Some in Hr as [_ <-]. done.
Qed.

Lemma init_keeps (b : Bip32.bip32) (c : BipCoinConf) (s : State) :
  heap_wf s -> heap_wf (snd (__init__ b c s)).
Proof.
  intros Hs. rewrite init_eq. destruct (depth_admissible b) eqn:Ha; [|done].
  by apply heap_wf_allocated.
Qed.

Lemma deref_state (r : ref) (s : State) : snd (deref r s) = s.
Proof. unfold deref. by destruct (heap s !! r). Qed.

Lemma IsLevel_state (self : ref) (level : PyVal) (s : State) :
  snd (IsLevel self level s) = s.
Proof.
  unfold IsLevel. destruct (as_Bip44Levels level); [|done].
  unfold bind, deref. by destruct (heap s !! self).
Qed.

Lemma ChildKey_keeps (b : Bip32.bip32) (index : Z) (s : State) :
  heap_wf s -> heap_wf (snd (ChildKey b index s)).
Proof. done. Qed.

Lemma DerivePath_keeps (path : list Bip32.PathElem) (b : Bip32.bip32) (s : State) :
  heap_wf s -> heap_wf (snd (DerivePath b path s)).
Proof.
  revert b s. induction path as [|e path IH]; intros b s Hs; simpl; [done|].
  apply (bind_keeps heap_wf); [apply ChildKey_keeps| |done].
  intros child s' Hs'. by apply IH.
Qed.

(** After the level test: refused, or one child derivation and the
    construction of the new instance. *)
Lemma guarded_keeps (self : ref) (lvl : Bip44Levels)
    (index : Bip44Obj -> Z) (s : State) :
  heap_wf s ->
  heap_wf (snd (bind (IsLevel self (PyLevel lvl))
                  (fun at_level =>
                     if negb at_level then raise Bip44DepthError
                     else bind (deref self) (fun o =>
                            bind (ChildKey (m_bip32 o) (index o)) (fun child =>
                              __init__ child (m_coin_conf o)))) s)).
Proof.
  apply (bind_keeps heap_wf).
  - intros s' Hs'. by rewrite IsLevel_state.
  - intros [] s' Hs'; simpl; [|done].
    apply (bind_keeps heap_wf); [intros s2 ?; by rewrite deref_state| |done].
    intros o s2 Hs2. apply (bind_keeps heap_wf); [apply ChildKey_keeps| |done].
    intros child s3 Hs3. by apply init_keeps.
Qed.

Lemma run_op_keeps (op : DeriveOp) (self : ref) (s : State) :
  heap_wf s -> heap_wf (snd (run_op op self s)).
Proof.
  intros Hs. destruct op as [p| |a|v|a|p]; simpl.
  - by apply (guarded_keeps self MASTER (fun _ => p)).
  - by apply (guarded_keeps self PURPOSE
                (fun o => Bip32.HardenIndex (CoinIndex (m_coin_conf o)))).
  - by apply (guarded_keeps self COIN (fun _ => Bip32.HardenIndex a)).
  - unfold _ChangeGeneric. destruct (as_Bip44Changes v) as [ct|]; [|done].
    by apply (guarded_keeps self ACCOUNT
                (fun o => if negb (Bip32.IsPrivateUnhardenedDerivationSupported (m_bip32 o))
                          then Bip32.HardenIndex (Bip44Changes_int ct)
                          else Bip44Changes_int ct)).
  - by apply (guarded_keeps self CHANGE
                (fun o => if negb (Bip32.IsPrivateUnhardenedDerivationSupported (m_bip32 o))
                          then Bip32.HardenIndex a else a)).
  - unfold _DeriveDefaultPathGeneric. revert s Hs. apply (bind_keeps heap_wf).
    + intros s' Hs'. by rewrite IsLevel_state.
    + intros [] s' Hs'; simpl; [|done]. revert s' Hs'.
      apply (bind_keeps heap_wf).
      { intros s2 Hs2. by apply (guarded_keeps self MASTER (fun _ => p)). }
      intros r1. apply (bind_keeps heap_wf).
      { intros s2 Hs2.
        by apply (guarded_keeps r1 PURPOSE
                    (fun o => Bip32.HardenIndex (CoinIndex (m_coin_conf o)))). }
      intros r2. apply (bind_keeps heap_wf); [intros s2 ?; by rewrite deref_state|].
      intros o. apply (bind_keeps heap_wf); [intros s2; apply DerivePath_keeps|].
      intros derived s2 Hs2. by apply init_keeps.
Qed.

Lemma PublicKey_heap (self : ref) (s : State) :
  heap (snd (PublicKey self s)) = heap s.
Proof.
  unfold PublicKey, lru_cache. destruct (cache_lookup self (pub_cache s)); [done|].
  unfold bind, deref. by destruct (heap s !! self).
Qed.

Lemma PrivateKey_heap (self : ref) (s : State) :
  heap (snd (PrivateKey self s)) = heap s.
Proof.
  unfold PrivateKey, lru_cache. destruct (cache_lookup self (priv_cache s)); [done|].
  unfold bind, deref. destruct (heap s !! self) as [o|]; [|done].
  by destruct (Bip32.PrivateKey (m_bip32 o)).
Qed.

(** X1. Every instance of the store has passed the depth check of the
    constructor, and this stays so whatever is called: no operation,
    however it ends, leaves an instance deeper than ADDRESS_INDEX or a
    public-only instance above ACCOUNT level. *)
Theorem instances_within_levels (s : State) :
  heap_wf s ->
  (forall b c, heap_wf (snd (__init__ b c s)))
  /\ (forall op self, heap_wf (snd (run_op op self s)))
  /\ (forall self level, heap_wf (snd (IsLevel self level s)))
  /\ (forall self, heap_wf (snd (PublicKey self s)))
  /\ (forall self, heap_wf (snd (PrivateKey self s)))
  /\ (forall r o, heap s !! r = Some o ->
        0 <= Bip32.Depth (m_bip32 o) <= Bip44Levels_int ADDRESS_INDEX
        /\ (Bip32.IsPublicOnly (m_bip32 o) = true ->
            Bip44Levels_int ACCOUNT <= Bip32.Depth (m_bip32 o))).
Proof.
  intros Hs. repeat apply conj.
  - intros b c. by apply init_keeps.
  - intros op self. by apply run_op_keeps.
  - intros self level. by rewrite IsLevel_state.
  - intros self r o. rewrite PublicKey_heap. apply Hs.
  - intros self r o. rewrite PrivateKey_heap. apply Hs.
  - intros r o Hr. specialize (Hs r o Hr). unfold depth_admissible in Hs.
    simpl in *. destruct (Bip32.IsPublicOnly (m_bip32 o)); split; intros; lia.
Qed.

Lemma heap_wf_init_state : heap_wf init_state.
Proof. intros r o Hr. done. Qed.

(** ** Levels and operations *)

Lemma level_of_depth (d : Z) :
  0 <= d <= 5 -> exists lv, Bip44Levels_int lv = d.
Proof.
  intros Hd.
  destruct (Z.eq_dec d 0) as [->|]; [by exists MASTER|].
  destruct (Z.eq_dec d 1) as [->|]; [by exists PURPOSE|].
  destruct (Z.eq_dec d 2) as [->|]; [by exists COIN|].
  destruct (Z.eq_dec d 3) as [->|]; [by exists ACCOUNT|].
  destruct (Z.eq_dec d 4) as [->|]; [by exists CHANGE|].
  exists ADDRESS_INDEX. simpl. lia.
Qed.

Lemma Bip44Levels_int_inj (l1 l2 : Bip44Levels) :
  Bip44Levels_int l1 = Bip44Levels_int l2 -> l1 = l2.
Proof. by destruct l1, l2. Qed.

(** X2. [IsLevel] answers for every level without touching the state,
    and for an instance that passed the constructor exactly one of the
    six levels gets the answer [True]. *)
Theorem IsLevel_one_level (s : State) (self : ref) (o : Bip44Obj) :
  heap s !! self = Some o ->
  depth_admissible (m_bip32 o) = true ->
  exists lv,
    Bip32.Depth (m_bip32 o) = Bip44Levels_int lv
    /\ forall level,
         exists answer,
           IsLevel self (PyLevel level) s = (Ok answer, s)
           /\ (answer = true <-> level = lv).
Proof.
  intros H Ha.
  assert (Hd : 0 <= Bip32.Depth (m_bip32 o) <= 5).
  { unfold depth_admissible in Ha. simpl in Ha.
    destruct (Bip32.IsPublicOnly (m_bip32 o)); lia. }
  destruct (level_of_depth _ Hd) as [lv Hlv]. exists lv. split; [done|].
  intros level. eexists. split; [apply (IsLevel_at _ _ _ _ H)|].
  rewrite <- Hlv, Z.eqb_eq. split; [|by intros ->].
  intros Hi. symmetry. by apply Bip44Levels_int_inj.
Qed.

(** Away from its level an operation is refused and nothing happens. *)
Lemma run_op_wrong_depth (op : DeriveOp) (s : State) (self : ref) (o : Bip44Obj) :
  heap s !! self = Some o ->
  well_typed op = true ->
  Bip32.Depth (m_bip32 o) <> Bip44Levels_int (required_level op) ->
  run_op op self s = (Raise Bip44DepthError, s).
Proof.
  intros H Hw Hd. destruct (single_step op) eqn:Hs.
  - rewrite (run_op_step _ _ _ _ H Hs Hw). by apply step_guard.
  - destruct op; try discriminate. simpl in *.
    destruct (default_path_cases o purpose) as (res & objs & calls & Hrun & _ & _ & Hne).
    destruct (Hne Hd) as (-> & -> & ->). by rewrite (Hrun _ _ H), extends_nil.
Qed.

(** X3. A public-only instance is at ACCOUNT level or below it, so the
    operations that start above, Purpose, Coin, Account and the default
    path, are refused on it with [Bip44DepthError], before any call to
    the engine. *)
Theorem public_only_refused (op : DeriveOp) (s : State) (self : ref) (o : Bip44Obj) :
  heap s !! self = Some o ->
  depth_admissible (m_bip32 o) = true ->
  Bip32.IsPublicOnly (m_bip32 o) = true ->
  Bip44Levels_int (required_level op) < Bip44Levels_int ACCOUNT ->
  run_op op self s = (Raise Bip44DepthError, s).
Proof.
  intros H Ha Hp Hl. apply (run_op_wrong_depth op s self o H).
  - by destruct op.
  - unfold depth_admissible in Ha. rewrite Hp in Ha. simpl in *. lia.
Qed.

(** X4. An instance at ADDRESS_INDEX level is a leaf: every operation
    on it is refused and nothing happens. On any instance two operations
    that both succeed start from the same level. *)
Theorem leaf_and_one_way (s : State) (self : ref) (o : Bip44Obj) :
  heap s !! self = Some o ->
  (Bip32.Depth (m_bip32 o) = Bip44Levels_int ADDRESS_INDEX ->
     forall op,
       run_op op self s
       = (Raise (if well_typed op then Bip44DepthError else TypeError), s))
  /\ (forall op1 op2,
       is_ok (fst (run_op op1 self s)) = true ->
       is_ok (fst (run_op op2 self s)) = true ->
       required_level op1 = required_level op2).
Proof.
  intros H. split.
  - intros Hd op. destruct (well_typed op) eqn:Hw.
    + apply (run_op_wrong_depth op s self o H Hw). rewrite Hd. by destruct op.
    + destruct op as [p| |a|v|a|p]; try discriminate. simpl.
      apply ChangeGeneric_ill_typed. by destruct v.
  - assert (Hlvl : forall op, is_ok (fst (run_op op self s)) = true ->
                     Bip32.Depth (m_bip32 o) = Bip44Levels_int (required_level op)).
    { intros op Hok.
      destruct (run_op_frame op o) as (res & objs & calls & Hrun & Hres).
      rewrite (Hrun _ _ H) in Hok. destruct res as [k|e]; [|done].
      by destruct (Hres k eq_refl). }
    intros op1 op2 H1 H2. apply Bip44Levels_int_inj.
    by rewrite <- (Hlvl op1 H1), <- (Hlvl op2 H2).
Qed.

(** X5. A derived instance keeps the coin configuration of the instance
    it comes from: [CoinConf] answers the same on both. *)
Theorem coin_conf_inherited (op : DeriveOp) (s s' : State) (self r : ref)
    (o : Bip44Obj) :
  heap s !! self = Some o ->
  run_op op self s = (Ok r, s') ->
  CoinConf r s' = (Ok (m_coin_conf o), s')
  /\ CoinConf self s' = (Ok (m_coin_conf o), s')
  /\ r <> self.
Proof.
  intros H Hrun.
  destruct (run_op_frame op o) as (res & objs & calls & Hframe & Hok).
  rewrite (Hframe _ _ H) in Hrun. destruct res as [k|e]; [|done].
  injection Hrun as <- <-.
  destruct (Hok k eq_refl) as (_ & o' & Hl & Hconf & _).
  unfold CoinConf, bind. split; [|split].
  - rewrite (deref_at _ _ o'); [by rewrite Hconf|]. by rewrite extends_lookup_new.
  - by rewrite (deref_at _ _ o) by by apply extends_lookup_old.
  - intros Heq. rewrite <- Heq, fresh_ref_unused in H. done.
Qed.

(** ** The indices of the steps *)

Lemma HardenIndex_idemp (index : Z) :
  Bip32.HardenIndex (Bip32.HardenIndex index) = Bip32.HardenIndex index.
Proof.
  unfold Bip32.HardenIndex. by rewrite <- Z.lor_assoc, Z.lor_diag.
Qed.

(** X6. At its level a single step makes exactly one call to the engine,
    on the key of the instance. The coin index and the account index
    are always passed hardened, so that an account index and its
    hardened form give the same call; the address index is passed
    hardened on a curve without unhardened private derivation and as it
    is otherwise. *)
Theorem step_indices (s : State) (self : ref) (o : Bip44Obj) :
  heap s !! self = Some o ->
  (forall op,
     single_step op = true -> well_typed op = true ->
     Bip32.Depth (m_bip32 o) = Bip44Levels_int (required_level op) ->
     new_calls s (snd (run_op op self s))
     = [ {| call_parent := m_bip32 o; call_index := op_index op o |} ])
  /\ Bip32.IsHardenedIndex (op_index OpCoin o) = true
  /\ (forall acc_idx,
       Bip32.IsHardenedIndex (op_index (OpAccount acc_idx) o) = true
       /\ _AccountGeneric self (Bip32.HardenIndex acc_idx) s
          = _AccountGeneric self acc_idx s)
  /\ (forall addr_idx,
       if Bip32.IsPrivateUnhardenedDerivationSupported (m_bip32 o)
       then op_index (OpAddressIndex addr_idx) o = addr_idx
       else Bip32.IsHardenedIndex (op_index (OpAddressIndex addr_idx) o) = true
            /\ _AddressIndexGeneric self (Bip32.HardenIndex addr_idx) s
               = _AddressIndexGeneric self addr_idx s).
Proof.
  intros H. repeat apply conj.
  - intros op Hs Hw Hd. rewrite (run_op_step _ _ _ _ H Hs Hw).
    destruct (step_cases o (required_level op) (op_index op o))
      as [[Hd' _]|[[_ (e1 & _ & H1)]|[_ (child & _ & _ & H1)]]];
      [done| |]; rewrite H1; cbn [snd]; apply new_calls_extends.
  - apply IsHardenedIndex_HardenIndex.
  - intros acc_idx. split; [apply IsHardenedIndex_HardenIndex|].
    by rewrite !(AccountGeneric_step _ _ _ _ H), HardenIndex_idemp.
  - intros addr_idx. simpl. unfold address_index.
    destruct (Bip32.IsPrivateUnhardenedDerivationSupported (m_bip32 o)) eqn:Hf;
      [done|].
    split; [apply IsHardenedIndex_HardenIndex|].
    rewrite !(AddressIndexGeneric_step _ _ _ _ H). unfold address_index.
    by rewrite Hf, HardenIndex_idemp.
Qed.

(** ** Paths, with an engine that keeps its promises *)

Section Laws.

Hypothesis laws : Bip32Laws.
Hypothesis flags : flag_inherited.

Lemma op_index_same (op : DeriveOp) (o o' : Bip44Obj) :
  m_coin_conf o' = m_coin_conf o ->
  Bip32.IsPrivateUnhardenedDerivationSupported (m_bip32 o')
  = Bip32.IsPrivateUnhardenedDerivationSupported (m_bip32 o) ->
  op_index op o' = op_index op o.
Proof.
  intros Hc Hf. destruct op as [p| |a|v|a|p]; simpl; try done.
  - by rewrite Hc.
  - destruct v; try done. unfold change_index. by rewrite Hf.
  - unfold address_index. by rewrite Hf.
Qed.

Lemma run_op_laws (op : DeriveOp) (s : State) (self : ref) (o : Bip44Obj) :
  heap s !! self = Some o ->
  single_step op = true -> well_typed op = true ->
  Bip32.Depth (m_bip32 o) = Bip44Levels_int (required_level op) ->
  depth_admissible (m_bip32 o) = true ->
  run_op op self s
  = match Bip32.ChildKey (m_bip32 o) (op_index op o) with
    | Ok child =>
        (Ok (length (heap s)),
         extends s [ {| m_bip32 := child; m_coin_conf := m_coin_conf o |} ]
           [ {| call_parent := m_bip32 o; call_index := op_index op o |} ])
    | Raise e =>
        (Raise e,
         extends s [] [ {| call_parent := m_bip32 o; call_index := op_index op o |} ])
    end.
Proof.
  intros H Hs Hw Hd Ha. rewrite (run_op_step _ _ _ _ H Hs Hw).
  apply (step_laws laws); try done. by destruct op.
Qed.

(** Steps one after the other against the walk of the engine, by
    induction on the steps. *)
Lemma run_ops_walk (ops : list DeriveOp) (s : State) (self : ref) (o : Bip44Obj) :
  heap s !! self = Some o ->
  depth_admissible (m_bip32 o) = true ->
  steps_from (Bip32.Depth (m_bip32 o)) ops = true ->
  trace (snd (run_ops ops self s))
  = trace s ++ snd (derive_seq (m_bip32 o) (map (fun op => op_index op o) ops))
  /\ (forall l x, heap s !! l = Some x ->
        heap (snd (run_ops ops self s)) !! l = Some x)
  /\ match fst (derive_seq (m_bip32 o) (map (fun op => op_index op o) ops)) with
     | Raise e => fst (run_ops ops self s) = Raise e
     | Ok derived =>
         exists r, fst (run_ops ops self s) = Ok r
           /\ heap (snd (run_ops ops self s)) !! r
              = Some {| m_bip32 := derived; m_coin_conf := m_coin_conf o |}
           /\ Bip32.Depth derived
              = Bip32.Depth (m_bip32 o) + Z.of_nat (length ops)
     end.
Proof.
  revert s self o. induction ops as [|op ops IH]; intros s self o H Ha Hsteps.
  - simpl. rewrite app_nil_r. split; [done|]. split; [done|].
    exists self. split; [done|]. split; [by destruct o|lia].
  - simpl in Hsteps. apply andb_prop in Hsteps as [Hsteps Hrest].
    apply andb_prop in Hsteps as [Hsteps Hlvl].
    apply andb_prop in Hsteps as [Hs Hw]. apply Z.eqb_eq in Hlvl.
    cbn [run_ops map derive_seq]. unfold bind.
    rewrite (run_op_laws op s self o H Hs Hw) by done.
    destruct (Bip32.ChildKey (m_bip32 o) (op_index op o)) as [child|e] eqn:Hck.
    2:{ cbn [fst snd]. split; [done|]. split; [|done].
        intros l x Hl. by apply extends_lookup_old. }
    set (o1 := {| m_bip32 := child; m_coin_conf := m_coin_conf o |}).
    set (c1 := {| call_parent := m_bip32 o; call_index := op_index op o |}).
    assert (Hd1 : Bip32.Depth child = Bip32.Depth (m_bip32 o) + 1)
      by apply (ChildKey_depth laws _ _ _ Hck).
    assert (Ha1 : depth_admissible (m_bip32 o1) = true).
    { apply (child_admissible laws _ _ _ Hck Ha). rewrite <- Hlvl.
      destruct op; simpl; done || lia. }
    assert (Hsame : map (fun op' => op_index op' o1) ops
                    = map (fun op' => op_index op' o) ops).
    { apply map_ext. intros op'. apply op_index_same; [done|].
      apply (flags _ _ _ Hck). }
    specialize (IH (extends s [o1] [c1]) (length (heap s)) o1
                  (extends_lookup_first _ _ _ _) Ha1).
    cbn [m_bip32 o1] in IH. rewrite Hd1 in IH. specialize (IH Hrest).
    rewrite Hsame in IH. cbn [m_coin_conf o1] in IH.
    destruct IH as (Htrace & Hheap & Hres).
    destruct (derive_seq child (map (fun op' => op_index op' o) ops))
      as [res calls]. cbn [fst snd] in *.
    split; [by rewrite Htrace; simpl; rewrite <- app_assoc|].
    split; [intros l x Hl; by apply Hheap, extends_lookup_old|].
    destruct res as [derived|e]; [|done].
    destruct Hres as (r & Hr & Hl & Hd). exists r.
    split; [done|]. split; [done|]. rewrite Hd. simpl length. lia.
Qed.

(** X7. A path of single steps that follows the levels from the level
    of an instance, such as Purpose, Coin, Account, Change, AddressIndex
    from a master key, is one walk of the engine over the indices of the
    steps: the calls made are those of the walk up to its first failure,
    whose error is the outcome, and when none fails the outcome is an
    instance that holds the last key, as many levels further down as
    the path has steps. Nothing that was in the store changes. *)
Theorem path_is_walk (ops : list DeriveOp) (s : State) (self : ref) (o : Bip44Obj) :
  heap s !! self = Some o ->
  depth_admissible (m_bip32 o) = true ->
  steps_from (Bip32.Depth (m_bip32 o)) ops = true ->
  let run := run_ops ops self s in
  let walk := derive_seq (m_bip32 o) (map (fun op => op_index op o) ops) in
  trace (snd run) = trace s ++ snd walk
  /\ (forall l x, heap s !! l = Some x -> heap (snd run) !! l = Some x)
  /\ match fst walk with
     | Raise e => fst run = Raise e
     | Ok derived =>
         exists r, fst run = Ok r
           /\ heap (snd run) !! r
              = Some {| m_bip32 := derived; m_coin_conf := m_coin_conf o |}
           /\ Bip32.Depth derived
              = Bip32.Depth (m_bip32 o) + Z.of_nat (length ops)
     end.
Proof. intros H Ha Hsteps run walk. by apply run_ops_walk. Qed.

(** X8. When the default path of the coin configuration is account
    [acc_idx], change [change_type] and address [addr_idx] in the form
    the curve asks for, [_DeriveDefaultPathGeneric] from a master
    instance does what the five steps Purpose, Coin, Account, Change and
    AddressIndex do one after the other: the same calls to the engine in
    the same order, the same exception or an instance with the same key
    at ADDRESS_INDEX level. *)
Theorem default_path_is_path (s : State) (self : ref) (o : Bip44Obj)
    (purpose acc_idx addr_idx : Z) (change_type : Bip44Changes) :
  heap s !! self = Some o ->
  depth_admissible (m_bip32 o) = true ->
  Bip32.Depth (m_bip32 o) = Bip44Levels_int MASTER ->
  DefaultPath (m_coin_conf o) = matching_default_path o acc_idx change_type addr_idx ->
  let short := _DeriveDefaultPathGeneric self purpose s in
  let long :=
    run_ops [OpPurpose purpose; OpCoin; OpAccount acc_idx;
             OpChange (PyChange change_type); OpAddressIndex addr_idx] self s in
  new_calls s (snd short) = new_calls s (snd long)
  /\ match fst short, fst long with
     | Ok r1, Ok r2 =>
         exists derived,
           heap (snd short) !! r1 = Some derived
           /\ heap (snd long) !! r2 = Some derived
           /\ Bip32.Depth (m_bip32 derived) = Bip44Levels_int ADDRESS_INDEX
     | Raise e1, Raise e2 => e1 = e2
     | _, _ => False
     end.
Proof.
  intros H Ha Hd Hpath short long.
  assert (Hlen : length (DefaultPath (m_coin_conf o)) = 3%nat) by by rewrite Hpath.
  destruct (default_path_laws laws s self o purpose H Hd Ha Hlen)
    as (objs & Hshort & Hobj).
  assert (Hsteps : steps_from (Bip32.Depth (m_bip32 o))
                     [OpPurpose purpose; OpCoin; OpAccount acc_idx;
                      OpChange (PyChange change_type); OpAddressIndex addr_idx]
                   = true) by by rewrite Hd.
  pose proof (run_ops_walk _ s self o H Ha Hsteps) as Hlong.
  fold long in Hlong.
  assert (Hidx : map (fun op => op_index op o)
                   [OpPurpose purpose; OpCoin; OpAccount acc_idx;
                    OpChange (PyChange change_type); OpAddressIndex addr_idx]
                 = default_path_indices o purpose).
  { unfold default_path_indices. rewrite Hpath. simpl.
    unfold change_index, address_index, Bip32.PathElem_ToInt. simpl.
    by destruct (Bip32.IsPrivateUnhardenedDerivationSupported (m_bip32 o)). }
  rewrite Hidx in Hlong. destruct Hlong as (Htrace & _ & Hres).
  subst short. rewrite Hshort. cbn [fst snd]. split.
  - rewrite new_calls_extends. unfold new_calls. rewrite Htrace.
    by rewrite drop_app_length.
  - destruct (fst (derive_seq (m_bip32 o) (default_path_indices o purpose)))
      as [derived|e]; [|by rewrite Hres].
    destruct Hres as (r & -> & Hl & _). destruct (Hobj derived eq_refl) as [Hl2 Hd5].
    eexists. split; [by rewrite extends_lookup_new|]. by split.
Qed.

End Laws.

End WithBip32.

Lemma engine_flag_inherited (C : HD.Curve) : flag_inherited (B := HD.engine C).
Proof. intros b index child _. reflexivity. Qed.

(** ** On concrete keys *)

Lemma instances_within_levels_witness :
  let s0 := Samples.constructed (B := Samples.with_unhardened)
              (Samples.public_at true 4) Bip84Conf.BitcoinMainNet in
  heap_wf s0
  /\ heap_wf (snd (run_op (OpAddressIndex 7) 0%nat s0)).
Proof.
  intros s0.
  assert (Hwf : heap_wf s0) by apply init_keeps, heap_wf_init_state.
  split; [exact Hwf|].
  destruct (instances_within_levels (B := Samples.with_unhardened) s0 Hwf)
    as (_ & Hops & _).
  exact (Hops (OpAddressIndex 7) 0%nat).
Defined.

Lemma IsLevel_one_level_witness :
  let o := (Samples.object (B := Samples.with_unhardened)
       (Samples.private_at true 2) Bip84Conf.BitcoinMainNet) in
  let s0 := Samples.constructed (B := Samples.with_unhardened)
              (Samples.private_at true 2) Bip84Conf.BitcoinMainNet in
  heap s0 !! 0%nat = Some o
  /\ depth_admissible (m_bip32 o) = true
  /\ exists lv,
       Bip32.Depth (m_bip32 o) = Bip44Levels_int lv
       /\ forall level,
            exists answer,
              IsLevel 0%nat (PyLevel level) s0 = (Ok answer, s0)
              /\ (answer = true <-> level = lv).
Proof.
  intros o s0. split; [reflexivity|]. split; [reflexivity|].
  exact (IsLevel_one_level (B := Samples.with_unhardened) s0 0%nat o eq_refl eq_refl).
Defined.

Lemma public_only_refused_witness :
  let o := (Samples.object (B := Samples.with_unhardened)
       (Samples.public_at true 3) Bip84Conf.BitcoinMainNet) in
  let s0 := Samples.constructed (B := Samples.with_unhardened)
              (Samples.public_at true 3) Bip84Conf.BitcoinMainNet in
  heap s0 !! 0%nat = Some o
  /\ depth_admissible (m_bip32 o) = true
  /\ Bip32.IsPublicOnly (m_bip32 o) = true
  /\ Bip44Levels_int (required_level (OpAccount 0)) < Bip44Levels_int ACCOUNT
  /\ run_op (OpAccount 0) 0%nat s0 = (Raise Bip44DepthError, s0).
Proof.
  intros o s0. split; [reflexivity|]. split; [reflexivity|].
  split; [reflexivity|]. split; [reflexivity|].
  exact (public_only_refused (B := Samples.with_unhardened) (OpAccount 0) s0 0%nat o
           eq_refl eq_refl eq_refl eq_refl).
Defined.

Lemma leaf_and_one_way_witness :
  let o := (Samples.object (B := Samples.with_unhardened)
       (Samples.private_at true 5) Bip84Conf.BitcoinMainNet) in
  let s0 := Samples.constructed (B := Samples.with_unhardened)
              (Samples.private_at true 5) Bip84Conf.BitcoinMainNet in
  heap s0 !! 0%nat = Some o
  /\ Bip32.Depth (m_bip32 o) = Bip44Levels_int ADDRESS_INDEX
  /\ run_op (OpAddressIndex 0) 0%nat s0 = (Raise Bip44DepthError, s0)
  /\ run_op (OpChange (PyInt 0)) 0%nat s0 = (Raise TypeError, s0).
Proof.
  intros o s0. split; [reflexivity|]. split; [reflexivity|].
  destruct (leaf_and_one_way (B := Samples.with_unhardened) s0 0%nat o eq_refl)
    as [Hleaf _].
  split; [exact (Hleaf eq_refl (OpAddressIndex 0))
         |exact (Hleaf eq_refl (OpChange (PyInt 0)))].
Defined.

Lemma coin_conf_inherited_witness :
  let o := (Samples.object (B := Samples.with_unhardened)
       (Samples.master true) Bip84Conf.BitcoinMainNet) in
  let s0 := Samples.constructed (B := Samples.with_unhardened)
              (Samples.master true) Bip84Conf.BitcoinMainNet in
  let run := run_op (B := Samples.with_unhardened)
               (OpPurpose Samples.purpose84) 0%nat s0 in
  heap s0 !! 0%nat = Some o
  /\ run = (Ok 1%nat, snd run)
  /\ CoinConf 1%nat (snd run) = (Ok Bip84Conf.BitcoinMainNet, snd run).
Proof.
  intros o s0 run.
  assert (Hfst : fst run = Ok 1%nat) by (vm_compute; reflexivity).
  assert (Hrun : run = (Ok 1%nat, snd run))
    by (rewrite <- Hfst; apply surjective_pairing).
  split; [reflexivity|]. split; [exact Hrun|].
  exact (proj1 (coin_conf_inherited (B := Samples.with_unhardened)
                  (OpPurpose Samples.purpose84) s0 (snd run) 0%nat 1%nat o
                  eq_refl Hrun)).
Defined.

Lemma step_indices_witness :
  let o := (Samples.object (B := Samples.hardened_only)
       (Samples.private_at false 2) Bip84Conf.BitcoinMainNet) in
  let s0 := Samples.constructed (B := Samples.hardened_only)
              (Samples.private_at false 2) Bip84Conf.BitcoinMainNet in
  heap s0 !! 0%nat = Some o
  /\ _AccountGeneric 0%nat (Bip32.HardenIndex 3) s0 = _AccountGeneric 0%nat 3 s0.
Proof.
  intros o s0. split; [reflexivity|].
  destruct (step_indices (B := Samples.hardened_only) s0 0%nat o eq_refl)
    as (_ & _ & Hacc & _).
  exact (proj2 (Hacc 3)).
Defined.

Lemma path_is_walk_witness :
  let o := (Samples.object (B := Samples.with_unhardened)
       (Samples.master true) Bip84Conf.BitcoinMainNet) in
  let s0 := Samples.constructed (B := Samples.with_unhardened)
              (Samples.master true) Bip84Conf.BitcoinMainNet in
  let ops := [OpPurpose Samples.purpose84; OpCoin; OpAccount 0;
              OpChange (PyChange CHAIN_EXT); OpAddressIndex 0] in
  heap s0 !! 0%nat = Some o
  /\ depth_admissible (m_bip32 o) = true
  /\ steps_from (Bip32.Depth (m_bip32 o)) ops = true
  /\ trace (snd (run_ops ops 0%nat s0))
     = trace s0
       ++ snd (derive_seq (m_bip32 o) (map (fun op => op_index op o) ops)).
Proof.
  intros o s0 ops. split; [reflexivity|]. split; [reflexivity|].
  split; [reflexivity|].
  pose proof (path_is_walk (B := Samples.with_unhardened)
                (engine_laws (HD.small_curve true))
                (engine_flag_inherited (HD.small_curve true))
                ops s0 0%nat o eq_refl eq_refl eq_refl) as Hwalk.
  cbv zeta in Hwalk. destruct Hwalk as [Htrace _]. exact Htrace.
Defined.

Lemma default_path_is_path_witness :
  let o := (Samples.object (B := Samples.with_unhardened)
       (Samples.master true) Bip84Conf.BitcoinMainNet) in
  let s0 := Samples.constructed (B := Samples.with_unhardened)
              (Samples.master true) Bip84Conf.BitcoinMainNet in
  heap s0 !! 0%nat = Some o
  /\ depth_admissible (m_bip32 o) = true
  /\ Bip32.Depth (m_bip32 o) = Bip44Levels_int MASTER
  /\ DefaultPath (m_coin_conf o) = matching_default_path o 0 CHAIN_EXT 0
  /\ new_calls s0 (snd (_DeriveDefaultPathGeneric 0%nat Samples.purpose84 s0))
     = new_calls s0
         (snd (run_ops [OpPurpose Samples.purpose84; OpCoin; OpAccount 0;
                        OpChange (PyChange CHAIN_EXT); OpAddressIndex 0]
                 0%nat s0)).
Proof.
  intros o s0. split; [reflexivity|]. split; [reflexivity|].
  split; [reflexivity|]. split; [reflexivity|].
  pose proof (default_path_is_path (B := Samples.with_unhardened)
                (engine_laws (HD.small_curve true))
                (engine_flag_inherited (HD.small_curve true))
                s0 0%nat o Samples.purpose84 0 0 CHAIN_EXT
                eq_refl eq_refl eq_refl eq_refl) as Hsame.
  cbv zeta in Hsame. destruct Hsame as [Hcalls _]. exact Hcalls.
Defined.

(** The five steps of the example on a curve with unhardened
    derivation: m/84'/0'/0'/0/0, five instances further down. *)
Example five_steps_run :
  let s0 := Samples.constructed (B := Samples.with_unhardened)
              (Samples.master true) Bip84Conf.BitcoinMainNet in
  let run := run_ops [OpPurpose Samples.purpose84; OpCoin; OpAccount 0;
                      OpChange (PyChange CHAIN_EXT); OpAddressIndex 0] 0%nat s0 in
  fst run = Ok 5%nat
  /\ map call_index (trace (snd run)) = [2147483732; 2147483648; 2147483648; 0; 0]
  /\ map (fun o => Bip32.Depth (m_bip32 o)) (heap (snd run)) = [0; 1; 2; 3; 4; 5].
Proof. intros s0 run. repeat split; vm_compute; reflexivity. Qed.

End Bip44More.

(** * More on mnemonic_utils.py *)

Module MnemonicMore.
Import Mnemonic MnemonicFacts.

(** ** Words lists with repeated words *)

Lemma words_to_idx_last (l : list string) (w : string) (i : Z) (n : nat) :
  words_to_idx l !! w = Some i -> (Z.to_nat i < n)%nat -> l !! n <> Some w.
Proof.
  revert i. induction l as [|x l IH] using rev_ind; intros i; [done|].
  rewrite words_to_idx_snoc. destruct (decide (x = w)) as [->|Hne].
  - rewrite lookup_insert_eq. intros [= <-] Hn. rewrite Nat2Z.id in Hn.
    by rewrite lookup_app_r, lookup_cons_ne_0, lookup_nil by lia.
  - rewrite lookup_insert_ne by done. intros Hi Hn.
    destruct (decide (n < length l)%nat) as [Hlt|Hge].
    + rewrite lookup_app_l by done. by eapply IH.
    + rewrite lookup_app_r by lia.
      destruct (n - length l)%nat as [|k]; simpl; [congruence|by rewrite lookup_nil].
Qed.

(** The index of a word holds the word, and no later position does. *)
Lemma GetWordIdx_holds (words_list : list string) (word : string) (i : Z) :
  GetWordIdx (MnemonicWordsList_init words_list) word = Ok i ->
  0 <= i < Z.of_nat (length words_list)
  /\ GetWordAtIdx (MnemonicWordsList_init words_list) i = Ok word
  /\ forall j, i < j ->
       GetWordAtIdx (MnemonicWordsList_init words_list) j <> Ok word.
Proof.
  intros Hg. unfold GetWordIdx in Hg. simpl in Hg.
  destruct (words_to_idx words_list !! word) as [i'|] eqn:Hd; [|done].
  injection Hg as ->. destruct (words_to_idx_Some _ _ _ Hd) as [Hi Hl].
  pose proof (lookup_lt_Some _ _ _ Hl) as Hlt.
  split; [lia|]. split; [by apply list_getitem_nonneg|].
  intros j Hj. unfold GetWordAtIdx, list_getitem. simpl.
  destruct (Z.ltb_spec j 0); [lia|].
  destruct (_ || _); [done|].
  destruct (words_list !! Z.to_nat j) as [x|] eqn:Hx; [|done].
  intros [= ->]. apply (words_to_idx_last _ _ _ (Z.to_nat j) Hd); [lia|done].
Qed.

(** X9. On any words list, with repeated words or not, the index that
    [GetWordIdx] gives for a word holds that word, and it is the last
    position of the word in the list; going from a position to its word
    and back gives that position or a later one. *)
Theorem index_of_word_is_last (words_list : list string) :
  let self := MnemonicWordsList_init words_list in
  (forall word i,
     GetWordIdx self word = Ok i ->
     0 <= i < Z.of_nat (length words_list)
     /\ GetWordAtIdx self i = Ok word
     /\ forall j, i < j -> GetWordAtIdx self j <> Ok word)
  /\ (forall i word,
       0 <= i -> GetWordAtIdx self i = Ok word ->
       exists j, GetWordIdx self word = Ok j /\ i <= j).
Proof.
  intros self. subst self.
  split; [intros word i; apply GetWordIdx_holds|].
  intros i word Hi Hg. unfold GetWordAtIdx, list_getitem in Hg. simpl in Hg.
  destruct (Z.ltb_spec i 0); [lia|].
  destruct (_ || _); [done|].
  destruct (words_list !! Z.to_nat i) as [x|] eqn:Hx; [|done].
  injection Hg as ->.
  assert (Hin : word ∈ words_list) by by eapply list_elem_of_lookup_2.
  apply GetWordIdx_is_ok in Hin.
  destruct (GetWordIdx (MnemonicWordsList_init words_list) word) as [j|e] eqn:Hj;
    [|done].
  exists j. split; [done|].
  destruct (GetWordIdx_holds _ _ _ Hj) as (_ & _ & Hlast).
  destruct (Z.le_gt_cases i j) as [|Hgt]; [done|].
  exfalso. apply (Hlast i); [lia|]. by apply list_getitem_nonneg.
Qed.

(** X10. [GetWordAtIdx] does not check its index: it raises
    [IndexError] exactly below minus the length of the list and from the
    length on, and a negative index in between counts from the end of the
    list. *)
Theorem word_at_index_bounds (self : MnemonicWordsList) (i : Z) :
  let n := Z.of_nat (length (m_idx_to_words self)) in
  (GetWordAtIdx self i = Raise IndexError <-> i < - n \/ n <= i)
  /\ (- n <= i < n -> is_ok (GetWordAtIdx self i) = true)
  /\ (0 <= i < n -> GetWordAtIdx self (i - n) = GetWordAtIdx self i).
Proof.
  intros n. subst n. unfold GetWordAtIdx, list_getitem.
  set (l := m_idx_to_words self). set (n := Z.of_nat (length l)).
  assert (Hin : forall j, 0 <= j < n -> is_Some (l !! Z.to_nat j)).
  { intros j Hj. apply lookup_lt_is_Some_2. lia. }
  split; [|split].
  - destruct (Z.ltb_spec i 0).
    + destruct (Z.ltb_spec (i + n) 0); simpl; [split; [lia|done]|].
      destruct (Z.leb_spec n (i + n)); [lia|].
      destruct (Hin (i + n)) as [x ->]; [lia|]. split; [done|lia].
    + destruct (Z.ltb_spec i 0); [lia|]. simpl.
      destruct (Z.leb_spec n i); [split; [lia|done]|].
      destruct (Hin i) as [x ->]; [lia|]. split; [done|lia].
  - intros Hi. destruct (Z.ltb_spec i 0).
    + destruct (Z.ltb_spec (i + n) 0); [lia|].
      destruct (Z.leb_spec n (i + n)); [lia|]. simpl.
      by destruct (Hin (i + n)) as [x ->]; [lia|].
    + destruct (Z.ltb_spec i 0); [lia|].
      destruct (Z.leb_spec n i); [lia|]. simpl.
      by destruct (Hin i) as [x ->]; [lia|].
  - intros Hi. destruct (Z.ltb_spec (i - n) 0); [|lia].
    destruct (Z.ltb_spec i 0); [lia|].
    replace (i - n + n) with i by lia.
    by destruct (Z.ltb_spec i 0); [lia|].
Qed.

Lemma index_of_word_is_last_witness :
  let self := MnemonicWordsList_init ["a"; "b"; "a"]%string in
  0 <= 0
  /\ GetWordAtIdx self 0 = Ok "a"%string
  /\ exists j, GetWordIdx self "a"%string = Ok j /\ 0 <= j.
Proof.
  intros self. split; [lia|]. split; [reflexivity|].
  pose proof (index_of_word_is_last ["a"; "b"; "a"]%string) as H.
  cbv zeta in H. destruct H as [_ Hback].
  exact (Hback 0 "a"%string ltac:(lia) eq_refl).
Defined.

Lemma word_at_index_bounds_witness :
  let self := MnemonicWordsList_init ["a"; "b"; "c"]%string in
  0 <= 2 < 3
  /\ GetWordAtIdx self (2 - 3) = GetWordAtIdx self 2.
Proof.
  intros self. split; [lia|].
  pose proof (word_at_index_bounds self 2) as H.
  cbv zeta in H. destruct H as (_ & _ & Hneg).
  apply Hneg. simpl. lia.
Defined.

(** ** Loading *)

Section Loading.

Variable strip : string -> string.

(** The lines that count: those that do not strip to nothing. *)
Lemma LoadFile_cases (fs : FileSystem) (file_path : string) (words_num : Z) :
  (exists e, fs file_path = Raise e
     /\ LoadFile strip fs file_path words_num = Raise e)
  \/ (exists lines,
        fs file_path = Ok lines
        /\ Z.of_nat (length (List.filter
                               (fun word => negb (String.eqb (strip word) ""))
                               lines)) <> words_num
        /\ LoadFile strip fs file_path words_num = Raise ValueError)
  \/ (exists lines,
        fs file_path = Ok lines
        /\ Z.of_nat (length (List.filter
                               (fun word => negb (String.eqb (strip word) ""))
                               lines)) = words_num
        /\ LoadFile strip fs file_path words_num
           = Ok (MnemonicWordsList_init
                   (map strip
                      (List.filter
                         (fun word => negb (String.eqb (strip word) ""))
                         lines)))).
Proof.
  unfold LoadFile. destruct (fs file_path) as [lines|e]; [|left; by exists e].
  right. rewrite length_map.
  destruct (Z.eqb_spec (Z.of_nat (length (List.filter
    (fun word => negb (String.eqb (strip word) "")) lines))) words_num);
    simpl; [right|left]; by exists lines.
Qed.

Lemma LoadFile_words (fs : FileSystem) (file_path : string) (words_num : Z)
    (words_list : MnemonicWordsList) :
  LoadFile strip fs file_path words_num = Ok words_list ->
  words_list = MnemonicWordsList_init (m_idx_to_words words_list).
Proof.
  intros Hload.
  destruct (LoadFile_cases fs file_path words_num)
    as [(e & _ & He)|[(lines & _ & _ & He)|(lines & _ & _ & He)]];
    rewrite He in Hload; [done..|]. by injection Hload as <-.
Qed.

(** X11. [LoadFile] returns a words list exactly when the file can be
    read and the number of its lines that do not strip to nothing is the
    expected number of words. The list returned has that many words, the
    strips of these lines in the order of the file, none of them empty,
    so that [GetWordAtIdx] answers with a non-empty word on every index
    from 0 to the expected number. A file with another number of such
    lines is rejected with [ValueError]; when the file cannot be read the
    exception of the reading is the outcome. *)
Theorem LoadFile_valid (fs : FileSystem) (file_path : string) (words_num : Z) :
  match LoadFile strip fs file_path words_num with
  | Ok words_list =>
      Z.of_nat (length (m_idx_to_words words_list)) = words_num
      /\ (exists lines,
            fs file_path = Ok lines
            /\ Z.of_nat (length (List.filter
                                   (fun word => negb (String.eqb (strip word) ""))
                                   lines)) = words_num
            /\ words_list
               = MnemonicWordsList_init
                   (map strip
                      (List.filter
                         (fun word => negb (String.eqb (strip word) ""))
                         lines))
            /\ forall word, word ∈ m_idx_to_words words_list ->
                 word <> ""%string
                 /\ exists line, line ∈ lines /\ word = strip line)
      /\ (forall i, 0 <= i < words_num ->
            exists word, GetWordAtIdx words_list i = Ok word /\ word <> ""%string)
  | Raise e =>
      fs file_path = Raise e
      \/ (e = ValueError
          /\ exists lines,
               fs file_path = Ok lines
               /\ Z.of_nat (length (List.filter
                                      (fun word => negb (String.eqb (strip word) ""))
                                      lines)) <> words_num)
  end.
Proof.
  destruct (LoadFile_cases fs file_path words_num)
    as [(e & Hfs & ->)|[(lines & Hfs & Hne & ->)|(lines & Hfs & Hlen & ->)]].
  - by left.
  - right. split; [done|]. by exists lines.
  - simpl.
    assert (Hwords : forall word,
              word ∈ map strip
                (List.filter (fun word => negb (String.eqb (strip word) "")) lines) ->
              word <> ""%string
              /\ exists line, line ∈ lines /\ word = strip line).
    { intros word Hin. apply list_elem_of_In, in_map_iff in Hin as (line & <- & Hin).
      apply filter_In in Hin as [Hin Hne]. split.
      - intros Heq. rewrite Heq in Hne. done.
      - exists line. split; [by apply list_elem_of_In|done]. }
    split; [by rewrite length_map|]. split; [by exists lines|].
    intros i Hi.
    destruct (lookup_lt_is_Some_2
                (map strip (List.filter
                   (fun word => negb (String.eqb (strip word) "")) lines))
                (Z.to_nat i)) as [word Hw]; [rewrite length_map; lia|].
    exists word. split.
    + unfold GetWordAtIdx. simpl. apply list_getitem_nonneg; [lia|done].
    + apply Hwords. by eapply list_elem_of_lookup_2.
Qed.

(** X12. Lines that strip to nothing do not count: two files that
    differ by such lines only load to the same words list, or are both
    rejected. *)
Theorem LoadFile_blank_lines (fs1 fs2 : FileSystem) (path1 path2 : string)
    (words_num : Z) (before after : list string) (blank : string) :
  strip blank = ""%string ->
  fs1 path1 = Ok (before ++ blank :: after) ->
  fs2 path2 = Ok (before ++ after) ->
  LoadFile strip fs1 path1 words_num = LoadFile strip fs2 path2 words_num.
Proof.
  intros Hblank H1 H2. unfold LoadFile. rewrite H1, H2.
  rewrite !List.filter_app. simpl. by rewrite Hblank.
Qed.

Context {Lang : Type} `{Countable Lang}.

(** X13. [_LoadWordsList] reads the file of a language once: after a
    load that succeeded every later request for the language gets the
    same words list, whatever the files have become and whatever file
    name and word count are passed, and the dictionary stays as it is;
    the lists of the other languages are never touched; a load that
    fails, with the [ValueError] of a list that is not valid or with the
    exception of a file that cannot be read, leaves the dictionary as it
    was, so the next request reads the file again. *)
Theorem LoadWordsList_once (fs : FileSystem)
    (m_words_lists : gmap Lang MnemonicWordsList)
    (lang : Lang) (file_name : string) (words_num : Z) :
  match _LoadWordsList strip fs m_words_lists lang file_name words_num with
  | (Ok words_list, m') =>
      m' !! lang = Some words_list
      /\ (forall fs' file_name' words_num',
            _LoadWordsList strip fs' m' lang file_name' words_num'
            = (Ok words_list, m'))
      /\ (forall other, other <> lang -> m' !! other = m_words_lists !! other)
  | (Raise e, m') =>
      (e = ValueError \/ fs file_name = Raise e)
      /\ m' = m_words_lists
      /\ m_words_lists !! lang = None
      /\ _LoadWordsList strip fs m' lang file_name words_num
         = (LoadFile strip fs file_name words_num, m')
  end.
Proof.
  unfold _LoadWordsList.
  destruct (m_words_lists !! lang) as [wl|] eqn:Hm.
  - split; [done|]. split; [|done]. intros fs' f' n'. by rewrite Hm.
  - destruct (LoadFile_cases fs file_name words_num)
      as [(e & Hfs & Hload)|[(lines & Hfs & Hne & Hload)|(lines & Hfs & Hlen & Hload)]];
      rewrite Hload.
    + split; [by right|]. split; [done|]. split; [done|]. by rewrite Hm.
    + split; [by left|]. split; [done|]. split; [done|]. by rewrite Hm.
    + split; [by rewrite lookup_insert_eq|]. split.
      * intros fs' f' n'. by rewrite lookup_insert_eq.
      * intros other Hne. by rewrite lookup_insert_ne.
Qed.

(** X14. As long as the files do not change, the dictionary is not
    seen: when every list of the dictionary is the one its file gives,
    [_LoadWordsList] on the file of a language returns what [LoadFile]
    returns on that file, which is what [GetByLanguage] of the getter of
    these files returns, and the dictionary stays such. *)
Theorem LoadWordsList_transparent (fs : FileSystem) (file_of : Lang -> string)
    (words_num : Z) (m_words_lists : gmap Lang MnemonicWordsList) (lang : Lang) :
  loaded_from strip fs file_of words_num m_words_lists ->
  let load := _LoadWordsList strip fs m_words_lists lang (file_of lang) words_num in
  fst load = LoadFile strip fs (file_of lang) words_num
  /\ fst load = GetByLanguage (file_getter strip fs file_of words_num) lang
  /\ loaded_from strip fs file_of words_num (snd load).
Proof.
  intros Hm load. subst load.
  assert (Hget : GetByLanguage (file_getter strip fs file_of words_num) lang
                 = LoadFile strip fs (file_of lang) words_num).
  { unfold GetByLanguage, file_getter. simpl.
    destruct (LoadFile strip fs (file_of lang) words_num) as [wl|e] eqn:Hload;
      [|done].
    by rewrite <- (LoadFile_words _ _ _ _ Hload). }
  rewrite Hget. unfold _LoadWordsList.
  destruct (m_words_lists !! lang) as [wl|] eqn:Hl.
  - by rewrite (Hm lang wl Hl).
  - destruct (LoadFile strip fs (file_of lang) words_num) as [wl|e] eqn:Hload;
      [|done].
    split; [done|]. split; [done|]. simpl.
    intros other wl' Ho. destruct (decide (other = lang)) as [->|Hne].
    + rewrite lookup_insert_eq in Ho. by injection Ho as <-.
    + rewrite lookup_insert_ne in Ho by done. by apply Hm.
Qed.

End Loading.

Lemma LoadFile_blank_lines_witness :
  sample_strip (String (Ascii.ascii_of_nat 10) "") = ""%string
  /\ LoadFile sample_strip sample_fs "english.txt" 3
     = LoadFile sample_strip
         (fun _ => Ok [ "abandon"; "ability"; "able" ]%string) "any.txt" 3.
Proof.
  split; [reflexivity|].
  apply (LoadFile_blank_lines sample_strip sample_fs
           (fun _ => Ok [ "abandon" ++ String (Ascii.ascii_of_nat 10) "";
                          "  ability " ++ String (Ascii.ascii_of_nat 10) "";
                          "able" ]%string)
           "english.txt" "any.txt" 3
           [ "abandon" ++ String (Ascii.ascii_of_nat 10) "";
             "  ability " ++ String (Ascii.ascii_of_nat 10) "" ]%string
           [ "able" ]%string
           (String (Ascii.ascii_of_nat 10) "")); reflexivity.
Defined.

Lemma LoadWordsList_transparent_witness :
  let file_of := fun lang : string => (lang ++ ".txt")%string in
  let load := _LoadWordsList sample_strip sample_fs
                (∅ : gmap string MnemonicWordsList) "english"%string
                (file_of "english"%string) 3 in
  loaded_from sample_strip sample_fs file_of 3 (∅ : gmap string MnemonicWordsList)
  /\ fst load = LoadFile sample_strip sample_fs "english.txt" 3.
Proof.
  intros file_of load.
  assert (Hempty : loaded_from sample_strip sample_fs file_of 3
                     (∅ : gmap string MnemonicWordsList))
    by (intros lang wl Hl; by rewrite lookup_empty in Hl).
  split; [exact Hempty|].
  pose proof (LoadWordsList_transparent sample_strip sample_fs file_of 3 ∅
                "english"%string Hempty) as Hload.
  cbv zeta in Hload. destruct Hload as [Hfst _]. exact Hfst.
Defined.

(** A file that is there and one that is not. *)
Example load_sample_files :
  LoadFile sample_strip sample_fs "english.txt" 3
  = Ok (MnemonicWordsList_init ["abandon"; "ability"; "able"]%string)
  /\ LoadFile sample_strip sample_fs "english.txt" 4 = Raise ValueError
  /\ LoadFile sample_strip sample_fs "italian.txt" 3 = Raise FileNotFoundError.
Proof. repeat split; vm_compute; reflexivity. Qed.

(** ** More on the finder *)

Section Finder.

Context {Lang : Type}.

(** The head of the enumeration is taken when it suits, passed over when
    the body of the [try] raises a [ValueError], and ends the search when
    its words list raises anything else. *)
Lemma find_step (mnemonic : Mnemonic) (lang : Lang) (langs : list Lang)
    (getter : MnemonicWordsListGetterBase Lang) :
  (exists words,
      words_for getter lang = Ok words
      /\ contains_all mnemonic words
      /\ _FindLanguageGeneric mnemonic (lang :: langs) getter
         = Ok (MnemonicWordsList_init words, lang))
  \/ (passed_over getter mnemonic lang
      /\ _FindLanguageGeneric mnemonic (lang :: langs) getter
         = _FindLanguageGeneric mnemonic langs getter)
  \/ (exists e,
        breaks getter lang e
        /\ _FindLanguageGeneric mnemonic (lang :: langs) getter = Raise e).
Proof.
  simpl. destruct (try_language_cases mnemonic getter lang)
    as [(words & Hw & Hall & ->)|[(Hpo & e & -> & ->)|(e & Hb & ->)]].
  - left. by exists words.
  - right. by left.
  - right. right. exists e. split; [done|]. destruct Hb as [_ ->]. done.
Qed.

(** The body of the [try] sees the words of the mnemonic, not their
    order or number. *)
Lemma try_language_word_set (m1 m2 : Mnemonic)
    (getter : MnemonicWordsListGetterBase Lang) (lang : Lang) :
  (forall word, word ∈ ToList m1 <-> word ∈ ToList m2) ->
  try_language m1 getter lang = try_language m2 getter lang.
Proof.
  intros Hsame. unfold try_language, GetByLanguage.
  destruct (words_for getter lang) as [words|e]; [|done].
  destruct (lookup_all (MnemonicWordsList_init words) (ToList m1)) as [[]|e1] eqn:H1,
           (lookup_all (MnemonicWordsList_init words) (ToList m2)) as [[]|e2] eqn:H2.
  - done.
  - pose proof (proj1 (lookup_all_ok _ _) H1) as Hall.
    assert (H2' : lookup_all (MnemonicWordsList_init words) (ToList m2) = Ok tt).
    { apply lookup_all_ok. intros word Hin. apply Hall. by apply Hsame. }
    congruence.
  - pose proof (proj1 (lookup_all_ok _ _) H2) as Hall.
    assert (H1' : lookup_all (MnemonicWordsList_init words) (ToList m1) = Ok tt).
    { apply lookup_all_ok. intros word Hin. apply Hall. by apply Hsame. }
    congruence.
  - by rewrite (lookup_all_raises _ _ _ H1), (lookup_all_raises _ _ _ H2).
Qed.

(** X15. The words list that the finder returns knows every word of
    the mnemonic: [GetWordIdx] gives an index for each of them and
    [GetWordAtIdx] on that index gives the word back; the language
    returned is one of the enumeration. *)
Theorem found_list_resolves (mnemonic : Mnemonic) (langs_enum : list Lang)
    (getter : MnemonicWordsListGetterBase Lang)
    (words_list : MnemonicWordsList) (lang : Lang) :
  _FindLanguageGeneric mnemonic langs_enum getter = Ok (words_list, lang) ->
  lang ∈ langs_enum
  /\ GetByLanguage getter lang = Ok words_list
  /\ forall word, word ∈ ToList mnemonic ->
       exists i, GetWordIdx words_list word = Ok i
         /\ GetWordAtIdx words_list i = Ok word.
Proof.
  induction langs_enum as [|l langs IH]; [done|].
  destruct (find_step mnemonic l langs getter)
    as [(words & Hw & Hall & ->)|[[_ ->]|(e & _ & ->)]].
  - intros [= <- <-]. split; [apply list_elem_of_here|].
    split; [unfold GetByLanguage; by rewrite Hw|].
    intros word Hin. specialize (Hall word Hin).
    apply GetWordIdx_is_ok in Hall.
    destruct (GetWordIdx (MnemonicWordsList_init words) word) as [i|e] eqn:Hi;
      [|done].
    exists i. split; [done|].
    by destruct (GetWordIdx_holds _ _ _ Hi) as (_ & Hat & _).
  - intros Hf. destruct (IH Hf) as (Hin & Hget & Hres).
    split; [by apply list_elem_of_further|]. by split.
  - done.
Qed.

(** X16. The finder looks at which words the mnemonic has, not at
    their order or number: two mnemonics with the same words get the same
    answer. *)
Theorem find_by_word_set (m1 m2 : Mnemonic) (langs_enum : list Lang)
    (getter : MnemonicWordsListGetterBase Lang) :
  (forall word, word ∈ ToList m1 <-> word ∈ ToList m2) ->
  _FindLanguageGeneric m1 langs_enum getter
  = _FindLanguageGeneric m2 langs_enum getter.
Proof.
  intros Hsame. induction langs_enum as [|l langs IH]; [done|].
  simpl. by rewrite (try_language_word_set m1 m2 getter l Hsame), IH.
Qed.

(** X17. A mnemonic without words is not rejected. Every words list
    holds all of its words, so it gets the first language of the
    enumeration whose words list is returned, when getting the list of
    each language before it raises a [ValueError]; the outcome is
    [ValueError] only when this is so for every language of the
    enumeration, and it is the first exception that is not a
    [ValueError] when that one comes before any list is returned. *)
Theorem find_empty_mnemonic (mnemonic : Mnemonic) (langs_enum : list Lang)
    (getter : MnemonicWordsListGetterBase Lang) :
  ToList mnemonic = [] ->
  let refused := fun l =>
    exists e, GetByLanguage getter l = Raise e /\ isinstance_ValueError e = true in
  match _FindLanguageGeneric mnemonic langs_enum getter with
  | Ok (words_list, lang) =>
      exists before after,
        langs_enum = before ++ lang :: after
        /\ (forall l, l ∈ before -> refused l)
        /\ GetByLanguage getter lang = Ok words_list
  | Raise e =>
      (e = ValueError /\ forall l, l ∈ langs_enum -> refused l)
      \/ (exists before lang after,
            langs_enum = before ++ lang :: after
            /\ (forall l, l ∈ before -> refused l)
            /\ GetByLanguage getter lang = Raise e
            /\ isinstance_ValueError e = false)
  end.
Proof.
  intros Hempty refused.
  assert (Hpo : forall l, passed_over getter mnemonic l -> refused l).
  { intros l [(e & He & Hv)|(ws & Hw & Hn)].
    - exists e. unfold GetByLanguage. by rewrite He.
    - exfalso. apply Hn. intros word Hin. rewrite Hempty in Hin.
      by apply elem_of_nil in Hin. }
  induction langs_enum as [|l langs IH].
  - simpl. left. split; [done|]. intros l Hl. by apply elem_of_nil in Hl.
  - destruct (find_step mnemonic l langs getter)
      as [(words & Hw & _ & ->)|[[Hn ->]|(e & [Hraise He] & ->)]].
    + exists [], langs. split; [done|]. split.
      * intros l' Hl'. by apply elem_of_nil in Hl'.
      * unfold GetByLanguage. by rewrite Hw.
    + destruct (_FindLanguageGeneric mnemonic langs getter) as [[wl found]|e].
      * destruct IH as (before & after & -> & Hbefore & Hget).
        exists (l :: before), after. split; [done|]. split; [|done].
        intros l' Hl'. apply elem_of_cons in Hl' as [->|Hl']; [by apply Hpo|].
        by apply Hbefore.
      * destruct IH as [[-> Hnone]|(before & l2 & after & -> & Hbefore & Hget)].
        -- left. split; [done|].
           intros l' Hl'. apply elem_of_cons in Hl' as [->|Hl']; [by apply Hpo|].
           by apply Hnone.
        -- right. exists (l :: before), l2, after. split; [done|]. split; [|done].
           intros l' Hl'. apply elem_of_cons in Hl' as [->|Hl']; [by apply Hpo|].
           by apply Hbefore.
    + right. exists [], l, langs. split; [done|]. split.
      * intros l' Hl'. by apply elem_of_nil in Hl'.
      * unfold GetByLanguage. by rewrite Hraise.
Qed.

(** X18. Only the languages up to the first that suits matter, as long
    as no exception other than a [ValueError] comes up: languages that are
    passed over, because getting their words list raises a [ValueError]
    or because the list lacks a word of the mnemonic, do not change the
    outcome of an enumeration when they are put in front of it, and an
    answer stays the same when languages are added at the end as well.
    A language in front whose words list raises another exception ends
    the search with that exception. *)
Theorem find_enumeration_order (mnemonic : Mnemonic)
    (front langs_enum back : list Lang)
    (getter : MnemonicWordsListGetterBase Lang) :
  (forall l, l ∈ front -> passed_over getter mnemonic l) ->
  _FindLanguageGeneric mnemonic (front ++ langs_enum) getter
  = _FindLanguageGeneric mnemonic langs_enum getter
  /\ (forall found,
       _FindLanguageGeneric mnemonic langs_enum getter = Ok found ->
       _FindLanguageGeneric mnemonic (front ++ langs_enum ++ back) getter
       = Ok found)
  /\ (forall lang e,
       breaks getter lang e ->
       _FindLanguageGeneric mnemonic (front ++ lang :: langs_enum) getter
       = Raise e).
Proof.
  intros Hfront.
  assert (Hskip : forall langs,
            _FindLanguageGeneric mnemonic (front ++ langs) getter
            = _FindLanguageGeneric mnemonic langs getter).
  { intros langs. induction front as [|l front' IH]; [done|].
    rewrite <- app_comm_cons.
    assert (Hpo : passed_over getter mnemonic l)
      by apply Hfront, list_elem_of_here.
    destruct (find_step mnemonic l (front' ++ langs) getter)
      as [(words & Hw & Hall & _)|[[_ ->]|(e & [Hraise He] & _)]].
    - exfalso. apply (passed_over_not_suits _ _ _ Hpo). by exists words.
    - apply IH. intros l' Hl'. apply Hfront. by apply list_elem_of_further.
    - exfalso. destruct Hpo as [(e' & He' & Hv)|(ws & Hw & _)]; congruence. }
  split; [apply Hskip|]. split.
  - intros found Hfound. rewrite Hskip.
    clear Hskip Hfront. induction langs_enum as [|l langs IH]; [done|].
    rewrite <- app_comm_cons. revert Hfound. simpl.
    destruct (try_language mnemonic getter l) as [r|e]; [done|].
    destruct (isinstance_ValueError e); [apply IH|done].
  - intros lang e [Hraise He]. rewrite Hskip. simpl.
    unfold try_language, GetByLanguage. by rewrite Hraise, He.
Qed.

End Finder.

Lemma found_list_resolves_witness :
  let mnemonic := {| m_mnemonic_list := ["fatigue"; "gazelle"]%string |} in
  let words_list := MnemonicWordsList_init ["abaisser"; "fatigue"; "gazelle"]%string in
  _FindLanguageGeneric mnemonic [ITALIAN; ENGLISH; FRENCH] sample_getter
  = Ok (words_list, FRENCH)
  /\ FRENCH ∈ [ITALIAN; ENGLISH; FRENCH].
Proof.
  intros mnemonic words_list.
  assert (Hfound : _FindLanguageGeneric mnemonic [ITALIAN; ENGLISH; FRENCH]
                     sample_getter = Ok (words_list, FRENCH))
    by (vm_compute; reflexivity).
  split; [exact Hfound|].
  exact (proj1 (found_list_resolves mnemonic [ITALIAN; ENGLISH; FRENCH]
                  sample_getter words_list FRENCH Hfound)).
Defined.

Lemma find_by_word_set_witness :
  let m1 := {| m_mnemonic_list := ["fatigue"; "gazelle"]%string |} in
  let m2 := {| m_mnemonic_list := ["gazelle"; "fatigue"; "gazelle"]%string |} in
  (forall word, word ∈ ToList m1 <-> word ∈ ToList m2)
  /\ _FindLanguageGeneric m1 [ITALIAN; ENGLISH; FRENCH] sample_getter
     = _FindLanguageGeneric m2 [ITALIAN; ENGLISH; FRENCH] sample_getter.
Proof.
  intros m1 m2.
  assert (Hsame : forall word, word ∈ ToList m1 <-> word ∈ ToList m2).
  { intros word. subst m1 m2. simpl. rewrite !elem_of_cons, !elem_of_nil. tauto. }
  split; [exact Hsame|].
  exact (find_by_word_set m1 m2 [ITALIAN; ENGLISH; FRENCH] sample_getter Hsame).
Defined.

Lemma find_empty_mnemonic_witness :
  let mnemonic := {| m_mnemonic_list := [] |} in
  ToList mnemonic = []
  /\ _FindLanguageGeneric mnemonic [ITALIAN; ENGLISH; FRENCH] sample_getter
     = Ok (MnemonicWordsList_init ["abandon"; "ability"; "fatigue"]%string, ENGLISH)
  /\ _FindLanguageGeneric mnemonic [ITALIAN; ENGLISH; FRENCH] missing_file_getter
     = Raise FileNotFoundError
  /\ match _FindLanguageGeneric mnemonic [ITALIAN; ENGLISH; FRENCH] sample_getter with
     | Ok (words_list, lang) =>
         exists before after,
           [ITALIAN; ENGLISH; FRENCH] = before ++ lang :: after
           /\ (forall l, l ∈ before ->
                 exists e, GetByLanguage sample_getter l = Raise e
                   /\ isinstance_ValueError e = true)
           /\ GetByLanguage sample_getter lang = Ok words_list
     | Raise e =>
         (e = ValueError
          /\ forall l, l ∈ [ITALIAN; ENGLISH; FRENCH] ->
               exists e, GetByLanguage sample_getter l = Raise e
                 /\ isinstance_ValueError e = true)
         \/ (exists before lang after,
               [ITALIAN; ENGLISH; FRENCH] = before ++ lang :: after
               /\ (forall l, l ∈ before ->
                     exists e, GetByLanguage sample_getter l = Raise e
                       /\ isinstance_ValueError e = true)
               /\ GetByLanguage sample_getter lang = Raise e
               /\ isinstance_ValueError e = false)
     end.
Proof.
  intros mnemonic. split; [reflexivity|]. split; [reflexivity|].
  split; [reflexivity|].
  exact (find_empty_mnemonic mnemonic [ITALIAN; ENGLISH; FRENCH] sample_getter
           eq_refl).
Defined.

Lemma find_enumeration_order_witness :
  let mnemonic := {| m_mnemonic_list := ["fatigue"; "gazelle"]%string |} in
  (forall l, l ∈ [ITALIAN] -> passed_over sample_getter mnemonic l)
  /\ _FindLanguageGeneric mnemonic ([ITALIAN] ++ [ENGLISH; FRENCH]) sample_getter
     = _FindLanguageGeneric mnemonic [ENGLISH; FRENCH] sample_getter.
Proof.
  intros mnemonic.
  assert (Hfront : forall l, l ∈ [ITALIAN] -> passed_over sample_getter mnemonic l).
  { intros l Hl. apply list_elem_of_singleton in Hl as ->.
    left. by exists ValueError. }
  split; [exact Hfront|].
  exact (proj1 (find_enumeration_order mnemonic [ITALIAN] [ENGLISH; FRENCH] []
                  sample_getter Hfront)).
Defined.

End MnemonicMore.

(** * More on substrate_scale_enc_uint.py *)

Module ScaleMore.
Import Scale ScaleFacts.

Lemma le_bytes_zero (k : nat) : le_bytes k 0 = repeat Byte.x00 k.
Proof. induction k as [|k IH]; [done|]. cbn [le_bytes repeat]. by rewrite Zdiv_0_l, IH. Qed.

(** A value that fits in [n] bytes is followed by zero bytes on more. *)
Lemma le_bytes_fits_app (n k : nat) (z : Z) :
  0 <= z < 256 ^ Z.of_nat n ->
  le_bytes (n + k) z = le_bytes n z ++ repeat Byte.x00 k.
Proof.
  revert z. induction n as [|n IH]; intros z Hz.
  - simpl in *. replace z with 0 by lia. apply le_bytes_zero.
  - cbn [Nat.add le_bytes app]. f_equal. apply IH.
    rewrite Nat2Z.inj_succ, Z.pow_succ_r in Hz by lia.
    split; [apply Z.div_pos; lia|]. apply Z.div_lt_upper_bound; lia.
Qed.

Lemma Encode_cases (n value : Z) (self : SubstrateScaleUIntEncoder) :
  1 <= n -> SubstrateScaleUIntEncoder_init n = Ok self ->
  (0 <= value < 2 ^ (8 * n)
   /\ Encode self value = Ok (le_bytes (Z.to_nat n) value))
  \/ (2 ^ (8 * n) <= value <= 2 ^ (8 * n + 1) - 1
      /\ Encode self value = Raise OverflowError)
  \/ ((value < 0 \/ 2 ^ (8 * n + 1) - 1 < value)
      /\ Encode self value = Raise ValueError).
Proof.
  intros Hn Hinit.
  destruct (Z.le_gt_cases (2 ^ (8 * n)) value) as [Hge|Hlt];
    [destruct (Z.le_gt_cases value (2 ^ (8 * n + 1) - 1)) as [Hle|Hgt]|].
  - right. left. split; [lia|]. by apply (Encode_overflow n).
  - right. right. split; [lia|].
    unfold SubstrateScaleUIntEncoder_init in Hinit.
    destruct (Z.ltb_spec (n * 8) 0); [lia|]. injection Hinit as <-.
    unfold Encode. simpl. rewrite max_val_pow by lia.
    destruct (Z.ltb_spec value 0); [done|].
    by destruct (Z.gtb_spec value (2 ^ (8 * n + 1) - 1)); [|lia].
  - unfold SubstrateScaleUIntEncoder_init in Hinit.
    destruct (Z.ltb_spec (n * 8) 0); [lia|]. injection Hinit as <-.
    assert (Hdouble : 2 ^ (8 * n + 1) = 2 * 2 ^ (8 * n))
      by (rewrite Z.pow_add_r by lia; lia).
    unfold Encode, IntegerUtils_ToBytes. simpl. rewrite max_val_pow by lia.
    destruct (Z.ltb_spec value 0).
    + right. right. split; [lia|done].
    + left. split; [lia|].
      destruct (Z.gtb_spec value (2 ^ (8 * n + 1) - 1)); [lia|]. simpl.
      by destruct (Z.leb_spec (2 ^ (8 * n)) value); [lia|].
Qed.

(** X19. An encoder of [n] bytes, n at least one, has three outcomes
    and no other: bytes for a value from 0 to 2^(8n) - 1,
    [OverflowError] from 2^(8n) to the bound of the guard, which is not
    below 2^(8n), [ValueError] below zero and above the bound. What it returns is always
    [n] bytes that read back, least significant first, as the value
    encoded, so two values with the same encoding are equal. *)
Theorem Encode_outcomes (n : Z) (self : SubstrateScaleUIntEncoder) :
  1 <= n -> SubstrateScaleUIntEncoder_init n = Ok self ->
  2 ^ (8 * n) <= m_max_val self
  /\ (forall value,
     match Encode self value with
     | Ok enc =>
         0 <= value < 2 ^ (8 * n)
         /\ length enc = Z.to_nat n /\ le_decode enc = value
     | Raise e =>
         (e = OverflowError /\ 2 ^ (8 * n) <= value <= m_max_val self)
         \/ (e = ValueError /\ (value < 0 \/ m_max_val self < value))
     end)
  /\ (forall v1 v2 enc,
        Encode self v1 = Ok enc -> Encode self v2 = Ok enc -> v1 = v2).
Proof.
  intros Hn Hinit.
  assert (Hmax : m_max_val self = 2 ^ (8 * n + 1) - 1).
  { unfold SubstrateScaleUIntEncoder_init in Hinit.
    destruct (Z.ltb_spec (n * 8) 0); [lia|]. injection Hinit as <-.
    simpl. apply max_val_pow. lia. }
  assert (Hfirst : forall value enc,
            Encode self value = Ok enc ->
            0 <= value < 2 ^ (8 * n)
            /\ length enc = Z.to_nat n /\ le_decode enc = value).
  { intros value enc Henc.
    destruct (Encode_cases n value self Hn Hinit)
      as [[Hv He]|[[_ He]|[_ He]]]; rewrite He in Henc; [|done..].
    injection Henc as <-. split; [done|]. split; [apply length_le_bytes|].
    apply le_decode_le_bytes_fits. by rewrite pow_256 by lia. }
  split; [|split].
  - rewrite Hmax, Z.pow_add_r by lia.
    pose proof (Z.pow_pos_nonneg 2 (8 * n) ltac:(lia) ltac:(lia)). lia.
  - intros value. destruct (Encode self value) as [enc|e] eqn:Henc.
    + by apply Hfirst.
    + destruct (Encode_cases n value self Hn Hinit)
        as [[_ He]|[[Hv He]|[Hv He]]]; rewrite He in Henc; [done| |].
      * injection Henc as <-. left. split; [done|]. by rewrite Hmax.
      * injection Henc as <-. right. split; [done|]. by rewrite Hmax.
  - intros v1 v2 enc H1 H2.
    destruct (Hfirst v1 enc H1) as (_ & _ & <-).
    by destruct (Hfirst v2 enc H2) as (_ & _ & <-).
Qed.

(** X20. Encoders of different sizes agree on the values both take: a
    value that the encoder of [n] bytes encodes is encoded by an encoder of
    [n + k] bytes as the same bytes followed by [k] zero bytes. *)
Theorem Encode_wider (n k value : Z) (narrow wide : SubstrateScaleUIntEncoder)
    (enc : list Byte.byte) :
  1 <= n -> 0 <= k ->
  SubstrateScaleUIntEncoder_init n = Ok narrow ->
  SubstrateScaleUIntEncoder_init (n + k) = Ok wide ->
  Encode narrow value = Ok enc ->
  Encode wide value = Ok (enc ++ repeat Byte.x00 (Z.to_nat k)).
Proof.
  intros Hn Hk Hnarrow Hwide Henc.
  destruct (Encode_cases n value narrow Hn Hnarrow)
    as [[Hv He]|[[_ He]|[_ He]]]; rewrite He in Henc; [|done..].
  injection Henc as <-.
  assert (Hle : 2 ^ (8 * n) <= 2 ^ (8 * (n + k)))
    by (apply Z.pow_le_mono_r; lia).
  destruct (Encode_cases (n + k) value wide ltac:(lia) Hwide)
    as [[_ ->]|[[Hv' _]|[Hv' _]]].
  - f_equal. rewrite Z2Nat.inj_add by lia. apply le_bytes_fits_app.
    by rewrite pow_256 by lia.
  - lia.
  - assert (2 ^ (8 * (n + k)) <= 2 ^ (8 * (n + k) + 1))
      by (apply Z.pow_le_mono_r; lia). lia.
Qed.

Lemma Encode_outcomes_witness :
  1 <= 4
  /\ exists self,
       SubstrateScaleU32Encoder = Ok self
       /\ match Encode self 4294967295 with
          | Ok enc =>
              0 <= 4294967295 < 2 ^ (8 * 4)
              /\ length enc = Z.to_nat 4 /\ le_decode enc = 4294967295
          | Raise e =>
              (e = OverflowError /\ 2 ^ (8 * 4) <= 4294967295 <= m_max_val self)
              \/ (e = ValueError /\ (4294967295 < 0 \/ m_max_val self < 4294967295))
          end.
Proof.
  split; [lia|].
  assert (Hinit : exists self, SubstrateScaleU32Encoder = Ok self)
    by (eexists; reflexivity).
  destruct Hinit as [self Hinit]. exists self. split; [exact Hinit|].
  exact (proj1 (proj2 (Encode_outcomes 4 self ltac:(lia) Hinit)) 4294967295).
Defined.

Lemma Encode_wider_witness :
  exists narrow wide,
    SubstrateScaleU16Encoder = Ok narrow
    /\ SubstrateScaleU64Encoder = Ok wide
    /\ Encode narrow 258 = Ok [Byte.x02; Byte.x01]
    /\ Encode wide 258
       = Ok ([Byte.x02; Byte.x01] ++ repeat Byte.x00 (Z.to_nat 6)).
Proof.
  assert (Hnarrow : exists narrow, SubstrateScaleU16Encoder = Ok narrow)
    by (eexists; reflexivity).
  assert (Hwide : exists wide, SubstrateScaleU64Encoder = Ok wide)
    by (eexists; reflexivity).
  destruct Hnarrow as [narrow Hnarrow], Hwide as [wide Hwide].
  assert (Henc : Encode narrow 258 = Ok [Byte.x02; Byte.x01]).
  { injection Hnarrow as <-. vm_compute. reflexivity. }
  exists narrow, wide. split; [exact Hnarrow|]. split; [exact Hwide|].
  split; [exact Henc|].
  exact (Encode_wider 2 6 258 narrow wide [Byte.x02; Byte.x01]
           ltac:(lia) ltac:(lia) Hnarrow Hwide Henc).
Defined.

End ScaleMore.
